(** * A shallow embedding of the gdk PSBT wrapper and signer

    The development follows [src/ga_psbt.cpp] and [src/signer.cpp].
    C++ exceptions become an error result, mutable members become explicit
    state passing over a record of the members, [std::map] and
    [nlohmann::json] objects become finite maps, and the virtual
    [session_impl] interface and the libwally primitives become type
    classes whose methods the embedded code calls.

    Embedded from signer.cpp: the construction of a signer (credentials,
    device descriptor, Liquid check, master keys), [get_credentials],
    [get_mnemonic], the capability and device-type accessors,
    [is_compatible_with], the xpub cache ([get_bip32_xpub],
    [has_bip32_xpub], [cache_ext_key], [cache_bip32_xpub],
    [get_cached_bip32_xpubs_json]) and the master blinding key.  Embedded
    from ga_psbt.cpp: the base64 constructor, [to_base64], [extract],
    [get_details] with [inputs_to_json] and [outputs_to_json], and
    [to_json].  Embedded from utils.hpp: [pair_and_transform] and
    [set_optional_variable].  Signing and [Psbt::from_json] are calls into
    the primitives from end to end and are left out.

    An exception ends the embedded run: the state a throwing call leaves
    behind is not observed. *)

From stdpp Require Import gmap strings list fin_maps pretty sorting.
From Stdlib.Strings Require Import Byte Ascii.

Local Open Scope string_scope.
Local Open Scope Z_scope.
Local Open Scope list_scope.

(** ** Exceptions *)

(** What a call can throw.  [user_error] is gdk's exception of that name,
    [assertion_error] is a failed [GDK_RUNTIME_ASSERT], [wally_error] is a
    failed [GDK_VERIFY] or a throwing wrapper of ga_wally, [json_error] is
    an exception of nlohmann::json ([type_error], [out_of_range]), and
    [upstream_error] is whatever a session collaborator throws. *)
Inductive exception :=
  | user_error (what : string)
  | assertion_error
  | wally_error
  | json_error
  | upstream_error.

Inductive result (A : Type) :=
  | Ok (a : A)
  | Throw (e : exception).
Arguments Ok {A} a.
Arguments Throw {A} e.

#[export] Instance result_ret : MRet result := fun A a => Ok a.
#[export] Instance result_bind : MBind result := fun A B f m =>
  match m with
  | Ok a => f a
  | Throw e => Throw e
  end.
#[export] Instance result_fmap : FMap result := fun A B f m =>
  match m with
  | Ok a => Ok (f a)
  | Throw e => Throw e
  end.

(** [GDK_RUNTIME_ASSERT(cond)] *)
Definition GDK_RUNTIME_ASSERT (cond : bool) : result unit :=
  if cond then Ok tt else Throw assertion_error.

(** [GDK_VERIFY(call)] on a libwally call that yields a value. *)
Definition GDK_VERIFY {A} (r : option A) : result A :=
  match r with
  | Some a => Ok a
  | None => Throw wally_error
  end.

(** Dereferencing an optional after [GDK_RUNTIME_ASSERT(ptr)]. *)
Definition assert_some {A} (o : option A) : result A :=
  match o with
  | Some a => Ok a
  | None => Throw assertion_error
  end.

(** ** Machine integers *)

Definition wrap32 (n : Z) : Z := n mod 2 ^ 32.
Definition wrap64 (n : Z) : Z := n mod 2 ^ 64.

(** Modelled from the spec: amount.hpp is missing.  [amount] wraps the
    [uint64_t] of a [satoshi] entry; [+=] and [-=] are the unsigned
    operations. *)
Definition amount_add (a b : Z) : Z := wrap64 (a + b).
Definition amount_sub (a b : Z) : Z := wrap64 (a - b).

(** Modelled from the spec: the header of [harden] and [is_hardened] is
    missing.  A BIP-32 path component is hardened when its bit 31 is set. *)
Definition harden (v : Z) : Z := Z.lor v 0x80000000.
Definition is_hardened (v : Z) : bool := negb (Z.land v 0x80000000 =? 0).
Definition non_hardened (v : Z) : Prop := is_hardened v = false.

(** ** Bytes and hex *)

#[export] Instance byte_eq_decision : EqDecision byte := Byte.byte_eq_dec.

Definition hex_digit (n : N) : ascii :=
  match n with
  | 0 => "0" | 1 => "1" | 2 => "2" | 3 => "3" | 4 => "4" | 5 => "5"
  | 6 => "6" | 7 => "7" | 8 => "8" | 9 => "9" | 10 => "a" | 11 => "b"
  | 12 => "c" | 13 => "d" | 14 => "e" | _ => "f"
  end%N%char.

Definition hex_value (c : ascii) : option N :=
  let n := Ascii.N_of_ascii c in
  if (48 <=? n)%N && (n <=? 57)%N then Some (n - 48)%N
  else if (97 <=? n)%N && (n <=? 102)%N then Some (n - 87)%N
  else if (65 <=? n)%N && (n <=? 70)%N then Some (n - 55)%N
  else None.

(** Modelled from the spec: [b2h], [b2h_rev] and [h2b] (ga_wally.hpp) are
    missing.  [b2h] is the lower-case hex of a byte span, [b2h_rev] that of
    the reversed span, and [h2b] decodes hex of either case. *)
Fixpoint b2h (bs : list byte) : string :=
  match bs with
  | [] => EmptyString
  | b :: bs' =>
      String (hex_digit (Byte.to_N b / 16)) (String (hex_digit (Byte.to_N b mod 16)) (b2h bs'))
  end.

Definition b2h_rev (bs : list byte) : string := b2h (rev bs).

Fixpoint hex_to_bytes (s : string) : option (list byte) :=
  match s with
  | EmptyString => Some []
  | String c1 (String c2 rest) =>
      hi ← hex_value c1;
      lo ← hex_value c2;
      b ← Byte.of_N (16 * hi + lo);
      tl ← hex_to_bytes rest;
      Some (b :: tl)
  | String _ EmptyString => None
  end.

(** [h2b]: throws on a string that is not hex. *)
Definition h2b (hex : string) : result (list byte) := GDK_VERIFY (hex_to_bytes hex).

(** ** JSON values (nlohmann::json) *)

(** Numbers are integers; objects are [std::map]s, so two objects are equal
    when they have the same entries. *)
#[warnings="-register-all"]
Inductive json :=
  | JNull
  | JBool (b : bool)
  | JNum (n : Z)
  | JStr (s : string)
  | JArr (l : list json)
  | JObj (m : gmap string json).

Fixpoint json_eq_dec (x y : json) {struct x} : Decision (x = y).
Proof.
  refine (match x, y with
          | JNull, JNull => left eq_refl
          | JBool a, JBool b => cast_if (decide (a = b))
          | JNum a, JNum b => cast_if (decide (a = b))
          | JStr a, JStr b => cast_if (decide (a = b))
          | JArr a, JArr b => cast_if (@list_eq_dec _ json_eq_dec a b)
          | JObj a, JObj b => cast_if (@gmap_eq_dec _ _ _ _ json_eq_dec a b)
          | _, _ => right _
          end); congruence.
Defined.
#[export] Instance json_eq_decision : EqDecision json := json_eq_dec.

Module json_ops.

(** [basic_json::empty()] *)
Definition empty (j : json) : bool :=
  match j with
  | JNull => true
  | JArr l => bool_decide (l = [])
  | JObj m => bool_decide (m = ∅)
  | _ => false
  end.

(** [basic_json::contains(key)] *)
Definition contains (j : json) (key : string) : bool :=
  match j with
  | JObj m => bool_decide (is_Some (m !! key))
  | _ => false
  end.

(** [basic_json::find(key)], as an optional. *)
Definition find (j : json) (key : string) : option json :=
  match j with
  | JObj m => m !! key
  | _ => None
  end.

(** [basic_json::at(key)]: [type_error] off an object, [out_of_range] on a
    missing key. *)
Definition at_ (j : json) (key : string) : result json :=
  match j with
  | JObj m => match m !! key with Some v => Ok v | None => Throw json_error end
  | _ => Throw json_error
  end.

(** [j[key] = v]: null becomes an object first; [type_error] on any other
    non-object. *)
Definition set (j : json) (key : string) (v : json) : result json :=
  match j with
  | JNull => Ok (JObj {[ key := v ]})
  | JObj m => Ok (JObj (<[ key := v ]> m))
  | _ => Throw json_error
  end.

(** [basic_json::erase(key)]: [type_error] 307 on anything but an object. *)
Definition erase (j : json) (key : string) : result json :=
  match j with
  | JObj m => Ok (JObj (delete key m))
  | _ => Throw json_error
  end.

(** [basic_json::value(key, default)]: [type_error] 306 off an object. *)
Definition value (j : json) (key : string) (dflt : json) : result json :=
  match j with
  | JObj m => Ok (default dflt (m !! key))
  | _ => Throw json_error
  end.

Definition get_string (j : json) : result string :=
  match j with
  | JStr s => Ok s
  | _ => Throw json_error
  end.

Definition get_bool (j : json) : result bool :=
  match j with
  | JBool b => Ok b
  | _ => Throw json_error
  end.

Definition get_uint32 (j : json) : result Z :=
  match j with
  | JNum n => Ok (wrap32 n)
  | _ => Throw json_error
  end.

Definition get_uint64 (j : json) : result Z :=
  match j with
  | JNum n => Ok (wrap64 n)
  | _ => Throw json_error
  end.

End json_ops.

(** A braced list of key/value pairs: an object. *)
Definition json_object (l : list (string * json)) : json := JObj (list_to_map l).

(** ** The typed accessors of json_utils.hpp *)

(** Modelled from the spec: json_utils.hpp is missing.  The accessors are
    modelled after their names and their use: the [_ref] forms go through
    [at] and throw on a missing key, the optional forms go through [find],
    and both throw when the value found has another type. *)

Definition j_opt {A} (get : json → result A) (src : json) (key : string) : result (option A) :=
  match json_ops.find src key with
  | Some v => Some <$> get v
  | None => Ok None
  end.

Definition j_ref {A} (get : json → result A) (src : json) (key : string) : result A :=
  v ← json_ops.at_ src key; get v.

Definition j_str := j_opt json_ops.get_string.
Definition j_strref := j_ref json_ops.get_string.
Definition j_str_or_empty (src : json) (key : string) : result string :=
  default "" <$> j_str src key.
Definition j_str_is_empty (src : json) (key : string) : result bool :=
  (λ s, bool_decide (s = "")) <$> j_str_or_empty src key.
Definition j_bool := j_opt json_ops.get_bool.
Definition j_boolref := j_ref json_ops.get_bool.
Definition j_bool_or_false (src : json) (key : string) : result bool :=
  default false <$> j_bool src key.
Definition j_uint32ref := j_ref json_ops.get_uint32.
Definition j_amountref (src : json) : result Z := j_ref json_ops.get_uint64 src "satoshi".
Definition get_array (j : json) : result (list json) :=
  match j with
  | JArr l => Ok l
  | _ => Throw json_error
  end.
Definition j_array := j_opt get_array.
Definition j_arrayref := j_ref get_array.

(** Modelled from the spec: [j_assetref(is_liquid, src)] (json_utils.hpp)
    is missing.  Off Liquid the only asset is spelled "btc"; on Liquid it is
    the [asset_id] of the entry. *)
Definition j_assetref (is_liquid : bool) (src : json) : result string :=
  if is_liquid then j_strref src "asset_id" else Ok "btc".

(** Modelled from the spec: [json_add_if_missing(data, key, value,
    overwrite_null)] (json_utils.hpp) is missing.  It sets the key when it is
    absent, and also when it holds null and [overwrite_null] is set. *)
Definition json_add_if_missing (data : json) (key : string) (v : json) (overwrite_null : bool)
  : result json :=
  match json_ops.find data key with
  | None => json_ops.set data key v
  | Some old =>
      if overwrite_null && bool_decide (old = JNull) then json_ops.set data key v else Ok data
  end.

(** Modelled from the spec: [j_rename(data, from, to)] (json_utils.hpp) is
    missing.  It moves the value of [from], if any, to [to]. *)
Definition j_rename (data : gmap string json) (from to : string) : gmap string json :=
  match data !! from with
  | Some v => <[ to := v ]> (delete from data)
  | None => data
  end.

(** [std::string::find(' ') != npos] *)
Fixpoint has_space (s : string) : bool :=
  match s with
  | EmptyString => false
  | String c rest => bool_decide (c = " "%char) || has_space rest
  end.

(** [s.back()] and [s.pop_back()] on a non-empty string. *)
Fixpoint string_back (s : string) : option ascii :=
  match s with
  | EmptyString => None
  | String c EmptyString => Some c
  | String _ rest => string_back rest
  end.

Fixpoint string_pop_back (s : string) : string :=
  match s with
  | EmptyString => EmptyString
  | String c EmptyString => EmptyString
  | String c rest => String c (string_pop_back rest)
  end.

(** ** The libwally and ga_wally primitives the signer calls *)

Class Wally := {
  (** [wally_ext_key_ptr]'s pointee *)
  ext_key : Type;
  bip32_key_from_parent_path_alloc : ext_key → list Z → Z → result ext_key;
  bip32_key_serialize : ext_key → Z → list byte;
  base58check_from_bytes : list byte → string;
  bip32_public_key_from_bip32_xpub : string → result ext_key;
  bip32_key_from_seed_alloc : list byte → Z → Z → result ext_key;
  asset_blinding_key_from_seed : list byte → list byte;
  bip39_mnemonic_to_seed : string → string → list byte;
  decrypt_mnemonic : string → string → result string;
}.

(** [encrypt_mnemonic(plaintext_mnemonic, password)], declared in utils.hpp
    beside [decrypt_mnemonic]. *)
Class MnemonicEncryption := {
  encrypt_mnemonic : string → string → result string;
}.

Definition BIP32_FLAG_KEY_PRIVATE : Z := 0.
Definition BIP32_FLAG_KEY_PUBLIC : Z := 1.
Definition BIP32_FLAG_SKIP_HASH : Z := 2.
Definition BIP32_VER_MAIN_PRIVATE : Z := 0x0488ADE4.
Definition BIP32_VER_TEST_PRIVATE : Z := 0x04358394.
Definition SHA512_LEN : nat := 64.
Definition HMAC_SHA256_LEN : nat := 32.

(** Modelled from the spec: signer.hpp is missing.  [liquid_support_level]
    ([none], [lite], [full]) and [ae_protocol_support_level] are stored in
    the device JSON as their underlying integers. *)
Module liquid_support_level.
Definition none : Z := 0.
Definition lite : Z := 1.
Definition full : Z := 2.
End liquid_support_level.

Module ae_protocol_support_level.
Definition none : Z := 0.
End ae_protocol_support_level.

(** Modelled from the spec: network_parameters.hpp is missing.  What the
    signer and the PSBT wrapper read of [network_parameters]. *)
Record network_parameters := {
  is_main_net : bool;
  is_liquid : bool;
  is_electrum : bool;
  btc_version : Z;
  get_policy_asset : string;
}.

(** ** signer.cpp *)

Module signer.

Section definitions.
Context `{Wally}.

Definition derive (hdkey : ext_key) (path : list Z) (flags : Z) : result ext_key :=
  bip32_key_from_parent_path_alloc hdkey path (Z.lor flags BIP32_FLAG_SKIP_HASH).

(** The tail of [get_credentials_json]: descriptor watch-only logins. *)
Definition get_descriptor_credentials (credentials : json) : result json :=
  slip132_pubkeys ← j_array credentials "slip132_extended_pubkeys";
  descriptors ← j_array credentials "core_descriptors";
  match descriptors, slip132_pubkeys with
  | Some _, Some _ => Throw (user_error "cannot use slip132_extended_pubkeys and core_descriptors")
  | Some d, None => Ok (json_object [("core_descriptors", JArr d)])
  | None, Some p => Ok (json_object [("slip132_extended_pubkeys", JArr p)])
  | None, None => Throw (user_error "Invalid credentials")
  end.

Definition get_credentials_json (credentials : json) : result json :=
  if json_ops.empty credentials then Ok JNull
  else
    username ← j_str credentials "username";
    match username with
    | Some username =>
        password ← j_strref credentials "password";
        Ok (json_object [("username", JStr username); ("password", JStr password)])
    | None =>
        user_mnemonic ← j_str credentials "mnemonic";
        match user_mnemonic with
        | Some mnemonic =>
            bip39_passphrase ← j_str credentials "bip39_passphrase";
            if has_space mnemonic then
              password ← j_str credentials "password";
              mnemonic ← match password with
                         | Some password =>
                             GDK_RUNTIME_ASSERT (bool_decide (bip39_passphrase = None));;
                             decrypt_mnemonic mnemonic password
                         | None => Ok mnemonic
                         end;
              let passphrase := default "" bip39_passphrase in
              let seed := b2h (bip39_mnemonic_to_seed mnemonic passphrase) in
              let ret := [("mnemonic", JStr mnemonic); ("seed", JStr seed)] in
              if bool_decide (passphrase = "") then Ok (json_object ret)
              else Ok (json_object (ret ++ [("bip39_passphrase", JStr passphrase)]))
            else if (String.length mnemonic =? 129)%nat
                    && bool_decide (string_back mnemonic = Some "X"%char) then
              GDK_RUNTIME_ASSERT (bool_decide (bip39_passphrase = None));;
              Ok (json_object [("seed", JStr (string_pop_back mnemonic))])
            else get_descriptor_credentials credentials
        | None => get_descriptor_credentials credentials
        end
    end.

Definition device_json (device_type : string) (supports_host_unblinding : bool) : json :=
  json_object [("device_type", JStr device_type); ("supports_low_r", JBool true);
          ("supports_arbitrary_scripts", JBool true);
          ("supports_host_unblinding", JBool supports_host_unblinding);
          ("supports_external_blinding", JBool true);
          ("supports_liquid", JNum liquid_support_level.lite);
          ("supports_ae_protocol", JNum ae_protocol_support_level.none)].

Definition GREEN_DEVICE_JSON : json := device_json "green-backend" false.
Definition WATCH_ONLY_DEVICE_JSON : json := device_json "watch-only" true.
Definition SOFTWARE_DEVICE_JSON : json := device_json "software" true.

Definition get_device_json (hw_device credentials : json) : result json :=
  device ← (if json_ops.empty hw_device then Ok (JObj ∅)
            else json_ops.value hw_device "device" (JObj ∅));
  ret ← (if negb (json_ops.empty device) then
           if negb (json_ops.empty credentials) then
             Throw (user_error "HWW/remote signer and login credentials cannot be used together")
           else Ok device
         else if json_ops.contains credentials "username"
                 || json_ops.contains credentials "slip132_extended_pubkeys"
                 || json_ops.contains credentials "core_descriptors" then
           Ok WATCH_ONLY_DEVICE_JSON
         else if json_ops.contains credentials "seed" then Ok SOFTWARE_DEVICE_JSON
         else Throw (user_error "Hardware device or credentials required"));
  let overwrite_null := true in
  ret ← json_add_if_missing ret "supports_low_r" (JBool false) overwrite_null;
  ret ← json_add_if_missing ret "supports_arbitrary_scripts" (JBool false) overwrite_null;
  ret ← json_add_if_missing ret "supports_host_unblinding" (JBool false) overwrite_null;
  ret ← json_add_if_missing ret "supports_external_blinding" (JBool false) overwrite_null;
  ret ← json_add_if_missing ret "supports_liquid" (JNum liquid_support_level.none) overwrite_null;
  ret ← json_add_if_missing ret "supports_ae_protocol" (JNum ae_protocol_support_level.none)
          overwrite_null;
  ret ← json_add_if_missing ret "device_type" (JStr "hardware") overwrite_null;
  device_type ← j_str_or_empty ret "device_type";
  if bool_decide (device_type = "hardware") then
    name ← (json_ops.value ret "name" (JStr "") ≫= json_ops.get_string);
    if bool_decide (name = "") then
      Throw (user_error "Hardware device JSON requires a non-empty 'name' element")
    else Ok ret
  else if bool_decide (device_type = "green-backend") then Ok GREEN_DEVICE_JSON
  else if bool_decide (device_type ≠ "software") && bool_decide (device_type ≠ "watch-only") then
    Throw (user_error ("Unknown device type " +:+ device_type))
  else Ok ret.

(** The members of [class signer]. *)
Record t := {
  m_is_main_net : bool;
  m_is_liquid : bool;
  m_btc_version : Z;
  m_credentials : json;
  m_device : json;
  m_master_key : option ext_key;
  m_master_blinding_key : option (list byte);
  m_cached_bip32_xpubs : gmap (list Z) string;
}.

Definition with_master_key (s : t) (k : option ext_key) : t :=
  {| m_is_main_net := m_is_main_net s; m_is_liquid := m_is_liquid s;
     m_btc_version := m_btc_version s; m_credentials := m_credentials s;
     m_device := m_device s; m_master_key := k;
     m_master_blinding_key := m_master_blinding_key s;
     m_cached_bip32_xpubs := m_cached_bip32_xpubs s |}.

Definition with_master_blinding_key (s : t) (k : option (list byte)) : t :=
  {| m_is_main_net := m_is_main_net s; m_is_liquid := m_is_liquid s;
     m_btc_version := m_btc_version s; m_credentials := m_credentials s;
     m_device := m_device s; m_master_key := m_master_key s;
     m_master_blinding_key := k;
     m_cached_bip32_xpubs := m_cached_bip32_xpubs s |}.

Definition with_cached_bip32_xpubs (s : t) (c : gmap (list Z) string) : t :=
  {| m_is_main_net := m_is_main_net s; m_is_liquid := m_is_liquid s;
     m_btc_version := m_btc_version s; m_credentials := m_credentials s;
     m_device := m_device s; m_master_key := m_master_key s;
     m_master_blinding_key := m_master_blinding_key s;
     m_cached_bip32_xpubs := c |}.

Definition get_liquid_support (s : t) : result Z :=
  j_uint32ref (m_device s) "supports_liquid".

Definition get_ae_protocol_support (s : t) : result Z :=
  j_uint32ref (m_device s) "supports_ae_protocol".

(** Modelled from the spec: ga_strings.hpp is missing.  The message of the
    user error for a device without Liquid support. *)
Definition id_the_hardware_wallet_you_are : string := "id_the_hardware_wallet_you_are".

(** The constructor's body once the member initialisers have run: the
    Liquid capability check. *)
Definition check_liquid_support (s : t) : result unit :=
  if m_is_liquid s then
    level ← get_liquid_support s;
    if level =? liquid_support_level.none then
      Throw (user_error id_the_hardware_wallet_you_are)
    else Ok tt
  else Ok tt.

(** The constructor's body after the check: the master keys of a signer
    that holds a seed. *)
Definition init_master_keys (s : t) : result t :=
  seed_hex ← j_str (m_credentials s) "seed";
  match seed_hex with
  | Some seed_hex =>
      seed ← h2b seed_hex;
      let version := if m_is_main_net s then BIP32_VER_MAIN_PRIVATE else BIP32_VER_TEST_PRIVATE in
      master_key ← bip32_key_from_seed_alloc seed version 0;
      let s := with_master_key s (Some master_key) in
      Ok (if m_is_liquid s
          then with_master_blinding_key s (Some (asset_blinding_key_from_seed seed))
          else s)
  | None => Ok s
  end.

(** [signer::signer(net_params, hw_device, credentials)] *)
Definition new (net_params : network_parameters) (hw_device credentials : json) : result t :=
  credentials ← get_credentials_json credentials;
  device ← get_device_json hw_device credentials;
  let s := {| m_is_main_net := is_main_net net_params; m_is_liquid := is_liquid net_params;
              m_btc_version := btc_version net_params; m_credentials := credentials;
              m_device := device; m_master_key := None; m_master_blinding_key := None;
              m_cached_bip32_xpubs := ∅ |} in
  check_liquid_support s;;
  init_master_keys s.

Definition get_device (s : t) : json := m_device s.

(** [signer::get_credentials()] *)
Definition get_credentials (s : t) : result json :=
  let credentials := m_credentials s in
  if m_is_liquid s then
    match m_master_blinding_key s with
    | Some key =>
        json_ops.set credentials "master_blinding_key"
          (JStr (b2h (drop (length key - HMAC_SHA256_LEN) key)))
    | None => Ok credentials
    end
  else Ok credentials.

(** [signer::is_compatible_with(other)] *)
Definition is_compatible_with (s other : t) : result bool :=
  if bool_decide (get_device s ≠ get_device other) then Ok false
  else
    my_credentials ← get_credentials s;
    my_credentials ← json_ops.erase my_credentials "master_blinding_key";
    other_credentials ← get_credentials other;
    other_credentials ← json_ops.erase other_credentials "master_blinding_key";
    Ok (bool_decide (my_credentials = other_credentials)).

(** The search of [get_bip32_xpub] and [has_bip32_xpub] for the cached xpub
    or a parent it can be derived from: the [for (;;)] loop, with its
    [parent_path] and [child_path].  The loop pops one element per round, so
    [length parent_path] rounds of fuel are enough. *)
Inductive search :=
  | found (cached : string) (parent_path child_path : list Z)
  | not_found (parent_path child_path : list Z).

Fixpoint find_cached (fuel : nat) (cache : gmap (list Z) string)
    (parent_path child_path : list Z) : search :=
  match cache !! parent_path with
  | Some cached => found cached parent_path child_path
  | None =>
      match last parent_path, fuel with
      | Some back, S fuel =>
          if is_hardened back then not_found parent_path child_path
          else find_cached fuel cache (removelast parent_path) (back :: child_path)
      | _, _ => not_found parent_path child_path
      end
  end.

(** The xpub string of a key: what [cache_ext_key] stores for it. *)
Definition xpub_of (hdkey : ext_key) : string :=
  base58check_from_bytes (bip32_key_serialize hdkey BIP32_FLAG_KEY_PUBLIC).

(** [signer::cache_bip32_xpub(path, bip32_xpub)]: [emplace], then the
    assertion that a value already present matches. *)
Definition cache_bip32_xpub (path : list Z) (bip32_xpub : string) (s : t) : result (bool * t) :=
  match m_cached_bip32_xpubs s !! path with
  | None => Ok (true, with_cached_bip32_xpubs s (<[ path := bip32_xpub ]> (m_cached_bip32_xpubs s)))
  | Some present =>
      GDK_RUNTIME_ASSERT (bool_decide (present = bip32_xpub));;
      Ok (false, s)
  end.

(** [signer::cache_ext_key(path, hdkey)] *)
Definition cache_ext_key (path : list Z) (hdkey : option ext_key) (s : t) : result (string * t) :=
  hdkey ← assert_some hdkey;
  let key_data := bip32_key_serialize hdkey BIP32_FLAG_KEY_PUBLIC in
  let xpub := base58check_from_bytes key_data in
  '(_, s) ← cache_bip32_xpub path xpub s;
  Ok (xpub, s).

(** [signer::get_bip32_xpub(path)] *)
Definition get_bip32_xpub (path : list Z) (s : t) : result (string * t) :=
  match find_cached (length path) (m_cached_bip32_xpubs s) path [] with
  | found cached _ [] => Ok (cached, s)
  | r =>
      '(parent_key, parent_path, child_path) ←
        match r with
        | found cached parent_path child_path =>
            parent_key ← bip32_public_key_from_bip32_xpub cached;
            Ok (Some parent_key, parent_path, child_path)
        | not_found parent_path child_path => Ok (None, parent_path, child_path)
        end;
      if bool_decide (path = []) then cache_ext_key [] (m_master_key s) s
      else
        '(parent_key, s) ←
          (if bool_decide (parent_path ≠ []) && bool_decide (parent_key = None :> option ext_key)
           then
             master_key ← assert_some (m_master_key s);
             parent_key ← derive master_key parent_path BIP32_FLAG_KEY_PUBLIC;
             '(_, s) ← cache_ext_key parent_path (Some parent_key) s;
             Ok (Some parent_key, s)
           else Ok (parent_key, s));
        let root_key := if parent_key is Some _ then parent_key else m_master_key s in
        root_key ← assert_some root_key;
        if bool_decide (child_path = []) then
          let key_data := bip32_key_serialize root_key BIP32_FLAG_KEY_PUBLIC in
          Ok (base58check_from_bytes key_data, s)
        else
          child_key ← derive root_key child_path BIP32_FLAG_KEY_PUBLIC;
          cache_ext_key path (Some child_key) s
  end.

(** [signer::has_bip32_xpub(path)] *)
Definition has_bip32_xpub (path : list Z) (s : t) : bool :=
  if m_master_key s is Some _ then true
  else
    match find_cached (length path) (m_cached_bip32_xpubs s) path [] with
    | found _ _ _ => true
    | not_found _ _ => false
    end.

Definition get_master_bip32_xpub (s : t) : result (string * t) := get_bip32_xpub [] s.
Definition has_master_bip32_xpub (s : t) : bool := has_bip32_xpub [] s.

(** [std::copy(src.begin(), src.end(), dst.begin() + offset)] *)
Definition copy_at (dst : list byte) (offset : nat) (src : list byte) : list byte :=
  take offset dst ++ src ++ drop (offset + length src) dst.

(** [signer::set_master_blinding_key(blinding_key_hex)] *)
Definition set_master_blinding_key (blinding_key_hex : string) (s : t) : result t :=
  if bool_decide (blinding_key_hex ≠ "") then
    key_bytes ← h2b blinding_key_hex;
    let key_size := length key_bytes in
    GDK_RUNTIME_ASSERT ((key_size =? SHA512_LEN)%nat || (key_size =? SHA512_LEN / 2)%nat);;
    let key := replicate SHA512_LEN x00 in
    let key := copy_at key (SHA512_LEN - key_size) key_bytes in
    Ok (with_master_blinding_key s (Some key))
  else Ok s.

Definition has_master_blinding_key (s : t) : bool :=
  bool_decide (is_Some (m_master_blinding_key s)).

Definition get_master_blinding_key (s : t) : result (list byte) :=
  assert_some (m_master_blinding_key s).

(** [signer::use_ae_protocol()] *)
Definition use_ae_protocol (s : t) : result bool :=
  (λ level, negb (level =? ae_protocol_support_level.none)) <$> get_ae_protocol_support s.

(** [signer::supports_low_r()]: "we always use AE if the HW supports it". *)
Definition supports_low_r (s : t) : result bool :=
  ae ← use_ae_protocol s;
  if ae : bool then Ok false else j_boolref (m_device s) "supports_low_r".

Definition supports_arbitrary_scripts (s : t) : result bool :=
  j_boolref (m_device s) "supports_arbitrary_scripts".
Definition supports_host_unblinding (s : t) : result bool :=
  j_boolref (m_device s) "supports_host_unblinding".
Definition supports_external_blinding (s : t) : result bool :=
  j_boolref (m_device s) "supports_external_blinding".

(** [signer::is_remote()], [is_watch_only()] and [is_hardware()] *)
Definition is_remote (s : t) : result bool :=
  (λ ty, bool_decide (ty = "green-backend")) <$> j_strref (m_device s) "device_type".
Definition is_watch_only (s : t) : result bool :=
  (λ ty, bool_decide (ty = "watch-only")) <$> j_strref (m_device s) "device_type".
Definition is_hardware (s : t) : result bool :=
  (λ ty, bool_decide (ty = "hardware")) <$> j_strref (m_device s) "device_type".

(** [signer::is_descriptor_watch_only()] *)
Definition is_descriptor_watch_only (s : t) : bool :=
  json_ops.contains (m_credentials s) "core_descriptors"
  || json_ops.contains (m_credentials s) "slip132_extended_pubkeys".

(** [signer::get_mnemonic(password)] *)
Definition get_mnemonic `{MnemonicEncryption} (password : string) (s : t) : result string :=
  hardware ← is_hardware s;
  withheld ← (if hardware : bool then Ok true
              else
                watch_only ← is_watch_only s;
                if watch_only : bool then Ok true else is_remote s);
  if withheld : bool then Ok ""
  else
    mnemonic ← j_str (m_credentials s) "mnemonic";
    match mnemonic with
    | Some mnemonic => encrypt_mnemonic mnemonic password
    | None => (λ seed, seed +:+ "X") <$> j_strref (m_credentials s) "seed"
    end.

End definitions.
End signer.

(** ** ga_psbt.cpp *)

(** *** The libwally structures the wrapper reads *)

Module wally_tx_output.
Record t := {
  satoshi : Z;
  script : list byte;
}.
End wally_tx_output.

Module wally_tx_input.
Record t := {
  txhash : list byte;
  index : Z;
  sequence : Z;
  script : option (list byte);
  witness : option (list (list byte));
}.
End wally_tx_input.

(** Modelled from the spec: ga_tx.hpp is missing.  [class Tx] is the raw
    transaction, over the [wally_tx] it owns. *)
Module Tx.
Record t := {
  version : Z;
  locktime : Z;
  inputs : list wally_tx_input.t;
  outputs : list wally_tx_output.t;
}.
Definition with_inputs (tx : t) (ins : list wally_tx_input.t) : t :=
  {| version := version tx; locktime := locktime tx; inputs := ins; outputs := outputs tx |}.
End Tx.

Module wally_psbt_input.
Record t := {
  index : Z;
  sighash : Z;
  has_amount : bool;
  amount : Z;
  utxo : option Tx.t;
  witness_utxo : option wally_tx_output.t;
  psbt_fields : gmap Z (list byte);
  pset_fields : gmap Z (list byte);
}.
Definition with_utxo (input : t) (tx : Tx.t) : t :=
  {| index := index input; sighash := sighash input; has_amount := has_amount input;
     amount := amount input; utxo := Some tx; witness_utxo := witness_utxo input;
     psbt_fields := psbt_fields input; pset_fields := pset_fields input |}.
End wally_psbt_input.

Module wally_psbt_output.
Record t := {
  has_amount : bool;
  amount : Z;
  script : option (list byte);
  psbt_fields : gmap Z (list byte);
  pset_fields : gmap Z (list byte);
}.
End wally_psbt_output.

Module wally_psbt.
Record t := {
  version : Z;
  is_elements : bool;
  inputs : list wally_psbt_input.t;
  outputs : list wally_psbt_output.t;
}.
Definition with_inputs (p : t) (ins : list wally_psbt_input.t) : t :=
  {| version := version p; is_elements := is_elements p; inputs := ins; outputs := outputs p |}.
End wally_psbt.

Definition WALLY_PSBT_VERSION_2 : Z := 2.
Definition WALLY_PSBT_SERIALIZE_FLAG_REDUNDANT : Z := 1.
Definition WALLY_PSBT_EXTRACT_OPT_FINAL : Z := 2.
Definition WALLY_SIGHASH_ALL : Z := 1.
Definition WALLY_PSET_BLINDED_NONE : Z := 0.
Definition WALLY_PSET_BLINDED_FULL : Z := 4.

(** The libwally PSBT and transaction calls of the wrapper; [None] is a
    return code other than [WALLY_OK].  The two setters of a transaction
    input take what the caller passes: a script that may be empty, and a
    witness stack that may be null. *)
Class WallyPsbt := {
  wally_psbt_from_base64 : string → Z → option wally_psbt.t;
  wally_psbt_to_base64 : wally_psbt.t → Z → option string;
  wally_psbt_set_version : wally_psbt.t → Z → Z → option wally_psbt.t;
  wally_psbt_clone_alloc : wally_psbt.t → Z → option wally_psbt.t;
  wally_psbt_extract : wally_psbt.t → Z → option Tx.t;
  wally_psbt_get_output_blinding_status : wally_psbt.t → nat → Z → option Z;
  wally_tx_input_set_script : wally_tx_input.t → list byte → option wally_tx_input.t;
  wally_tx_input_set_witness :
    wally_tx_input.t → option (list (list byte)) → option wally_tx_input.t;
}.

(** [wally_psbt_get_input_best_utxo]: the witness UTXO if there is one, else
    the spent output of the non-witness UTXO. *)
Definition wally_psbt_get_input_best_utxo (p : wally_psbt.t) (i : nat)
  : option (option wally_tx_output.t) :=
  input ← wally_psbt.inputs p !! i;
  Some (match wally_psbt_input.witness_utxo input with
        | Some o => Some o
        | None =>
            tx ← wally_psbt_input.utxo input;
            Tx.outputs tx !! Z.to_nat (wally_psbt_input.index input)
        end).

(** [wally_psbt_set_input_utxo] *)
Definition wally_psbt_set_input_utxo (p : wally_psbt.t) (i : nat) (tx : Tx.t)
  : option wally_psbt.t :=
  input ← wally_psbt.inputs p !! i;
  Some (wally_psbt.with_inputs p (<[ i := wally_psbt_input.with_utxo input tx ]> (wally_psbt.inputs p))).

(** *** The session, as the wrapper uses it

    [session_impl] is an interface of virtual methods; with it come the
    free functions of ga_tx and transaction_utils that take the session, and
    the methods of [Tx] that render a transaction ([input_to_json], [to_hex],
    [get_txid]).  [get_scriptsig_and_witness] is called with empty
    signatures and returns a script and an owning pointer to a witness
    stack, which may be null. *)
Class Session := {
  get_network_parameters : network_parameters;
  get_raw_transaction_details : string → result Tx.t;
  get_scriptpubkey_data : list byte → result json;
  utxo_add_paths : json → result json;
  get_scriptsig_and_witness : json → result (list byte * option (list (list byte)));
  unblind_output : Tx.t → nat → result json;
  get_address_from_scriptpubkey : list byte → result string;
  get_address_from_utxo : json → result string;
  confidentialize_address : json → string → result json;
  update_tx_info : Tx.t → json → result json;
  is_wallet_utxo : json → bool;
  input_to_json : Tx.t → nat → result json;
  to_hex : Tx.t → string;
  get_txid : Tx.t → list byte;
}.

(** A left fold whose step can throw. *)
Fixpoint foldlM {A B} (f : A → B → result A) (a : A) (l : list B) : result A :=
  match l with
  | [] => Ok a
  | b :: l' => a' ← f a b; foldlM f a' l'
  end.

(** [basic_json::update(j)]: entries of [j] replace those of [this]. *)
Definition json_update (this j : json) : result json :=
  match this, j with
  | JObj m, JObj n => Ok (JObj (n ∪ m))
  | JNull, JObj n => Ok (JObj n)
  | _, _ => Throw json_error
  end.

(** The entries of an object in [std::map] order, by key. *)
Definition key_le (a b : string * json) : Prop := String.leb a.1 b.1 = true.
#[export] Instance key_le_dec (a b : string * json) : Decision (key_le a b).
Proof. unfold key_le. apply _. Defined.

Definition sorted_values (m : gmap string json) : list json :=
  snd <$> merge_sort key_le (map_to_list m).

(** What a range-for over a JSON value visits. *)
Definition json_elements (j : json) : list json :=
  match j with
  | JNull => []
  | JArr l => l
  | JObj m => sorted_values m
  | primitive => [primitive]
  end.

Module Psbt.

Definition in_redeem_script : Z := 0x04.
Definition in_witness_script : Z := 0x05.
Definition in_value_proof : Z := 0x12.
Definition in_explicit_asset : Z := 0x13.
Definition in_asset_proof : Z := 0x14.
Definition out_value_commitment : Z := 0x01.
Definition out_asset : Z := 0x02.
Definition out_asset_commitment : Z := 0x03.
Definition out_value_rangeproof : Z := 0x04.
Definition out_asset_surjection_proof : Z := 0x05.
Definition out_blinding_pubkey : Z := 0x06.
Definition out_ecdh_pubkey : Z := 0x07.
Definition out_blind_value_proof : Z := 0x09.
Definition out_blind_asset_proof : Z := 0x0a.

Definition get_field (m : gmap Z (list byte)) (k : Z) : option (list byte) := m !! k.

(** [set_pset_field(src, dst, key, k, do_reverse)], given [src.pset_fields]. *)
Definition set_pset_field (pset_fields : gmap Z (list byte)) (dst : json) (key : string) (k : Z)
    (do_reverse : bool) : result json :=
  match get_field pset_fields k with
  | None => Throw (user_error (key +:+ " not found"))
  | Some val => json_ops.set dst key (JStr ((if do_reverse then b2h_rev else b2h) val))
  end.

(** The members of [class Psbt]. *)
Record t := {
  m_original_version : Z;
  m_is_liquid : bool;
  m_psbt : wally_psbt.t;
}.

Definition with_psbt (psbt : t) (p : wally_psbt.t) : t :=
  {| m_original_version := m_original_version psbt; m_is_liquid := m_is_liquid psbt;
     m_psbt := p |}.

Section definitions.
Context `{WallyPsbt} `{Session}.

(** [Psbt::Psbt(psbt_base64, is_liquid)] *)
Definition from_base64 (psbt_base64 : string) (is_liquid : bool) : result t :=
  let b64_flags := 0 in
  p ← GDK_VERIFY (wally_psbt_from_base64 psbt_base64 b64_flags);
  let val := wally_psbt.is_elements p in
  if bool_decide (is_liquid ≠ val) then Throw (user_error "PSBT/PSET mismatch")
  else
    let m_original_version := wrap32 (wally_psbt.version p) in
    let ver_flags := 0 in
    p ← GDK_VERIFY (wally_psbt_set_version p ver_flags WALLY_PSBT_VERSION_2);
    Ok {| m_original_version := m_original_version; m_is_liquid := is_liquid; m_psbt := p |}.

(** [Psbt::extract()] *)
Definition extract (psbt : t) : result Tx.t :=
  GDK_VERIFY (wally_psbt_extract (m_psbt psbt) WALLY_PSBT_EXTRACT_OPT_FINAL).

(** [Psbt::to_base64(include_redundant)] *)
Definition to_base64 (psbt : t) (include_redundant : bool) : result string :=
  p ← (if bool_decide (m_original_version psbt ≠ WALLY_PSBT_VERSION_2) then
         let clone_flags := 0 in
         let ver_flags := 0 in
         p ← GDK_VERIFY (wally_psbt_clone_alloc (m_psbt psbt) clone_flags);
         GDK_VERIFY (wally_psbt_set_version p ver_flags (m_original_version psbt))
       else Ok (m_psbt psbt));
  let b64_flags := if include_redundant then WALLY_PSBT_SERIALIZE_FLAG_REDUNDANT else 0 in
  GDK_VERIFY (wally_psbt_to_base64 p b64_flags).

Definition get_num_inputs (psbt : t) : nat := length (wally_psbt.inputs (m_psbt psbt)).
Definition get_num_outputs (psbt : t) : nat := length (wally_psbt.outputs (m_psbt psbt)).

(** [Psbt::get_input(index)] and [Psbt::get_output(index)], with their
    bounds assertion. *)
Definition get_input (psbt : t) (index : nat) : result wally_psbt_input.t :=
  assert_some (wally_psbt.inputs (m_psbt psbt) !! index).
Definition get_output (psbt : t) (index : nat) : result wally_psbt_output.t :=
  assert_some (wally_psbt.outputs (m_psbt psbt) !! index).

(** [Tx::get_input(index)] *)
Definition tx_get_input (tx : Tx.t) (index : nat) : result wally_tx_input.t :=
  assert_some (Tx.inputs tx !! index).

(** [take_matching_utxo(utxos, txhash_hex, vout, dst)]: the UTXO to move into
    [dst], if one matches.  [utxos] is a reference to const, so the
    [std::move] copies and [utxos] keeps the element. *)
Fixpoint take_matching_utxo_loop (us : list json) (txhash_hex : string) (vout : Z)
  : result (option json) :=
  match us with
  | [] => Ok None
  | u :: us' =>
      if json_ops.empty u then take_matching_utxo_loop us' txhash_hex vout
      else
        pt_idx ← j_uint32ref u "pt_idx";
        if pt_idx =? vout then
          txhash ← j_strref u "txhash";
          if bool_decide (txhash = txhash_hex) then Ok (Some u)
          else take_matching_utxo_loop us' txhash_hex vout
        else take_matching_utxo_loop us' txhash_hex vout
  end.

Definition take_matching_utxo (utxos : json) (txhash_hex : string) (vout : Z)
  : result (option json) :=
  take_matching_utxo_loop (json_elements utxos) txhash_hex vout.

(** The search of [inputs_to_json] over the standard format
    [{ asset: [utxo, ...] }]. *)
Fixpoint take_matching_utxo_items (items : list json) (txhash_hex : string) (vout : Z)
  : result (option json) :=
  match items with
  | [] => Ok None
  | value :: items' =>
      found ← take_matching_utxo value txhash_hex vout;
      match found with
      | Some u => Ok (Some u)
      | None => take_matching_utxo_items items' txhash_hex vout
      end
  end.

Definition find_wallet_utxo (utxos : json) (txhash_hex : string) (vout : Z)
  : result (option json) :=
  match utxos with
  | JArr _ => take_matching_utxo utxos txhash_hex vout
  | _ => take_matching_utxo_items (json_elements utxos) txhash_hex vout
  end.

(** [utxo.erase(key)] for each of the keys. *)
Definition erase_keys (j : json) (keys : list string) : result json :=
  foldlM json_ops.erase j keys.

(** The loop state of [inputs_to_json]. *)
Record inputs_state := {
  st_psbt : t;
  st_tx : Tx.t;
  st_inputs : list json;
  st_wallet_assets : gset string;
}.

(** The wallet branch of the loop body, on the matched [utxo]. *)
Definition wallet_input_to_json (psbt : t) (tx : Tx.t) (i : nat)
    (psbt_input : wally_psbt_input.t) (txin : wally_tx_input.t) (utxo : json)
  : result (json * wally_tx_input.t * string) :=
  asset ← j_assetref (m_is_liquid psbt) utxo;
  let sighash := wally_psbt_input.sighash psbt_input in
  utxo ← (if negb (sighash =? 0) && negb (sighash =? WALLY_SIGHASH_ALL)
          then json_ops.set utxo "user_sighash" (JNum sighash) else Ok utxo);
  utxo ← erase_keys utxo ["user_status"; "witness"; "script_sig"];
  utxo ← utxo_add_paths utxo;
  txin ← (if bool_decide (wally_tx_input.script txin = None)
             || bool_decide (wally_tx_input.witness txin = None)
          then
            '(scriptsig, witness) ← get_scriptsig_and_witness utxo;
            txin ← (if bool_decide (wally_tx_input.script txin = None)
                    then GDK_VERIFY (wally_tx_input_set_script txin scriptsig)
                    else Ok txin);
            if bool_decide (wally_tx_input.witness txin = None)
            then GDK_VERIFY (wally_tx_input_set_witness txin witness)
            else Ok txin
          else Ok txin);
  Ok (utxo, txin, asset).

(** The non-wallet branch of the loop body. *)
Definition non_wallet_input_to_json (psbt : t) (psbt_input : wally_psbt_input.t)
    (txin_utxo : wally_tx_output.t) (utxo : json) : result json :=
  utxo ← json_ops.set utxo "skip_signing" (JBool true);
  utxo ← (if negb (m_is_liquid psbt) then
            json_ops.set utxo "satoshi" (JNum (wally_tx_output.satoshi txin_utxo))
          else if wally_psbt_input.has_amount psbt_input then
            let fields := wally_psbt_input.pset_fields psbt_input in
            utxo ← json_ops.set utxo "satoshi" (JNum (wally_psbt_input.amount psbt_input));
            utxo ← set_pset_field fields utxo "asset_id" in_explicit_asset true;
            utxo ← set_pset_field fields utxo "value_blind_proof" in_value_proof false;
            set_pset_field fields utxo "asset_blind_proof" in_asset_proof false
          else json_ops.set utxo "error" (JStr "failed to unblind utxo"));
  match get_field (wally_psbt_input.psbt_fields psbt_input) in_redeem_script with
  | Some redeem_script => json_ops.set utxo "redeem_script" (JStr (b2h redeem_script))
  | None => Ok utxo
  end.

(** The loop body's lookup of the UTXO that input [i] spends: the PSBT's
    own, else the one fetched by [txhash_hex] and attached to the PSBT. *)
Definition ensure_input_utxo (p : wally_psbt.t) (i : nat) (txhash_hex : string)
  : result (wally_psbt.t * wally_tx_output.t) :=
  txin_utxo ← GDK_VERIFY (wally_psbt_get_input_best_utxo p i);
  '(p, txin_utxo) ←
    match txin_utxo with
    | Some o => Ok (p, Some o)
    | None =>
        utxo_tx ← get_raw_transaction_details txhash_hex;
        p ← GDK_VERIFY (wally_psbt_set_input_utxo p i utxo_tx);
        txin_utxo ← GDK_VERIFY (wally_psbt_get_input_best_utxo p i);
        Ok (p, txin_utxo)
    end;
  txin_utxo ← assert_some txin_utxo;
  Ok (p, txin_utxo).

(** One round of the loop of [inputs_to_json]. *)
Definition inputs_to_json_step (utxos : json) (st : inputs_state) (i : nat)
  : result inputs_state :=
  let psbt := st_psbt st in
  let tx := st_tx st in
  psbt_input ← get_input psbt i;
  txin ← tx_get_input tx i;
  utxo ← input_to_json tx i;
  txhash_hex ← j_strref utxo "txhash";
  let vout := wally_psbt_input.index psbt_input in
  matched ← find_wallet_utxo utxos txhash_hex vout;
  let belongs_to_wallet := bool_decide (is_Some matched) in
  let utxo := default utxo matched in
  '(p, txin_utxo) ← ensure_input_utxo (m_psbt psbt) i txhash_hex;
  let psbt := with_psbt psbt p in
  if belongs_to_wallet then
    '(utxo, txin, asset) ← wallet_input_to_json psbt tx i psbt_input txin utxo;
    Ok {| st_psbt := psbt;
          st_tx := Tx.with_inputs tx (<[ i := txin ]> (Tx.inputs tx));
          st_inputs := st_inputs st ++ [utxo];
          st_wallet_assets := {[ asset ]} ∪ st_wallet_assets st |}
  else
    utxo ← non_wallet_input_to_json psbt psbt_input txin_utxo utxo;
    Ok {| st_psbt := psbt; st_tx := tx; st_inputs := st_inputs st ++ [utxo];
          st_wallet_assets := st_wallet_assets st |}.

(** [Psbt::inputs_to_json(session, tx, utxos)] *)
Definition inputs_to_json (psbt : t) (tx : Tx.t) (utxos : json) : result inputs_state :=
  foldlM (inputs_to_json_step utxos)
    {| st_psbt := psbt; st_tx := tx; st_inputs := []; st_wallet_assets := ∅ |}
    (seq 0 (get_num_inputs psbt)).

(** What one round of the loop of [outputs_to_json] leaves for change
    detection: nothing when the round ended in [continue], else whether the
    output is the wallet's, and its asset. *)
Definition change_info : Type := option (bool * string).

(** The Liquid fields of a fully blinded output. *)
Definition blinded_output_fields (fields : gmap Z (list byte)) (jsonout : json) : result json :=
  jsonout ← set_pset_field fields jsonout "commitment" out_value_commitment false;
  jsonout ← set_pset_field fields jsonout "asset_tag" out_asset_commitment false;
  jsonout ← set_pset_field fields jsonout "range_proof" out_value_rangeproof false;
  jsonout ← set_pset_field fields jsonout "surj_proof" out_asset_surjection_proof false;
  jsonout ← set_pset_field fields jsonout "blinding_key" out_blinding_pubkey false;
  jsonout ← set_pset_field fields jsonout "eph_public_key" out_ecdh_pubkey false;
  jsonout ← set_pset_field fields jsonout "value_blind_proof" out_blind_value_proof false;
  set_pset_field fields jsonout "asset_blind_proof" out_blind_asset_proof false.

(** The loop body from the classification of the output to the end. *)
Definition classify_output (psbt : t) (tx : Tx.t) (i : nat) (script : list byte)
    (jsonout : json) : result (json * change_info) :=
  let is_electrum := is_electrum get_network_parameters in
  output_data ← get_scriptpubkey_data script;
  let is_wallet_output := negb (json_ops.empty output_data) in
  enriched ←
    (if negb is_wallet_output then
       address ← get_address_from_scriptpubkey script;
       jsonout ← json_ops.set jsonout "address" (JStr address);
       Ok (Some jsonout)
     else
       merged ←
         (if m_is_liquid psbt then
            unblinded ← unblind_output tx i;
            if json_ops.contains unblinded "error" then Ok None
            else Some <$> json_update output_data unblinded
          else Ok (Some output_data));
       match merged with
       | None => Ok None
       | Some output_data =>
           jsonout ← json_update jsonout output_data;
           address ← get_address_from_utxo jsonout;
           jsonout ← json_ops.set jsonout "address" (JStr address);
           jsonout ← utxo_add_paths jsonout;
           if is_electrum then
             match jsonout with
             | JObj m => Some <$> erase_keys (JObj (j_rename m "is_internal" "is_change"))
                                   ["branch"; "subtype"]
             | _ => Throw json_error
             end
           else Ok (Some jsonout)
       end);
  match enriched with
  | None => Ok (jsonout, None)
  | Some jsonout =>
      jsonout ←
        (if m_is_liquid psbt then
           jsonout ← json_ops.set jsonout "is_confidential" (JBool false);
           blinding_key ← j_str jsonout "blinding_key";
           jsonout ← match blinding_key with
                     | Some blinding_key => confidentialize_address jsonout blinding_key
                     | None => Ok jsonout
                     end;
           if negb is_wallet_output
           then erase_keys jsonout ["is_confidential"; "unconfidential_address"]
           else Ok jsonout
         else Ok jsonout);
      asset_id ← j_assetref (m_is_liquid psbt) jsonout;
      Ok (jsonout, Some (is_wallet_output, asset_id))
  end.

(** The loop body of [outputs_to_json] for output [i]. *)
Definition output_to_json (psbt : t) (tx : Tx.t) (i : nat) : result (json * change_info) :=
  txout ← get_output psbt i;
  let jsonout := JNull in
  if negb (m_is_liquid psbt) then
    GDK_RUNTIME_ASSERT (wally_psbt_output.has_amount txout);;
    script ← assert_some (wally_psbt_output.script txout);
    GDK_RUNTIME_ASSERT (negb (bool_decide (script = [])));;
    jsonout ← json_ops.set jsonout "satoshi" (JNum (wally_psbt_output.amount txout));
    jsonout ← json_ops.set jsonout "scriptpubkey" (JStr (b2h script));
    classify_output psbt tx i script jsonout
  else
    let fields := wally_psbt_output.pset_fields txout in
    jsonout ← set_pset_field fields jsonout "asset_id" out_asset true;
    GDK_RUNTIME_ASSERT (wally_psbt_output.has_amount txout);;
    jsonout ← json_ops.set jsonout "satoshi" (JNum (wally_psbt_output.amount txout));
    blinding_status ← GDK_VERIFY (wally_psbt_get_output_blinding_status (m_psbt psbt) i 0);
    if blinding_status =? WALLY_PSET_BLINDED_NONE then
      GDK_RUNTIME_ASSERT (bool_decide (wally_psbt_output.script txout = None));;
      jsonout ← json_ops.set jsonout "scriptpubkey" (JStr "");
      Ok (jsonout, None)
    else
      GDK_RUNTIME_ASSERT (blinding_status =? WALLY_PSET_BLINDED_FULL);;
      jsonout ← blinded_output_fields fields jsonout;
      script ← assert_some (wally_psbt_output.script txout);
      jsonout ← json_ops.set jsonout "scriptpubkey" (JStr (b2h script));
      classify_output psbt tx i script jsonout.

(** The loop state of [outputs_to_json]. *)
Record outputs_state := {
  st_outputs : list json;
  st_spent_assets : gset string;
  st_asset_outputs : gmap string (list nat);
}.

(** "Multisig: Collect info to compute change below" *)
Definition collect_change (wallet_assets : gset string) (i : nat) (info : change_info)
    (st : outputs_state) : outputs_state :=
  match info with
  | Some (is_wallet_output, asset_id) =>
      if negb (is_electrum get_network_parameters) && bool_decide (asset_id ∈ wallet_assets) then
        if is_wallet_output then
          {| st_outputs := st_outputs st; st_spent_assets := st_spent_assets st;
             st_asset_outputs :=
               <[ asset_id := default [] (st_asset_outputs st !! asset_id) ++ [i] ]>
                 (st_asset_outputs st) |}
        else
          {| st_outputs := st_outputs st;
             st_spent_assets := {[ asset_id ]} ∪ st_spent_assets st;
             st_asset_outputs := st_asset_outputs st |}
      else st
  | None => st
  end.

Definition outputs_to_json_step (psbt : t) (tx : Tx.t) (wallet_assets : gset string)
    (st : outputs_state) (i : nat) : result outputs_state :=
  '(jsonout, info) ← output_to_json psbt tx i;
  let st := collect_change wallet_assets i info st in
  Ok {| st_outputs := st_outputs st ++ [jsonout]; st_spent_assets := st_spent_assets st;
        st_asset_outputs := st_asset_outputs st |}.

(** [outputs[index]["is_change"] = is_change] *)
Definition set_is_change (outputs : list json) (index : nat) (is_change : bool)
  : result (list json) :=
  jsonout ← assert_some (outputs !! index);
  jsonout ← json_ops.set jsonout "is_change" (JBool is_change);
  Ok (<[ index := jsonout ]> outputs).

(** "Multisig change detection (heuristic)": one round per entry of
    [asset_outputs]. *)
Definition mark_change (wallet_assets spent_assets : gset string) (outputs : list json)
    (o : string * list nat) : result (list json) :=
  if bool_decide (o.1 ∈ wallet_assets) then
    let is_spent_externally := bool_decide (o.1 ∈ spent_assets) in
    let num_wallet_outputs := length o.2 in
    let is_change := is_spent_externally || (1 <? num_wallet_outputs)%nat in
    front ← assert_some (head o.2);
    set_is_change outputs front is_change
  else Ok outputs.

(** [Psbt::outputs_to_json(session, tx, wallet_assets)].  The second loop
    visits the entries of [asset_outputs]; each round writes to the front
    output of its own entry. *)
Definition outputs_to_json (psbt : t) (tx : Tx.t) (wallet_assets : gset string)
  : result (list json) :=
  st ← foldlM (outputs_to_json_step psbt tx wallet_assets)
         {| st_outputs := []; st_spent_assets := ∅; st_asset_outputs := ∅ |}
         (seq 0 (get_num_outputs psbt));
  if negb (is_electrum get_network_parameters) then
    foldlM (mark_change wallet_assets (st_spent_assets st)) (st_outputs st)
      (map_to_list (st_asset_outputs st))
  else Ok (st_outputs st).

(** The first loop of [get_details]: the sum of the inputs, the last input
    error, and whether an input in error is to be signed. *)
Record fee_state := {
  sum : Z;
  explicit_fee : Z;
  use_error : bool;
  error : string;
}.

Definition tally_input (is_liquid : bool) (policy_asset : string) (st : fee_state) (input : json)
  : result fee_state :=
  txin_error ← j_str_or_empty input "error";
  if negb (bool_decide (txin_error = "")) then
    skip_signing ← j_bool_or_false input "skip_signing";
    Ok {| sum := sum st; explicit_fee := explicit_fee st;
          use_error := if negb skip_signing then true else use_error st;
          error := txin_error |}
  else
    counted ← (if negb is_liquid then Ok true
               else (λ a, bool_decide (a = policy_asset)) <$> j_assetref is_liquid input);
    if counted : bool then
      satoshi ← j_amountref input;
      Ok {| sum := amount_add (sum st) satoshi; explicit_fee := explicit_fee st;
            use_error := use_error st; error := error st |}
    else Ok st.

(** The second loop of [get_details]. *)
Definition tally_output (is_liquid : bool) (policy_asset : string) (st : fee_state) (txout : json)
  : result fee_state :=
  counted ← (if negb is_liquid then Ok true
             else (λ a, bool_decide (a = policy_asset)) <$> j_assetref is_liquid txout);
  if counted : bool then
    is_fee ← (if is_liquid then j_str_is_empty txout "scriptpubkey" else Ok false);
    satoshi ← j_amountref txout;
    if is_fee : bool then
      Ok {| sum := sum st; explicit_fee := amount_add (explicit_fee st) satoshi;
            use_error := use_error st; error := error st |}
    else
      Ok {| sum := amount_sub (sum st) satoshi; explicit_fee := explicit_fee st;
            use_error := use_error st; error := error st |}
  else Ok st.

(** Both loops. *)
Definition tally (is_liquid : bool) (policy_asset : string) (inputs outputs : list json)
  : result fee_state :=
  st ← foldlM (tally_input is_liquid policy_asset)
         {| sum := 0; explicit_fee := 0; use_error := false; error := "" |} inputs;
  foldlM (tally_output is_liquid policy_asset) st outputs.

(** [result.emplace(key, value)]: no change when the key is there. *)
Definition json_emplace (j : json) (key : string) (v : json) : result json :=
  match j with
  | JObj m => Ok (if m !! key is Some _ then j else JObj (<[ key := v ]> m))
  | JNull => Ok (JObj {[ key := v ]})
  | _ => Throw json_error
  end.

(** [get_details] from the assertion on: the result JSON. *)
Definition details_json (is_liquid : bool) (tx : Tx.t) (inputs outputs : list json)
    (st : fee_state) : result json :=
  let result := json_object [("transaction", JStr (to_hex tx));
                               ("transaction_inputs", JArr inputs);
                               ("transaction_outputs", JArr outputs)] in
  result ← json_ops.set result "fee" (JNum (if is_liquid then explicit_fee st else sum st));
  result ← json_ops.set result "network_fee" (JNum 0);
  result ← update_tx_info tx result;
  result ← json_ops.set result "txhash" (JStr (b2h_rev (get_txid tx)));
  result ← (if use_error st then json_emplace result "error" (JStr (error st)) else Ok result);
  fee_rate ← j_uint32ref result "calculated_fee_rate";
  result ← json_ops.set result "fee_rate" (JNum fee_rate);
  result ← (if is_liquid then json_ops.set result "is_blinded" (JBool true) else Ok result);
  json_ops.set result "utxo_strategy" (JStr "manual").

(** [Psbt::get_details(session, details)]; the PSBT comes back with the
    UTXOs that [inputs_to_json] attached. *)
Definition get_details (psbt : t) (details : json) : result (json * t) :=
  let policy_asset := get_policy_asset get_network_parameters in
  tx ← extract psbt;
  utxos ← json_ops.at_ details "utxos";
  ins ← inputs_to_json psbt tx utxos;
  let tx := st_tx ins in
  outputs ← outputs_to_json (st_psbt ins) tx (st_wallet_assets ins);
  st ← tally (m_is_liquid psbt) policy_asset (st_inputs ins) outputs;
  GDK_RUNTIME_ASSERT (negb (m_is_liquid psbt) || (sum st =? explicit_fee st)
                      || negb (bool_decide (error st = "")));;
  result ← details_json (m_is_liquid psbt) tx (st_inputs ins) outputs st;
  Ok (result, st_psbt ins).

(** [Psbt::to_json(session, utxos)] *)
Definition to_json (psbt : t) (utxos : json) : result (json * t) :=
  '(result, psbt) ← get_details psbt (json_object [("utxos", utxos)]);
  inputs ← j_arrayref result "transaction_inputs";
  let num_wallet_inputs := length (List.filter is_wallet_utxo inputs) in
  result ← json_ops.set result "is_partial"
             (JBool (negb (num_wallet_inputs =? length inputs)%nat));
  Ok (result, psbt).

End definitions.
End Psbt.

(** * The vocabulary of the properties *)

(** ** libwally's PSBT calls *)

(** What the wrapper relies on from libwally: setting the version a PSBT
    already has changes nothing; a decoded version-0 PSBT upgrades to
    version 2, and downgrading the upgrade gives the decoded PSBT back; a
    version change keeps the Elements flag; a clone is a copy; and a decoded
    PSBT encodes, with or without the redundant fields, to a string that
    decodes to it. *)
Class WallyPsbtLaws `{WallyPsbt} : Prop := {
  set_version_same p flags :
    wally_psbt_set_version p flags (wally_psbt.version p) = Some p;
  set_version_upgrade base64 p :
    wally_psbt_from_base64 base64 0 = Some p → wally_psbt.version p = 0 →
    is_Some (wally_psbt_set_version p 0 WALLY_PSBT_VERSION_2);
  set_version_downgrade base64 p q :
    wally_psbt_from_base64 base64 0 = Some p → wally_psbt.version p = 0 →
    wally_psbt_set_version p 0 WALLY_PSBT_VERSION_2 = Some q →
    wally_psbt_set_version q 0 0 = Some p;
  set_version_fields p q flags version :
    wally_psbt_set_version p flags version = Some q →
    wally_psbt.version q = version ∧ wally_psbt.is_elements q = wally_psbt.is_elements p;
  clone_alloc_copy p flags : wally_psbt_clone_alloc p flags = Some p;
  base64_round_trip base64 p flags :
    wally_psbt_from_base64 base64 0 = Some p →
    ∃ out, wally_psbt_to_base64 p flags = Some out ∧ wally_psbt_from_base64 out 0 = Some p;
}.

(** ** Reading the enriched JSON *)

(** The views of an enriched input or output that [get_details] takes. *)
Definition error_of (j : json) : string :=
  match json_ops.find j "error" with
  | Some (JStr e) => e
  | _ => ""
  end.

Definition skip_signing_of (j : json) : bool :=
  match json_ops.find j "skip_signing" with
  | Some (JBool b) => b
  | _ => false
  end.

Definition satoshi_of (j : json) : Z :=
  match json_ops.find j "satoshi" with
  | Some (JNum n) => wrap64 n
  | _ => 0
  end.

Definition has_asset (asset : string) (j : json) : bool :=
  bool_decide (json_ops.find j "asset_id" = Some (JStr asset)).

Definition is_fee_output (j : json) : bool :=
  match json_ops.find j "scriptpubkey" with
  | Some (JStr s) => bool_decide (s = "")
  | _ => true
  end.

Definition has_error (j : json) : Prop := error_of j ≠ "".

(** ** The fee sums of [get_details] *)

Definition Z_sum {A} (f : A → Z) (l : list A) : Z := foldr (λ x acc, f x + acc) 0 l.

(** Whether [get_details] counts an input or output: always off Liquid, and
    on Liquid when it is of the policy asset. *)
Definition counted (is_liquid : bool) (policy_asset : string) (j : json) : bool :=
  negb is_liquid || has_asset policy_asset j.

(** What an input adds to the running sum: its satoshi, when it carries no
    error and is counted. *)
Definition counted_input (is_liquid : bool) (policy_asset : string) (input : json) : Z :=
  if bool_decide (error_of input = "") && counted is_liquid policy_asset input
  then satoshi_of input else 0.

(** What an output takes from the running sum, and what it adds to the
    explicit fee: a counted Liquid output with an empty script is the fee. *)
Definition spent_output (is_liquid : bool) (policy_asset : string) (txout : json) : Z :=
  if counted is_liquid policy_asset txout && negb (is_liquid && is_fee_output txout)
  then satoshi_of txout else 0.

Definition fee_output (is_liquid : bool) (policy_asset : string) (txout : json) : Z :=
  if counted is_liquid policy_asset txout && (is_liquid && is_fee_output txout)
  then satoshi_of txout else 0.

(** ** Non-wallet inputs *)

(** The first of the three explicit-proof fields an input lacks, by the JSON
    key [inputs_to_json] would store it under. *)
Definition first_missing_field (fields : gmap Z (list byte)) : option string :=
  if fields !! Psbt.in_explicit_asset is None then Some "asset_id"
  else if fields !! Psbt.in_value_proof is None then Some "value_blind_proof"
  else if fields !! Psbt.in_asset_proof is None then Some "asset_blind_proof"
  else None.

(** ** Change detection *)

Section change_detection.
Context `{WallyPsbt} `{Session}.
Variables (psbt : Psbt.t) (tx : Tx.t).

(** What the round for output [i] leaves for change detection. *)
Definition info_at (i : nat) : Psbt.change_info :=
  match Psbt.output_to_json psbt tx i with
  | Ok (_, info) => info
  | Throw _ => None
  end.

(** The wallet outputs that reach change detection with [asset], among the
    first [n] outputs, by index. *)
Definition wallet_outputs (asset : string) (n : nat) : list nat :=
  filter (λ i, info_at i = Some (true, asset)) (seq 0 n).

(** [asset] reaches change detection on a non-wallet output among the first
    [n]. *)
Definition sent_externally (asset : string) (n : nat) : Prop :=
  ∃ i, (i < n)%nat ∧ info_at i = Some (false, asset).

(** The state of the first loop of [outputs_to_json] after [k] rounds. *)
Definition outputs_inv (wallet_assets : gset string) (k : nat) (st : Psbt.outputs_state) : Prop :=
  length (Psbt.st_outputs st) = k
  ∧ (∀ i, (i < k)%nat →
       ∃ jsonout, Psbt.output_to_json psbt tx i = Ok (jsonout, info_at i)
         ∧ Psbt.st_outputs st !! i = Some jsonout)
  ∧ (∀ asset, Psbt.st_asset_outputs st !! asset
       = if decide (asset ∈ wallet_assets ∧ wallet_outputs asset k ≠ [])
         then Some (wallet_outputs asset k) else None)
  ∧ (∀ asset, asset ∈ Psbt.st_spent_assets st
       ↔ asset ∈ wallet_assets ∧ sent_externally asset k).

End change_detection.

(** What the heuristic decides for an entry of [asset_outputs]. *)
Definition is_change_of (spent_assets : gset string) (o : string * list nat) : bool :=
  bool_decide (o.1 ∈ spent_assets) || (1 <? length o.2)%nat.


(** * More of the code *)

(** ** signer.cpp: the cache as JSON *)

(** The order of [std::map<std::vector<uint32_t>, std::string>]: paths
    compare lexicographically. *)
Fixpoint path_le (a b : list Z) : bool :=
  match a, b with
  | [], _ => true
  | _ :: _, [] => false
  | x :: a', y :: b' => (x <? y) || ((x =? y) && path_le a' b')
  end.

Definition cache_entry_le (a b : list Z * string) : Prop := path_le a.1 b.1 = true.
#[export] Instance cache_entry_le_dec (a b : list Z * string) : Decision (cache_entry_le a b).
Proof. unfold cache_entry_le. apply _. Defined.

(** What a range-for over the cache visits. *)
Definition cache_entries (cache : gmap (list Z) string) : list (list Z * string) :=
  merge_sort cache_entry_le (map_to_list cache).

(** A path as a JSON array of numbers. *)
Definition path_json (path : list Z) : json := JArr (JNum <$> path).

(** [signer::get_cached_bip32_xpubs_json()]: "we cache the values inverted,
    i.e. xpub: path". *)
Definition get_cached_bip32_xpubs_json `{Wally} (s : signer.t) : result json :=
  foldlM (λ xpubs_json item, Psbt.json_emplace xpubs_json item.2 (path_json item.1))
    JNull (cache_entries (signer.m_cached_bip32_xpubs s)).

(** ** utils.hpp *)

(** [pair_and_transform(first, last, d_first, binary_op)]:
    "[0,1,2,3] --> binary_op(0,1), binary_op(2,3)".  On a range of odd length
    the loop dereferences [last]; that run has no result here. *)
Fixpoint pair_and_transform {A B} (binary_op : A → A → B) (l : list A) : option (list B) :=
  match l with
  | [] => Some []
  | [_] => None
  | prev :: next :: rest => (binary_op prev next ::.) <$> pair_and_transform binary_op rest
  end.

(** [set_optional_variable(var, new_value)]: the flag returned and the
    variable afterwards. *)
Definition set_optional_variable {T} `{EqDecision T} (var : option T) (new_value : T)
  : result (bool * option T) :=
  GDK_RUNTIME_ASSERT (bool_decide (var = None) || bool_decide (var = Some new_value));;
  match var with
  | None => Ok (true, Some new_value)
  | Some _ => Ok (false, var)
  end.

(** A run of calls on the same variable. *)
Definition set_optional_variable_each {T} `{EqDecision T} (var : option T) (values : list T)
  : result (option T) :=
  foldlM (λ var new_value, snd <$> set_optional_variable var new_value) var values.

(** ** The device descriptor *)

(** The entries [get_device_json] fills in when they are missing or null. *)
Definition device_keys : list string :=
  ["supports_low_r"; "supports_arbitrary_scripts"; "supports_host_unblinding";
   "supports_external_blinding"; "supports_liquid"; "supports_ae_protocol"; "device_type"].

(** The key is there with a value other than null. *)
Definition has_value (j : json) (key : string) : Prop :=
  ∃ v, json_ops.find j key = Some v ∧ v ≠ JNull.

(** ** Matching the wallet's UTXOs *)

(** The test of [take_matching_utxo] on an element [u], when it returns. *)
Definition utxo_matches (txhash_hex : string) (vout : Z) (u : json) : Prop :=
  json_ops.empty u = false
  ∧ j_uint32ref u "pt_idx" = Ok vout
  ∧ j_strref u "txhash" = Ok txhash_hex.

(** ** Wallet inputs *)

(** What libwally documents of the two setters of a transaction input:
    each replaces its own member and leaves the others. *)
Class WallyTxInputLaws `{WallyPsbt} : Prop := {
  set_script_others txin script txin' :
    wally_tx_input_set_script txin script = Some txin' →
    wally_tx_input.txhash txin' = wally_tx_input.txhash txin
    ∧ wally_tx_input.index txin' = wally_tx_input.index txin
    ∧ wally_tx_input.sequence txin' = wally_tx_input.sequence txin
    ∧ wally_tx_input.witness txin' = wally_tx_input.witness txin;
  set_witness_others txin witness txin' :
    wally_tx_input_set_witness txin witness = Some txin' →
    wally_tx_input.txhash txin' = wally_tx_input.txhash txin
    ∧ wally_tx_input.index txin' = wally_tx_input.index txin
    ∧ wally_tx_input.sequence txin' = wally_tx_input.sequence txin
    ∧ wally_tx_input.script txin' = wally_tx_input.script txin;
}.

(** ** Liquid outputs *)

(** The PSET fields of a fully blinded output that [outputs_to_json]
    reads. *)
Definition blinded_output_keys : list Z :=
  [Psbt.out_value_commitment; Psbt.out_asset_commitment; Psbt.out_value_rangeproof;
   Psbt.out_asset_surjection_proof; Psbt.out_blinding_pubkey; Psbt.out_ecdh_pubkey;
   Psbt.out_blind_value_proof; Psbt.out_blind_asset_proof].

(** ** Stored credentials *)

(** The sets of keys that [get_credentials_json] returns: a watch-only login
    by user name, a mnemonic with its seed (and its passphrase), a hex seed,
    and the two descriptor watch-only logins. *)
Definition login_shapes : list (gset string) :=
  [list_to_set ["username"; "password"];
   list_to_set ["mnemonic"; "seed"];
   list_to_set ["mnemonic"; "seed"; "bip39_passphrase"];
   list_to_set ["seed"];
   list_to_set ["core_descriptors"];
   list_to_set ["slip132_extended_pubkeys"]].

(** ** The derivation paths of scenario S5 *)

Definition account_path : list Z := [harden 84; harden 0; harden 0].
Definition address_5_path : list Z := account_path ++ [0; 5].
Definition address_6_path : list Z := account_path ++ [0; 6].

(** ** A small instance of the primitives, for running the model

    Keys are named by their derivation: the master key is ["m"], and a child
    key adds ["/n"] per path element.  Serialisation is the name itself. *)

Module toy.

Definition path_suffix (path : list Z) : string :=
  foldr (λ c acc, "/" +:+ pretty c +:+ acc) "" path.

Definition wally : Wally := {|
  ext_key := string;
  bip32_key_from_parent_path_alloc := λ k path _, Ok (k +:+ path_suffix path);
  bip32_key_serialize := λ k _, String.list_byte_of_string k;
  base58check_from_bytes := String.string_of_list_byte;
  bip32_public_key_from_bip32_xpub := λ xpub, Ok xpub;
  bip32_key_from_seed_alloc := λ _ _ _, Ok "m";
  asset_blinding_key_from_seed := λ seed, seed;
  bip39_mnemonic_to_seed := λ mnemonic _, String.list_byte_of_string mnemonic;
  decrypt_mnemonic := λ mnemonic _, Ok mnemonic;
|}.

Definition mainnet : network_parameters :=
  {| is_main_net := true; is_liquid := false; is_electrum := false; btc_version := 0;
     get_policy_asset := "btc" |}.

Definition liquid : network_parameters :=
  {| is_main_net := true; is_liquid := true; is_electrum := false; btc_version := 57;
     get_policy_asset := "6f0279e9ed041c3d710a9f57d0c02928416460c4b722ae3457a11eec381c526d" |}.

(** A mnemonic login on Bitcoin, and the software signer it constructs: a
    master key and nothing cached. *)
Definition software_credentials : json :=
  json_object [("mnemonic", JStr "abandon ability able")].

Definition software_signer : @signer.t wally :=
  @signer.Build_t wally true false 0
    (json_object [("mnemonic", JStr "abandon ability able");
                    ("seed", JStr "6162616e646f6e206162696c6974792061626c65")])
    signer.SOFTWARE_DEVICE_JSON (Some "m") None ∅.

(** The software signer after [get_bip32_xpub] of the first address and
    after that of the second. *)
Definition software_signer_1 : @signer.t wally :=
  signer.with_cached_bip32_xpubs software_signer
    (<[ address_5_path := "m/2147483732/2147483648/2147483648/0/5" ]>
       {[ account_path := "m/2147483732/2147483648/2147483648" ]}).

Definition software_signer_2 : @signer.t wally :=
  signer.with_cached_bip32_xpubs software_signer_1
    (<[ address_6_path := "m/2147483732/2147483648/2147483648/0/6" ]>
       (signer.m_cached_bip32_xpubs software_signer_1)).

(** A hardware wallet login: a device description and no credentials. *)
Definition hardware_device (supports_liquid : Z) : json :=
  json_object [("device", json_object [("name", JStr "Jade");
                                           ("supports_liquid", JNum supports_liquid)])].

Definition hardware_device_json (supports_liquid : Z) : json :=
  json_object [("device_type", JStr "hardware"); ("name", JStr "Jade");
                 ("supports_low_r", JBool false);
                 ("supports_arbitrary_scripts", JBool false);
                 ("supports_host_unblinding", JBool false);
                 ("supports_external_blinding", JBool false);
                 ("supports_liquid", JNum supports_liquid);
                 ("supports_ae_protocol", JNum ae_protocol_support_level.none)].

Definition hardware_signer : @signer.t wally :=
  @signer.Build_t wally true false 0 JNull (hardware_device_json 0) None None ∅.

(** The PSBT calls: the base64 codec knows the two empty PSBTs (version 0
    and version 2) and nothing else; the version is a field; an output is
    fully blinded when it has a value commitment; the setters of a
    transaction input store what they are given, an empty script as no
    script. *)
Definition empty_psbt (version : Z) : wally_psbt.t :=
  {| wally_psbt.version := version; wally_psbt.is_elements := false;
     wally_psbt.inputs := []; wally_psbt.outputs := [] |}.

Definition empty_psbt_v0_base64 : string := "cHNidP8BAAoCAAAAAAAAAAAAAA==".
Definition empty_psbt_v2_base64 : string := "cHNidP8BAgQCAAAAAQQBAAEFAQAB+wQCAAAAAA==".

Definition tx_of_psbt (p : wally_psbt.t) : Tx.t :=
  {| Tx.version := 2; Tx.locktime := 0;
     Tx.inputs := (λ input, {| wally_tx_input.txhash := [x0a];
                               wally_tx_input.index := wally_psbt_input.index input;
                               wally_tx_input.sequence := 0xffffffff;
                               wally_tx_input.script := None;
                               wally_tx_input.witness := None |}) <$> wally_psbt.inputs p;
     Tx.outputs := (λ output, {| wally_tx_output.satoshi := wally_psbt_output.amount output;
                                 wally_tx_output.script :=
                                   default [] (wally_psbt_output.script output) |})
                   <$> wally_psbt.outputs p |}.

Definition wally_psbt : WallyPsbt := {|
  wally_psbt_from_base64 := λ base64 _,
    if bool_decide (base64 = empty_psbt_v0_base64) then Some (empty_psbt 0)
    else if bool_decide (base64 = empty_psbt_v2_base64) then Some (empty_psbt 2)
    else None;
  wally_psbt_to_base64 := λ p _,
    match wally_psbt.inputs p, wally_psbt.outputs p, wally_psbt.is_elements p with
    | [], [], false =>
        if wally_psbt.version p =? 0 then Some empty_psbt_v0_base64
        else if wally_psbt.version p =? 2 then Some empty_psbt_v2_base64
        else None
    | _, _, _ => None
    end;
  wally_psbt_set_version := λ p _ version,
    if version =? wally_psbt.version p then Some p
    else if (version =? 0) || (version =? 2) then
      Some {| wally_psbt.version := version; wally_psbt.is_elements := wally_psbt.is_elements p;
              wally_psbt.inputs := wally_psbt.inputs p;
              wally_psbt.outputs := wally_psbt.outputs p |}
    else None;
  wally_psbt_clone_alloc := λ p _, Some p;
  wally_psbt_extract := λ p _, Some (tx_of_psbt p);
  wally_psbt_get_output_blinding_status := λ p i _,
    output ← wally_psbt.outputs p !! i;
    Some (if wally_psbt_output.pset_fields output !! Psbt.out_value_commitment is Some _
          then WALLY_PSET_BLINDED_FULL else WALLY_PSET_BLINDED_NONE);
  wally_tx_input_set_script := λ txin script,
    Some {| wally_tx_input.txhash := wally_tx_input.txhash txin;
            wally_tx_input.index := wally_tx_input.index txin;
            wally_tx_input.sequence := wally_tx_input.sequence txin;
            wally_tx_input.script := if script is [] then None else Some script;
            wally_tx_input.witness := wally_tx_input.witness txin |};
  wally_tx_input_set_witness := λ txin witness,
    Some {| wally_tx_input.txhash := wally_tx_input.txhash txin;
            wally_tx_input.index := wally_tx_input.index txin;
            wally_tx_input.sequence := wally_tx_input.sequence txin;
            wally_tx_input.script := wally_tx_input.script txin;
            wally_tx_input.witness := witness |};
|}.

(** The session of a wallet that owns the scripts starting with byte
    [0x51], cannot unblind an output whose script ends in [0xff], and unblinds
    any other to the asset and amount the PSET states. *)
Definition is_wallet_script (script : list byte) : bool :=
  bool_decide (head script = Some x51).

Definition session (net_params : network_parameters) : Session := {|
  get_network_parameters := net_params;
  get_raw_transaction_details := λ _, Throw upstream_error;
  get_scriptpubkey_data := λ script,
    Ok (if is_wallet_script script
        then json_object [("subaccount", JNum 0); ("pointer", JNum 7);
                            ("address_type", JStr "csv")]
        else JNull);
  utxo_add_paths := λ utxo, json_ops.set utxo "user_path" (JArr [JNum (harden 3); JNum 1]);
  get_scriptsig_and_witness := λ _, Ok ([], Some [[]]);
  unblind_output := λ tx i,
    Ok (match Tx.outputs tx !! i with
        | Some o =>
            if bool_decide (last (wally_tx_output.script o) = Some xff)
            then json_object [("error", JStr "failed to unblind utxo")]
            else json_object [("satoshi", JNum (wally_tx_output.satoshi o));
                                ("assetblinder", JStr "00"); ("amountblinder", JStr "00")]
        | None => json_object [("error", JStr "failed to unblind utxo")]
        end);
  get_address_from_scriptpubkey := λ script, Ok ("addr:" +:+ b2h script);
  get_address_from_utxo := λ utxo, (λ s, "addr:" +:+ s) <$> j_strref utxo "scriptpubkey";
  confidentialize_address := λ utxo _, json_ops.set utxo "is_confidential" (JBool true);
  update_tx_info := λ _ result, json_ops.set result "calculated_fee_rate" (JNum 1000);
  is_wallet_utxo := λ utxo, json_ops.contains utxo "address_type";
  input_to_json := λ tx i,
    txin ← Psbt.tx_get_input tx i;
    Ok (json_object [("txhash", JStr (b2h_rev (wally_tx_input.txhash txin)));
                       ("pt_idx", JNum (wally_tx_input.index txin));
                       ("sequence", JNum (wally_tx_input.sequence txin))]);
  to_hex := λ _, "0200";
  get_txid := λ _, [x01; x02];
|}.

Definition multisig_liquid : network_parameters :=
  {| is_main_net := true; is_liquid := true; is_electrum := false; btc_version := 57;
     get_policy_asset := "6d" |}.

Definition multisig_bitcoin : network_parameters := mainnet.

(** A PSET input that is not the wallet's, with a witness UTXO. *)
Definition external_input (has_amount : bool) (fields : gmap Z (list byte))
  : wally_psbt_input.t :=
  {| wally_psbt_input.index := 1; wally_psbt_input.sighash := 0;
     wally_psbt_input.has_amount := has_amount; wally_psbt_input.amount := 5000;
     wally_psbt_input.utxo := None;
     wally_psbt_input.witness_utxo :=
       Some {| wally_tx_output.satoshi := 0; wally_tx_output.script := [x00; x14] |};
     wally_psbt_input.psbt_fields := ∅; wally_psbt_input.pset_fields := fields |}.

(** A Liquid fee output: the policy asset, an amount and no script. *)
Definition fee_output (amount : Z) : wally_psbt_output.t :=
  {| wally_psbt_output.has_amount := true; wally_psbt_output.amount := amount;
     wally_psbt_output.script := None; wally_psbt_output.psbt_fields := ∅;
     wally_psbt_output.pset_fields := {[ Psbt.out_asset := [x6d] ]} |}.

(** A fully blinded Liquid output of the policy asset. *)
Definition blinded_fields : gmap Z (list byte) :=
  list_to_map [(Psbt.out_value_commitment, [x08]); (Psbt.out_asset, [x6d]);
               (Psbt.out_asset_commitment, [x0a]); (Psbt.out_value_rangeproof, [x01]);
               (Psbt.out_asset_surjection_proof, [x02]); (Psbt.out_blinding_pubkey, [x03]);
               (Psbt.out_ecdh_pubkey, [x04]); (Psbt.out_blind_value_proof, [x05]);
               (Psbt.out_blind_asset_proof, [x06])].

Definition blinded_output (amount : Z) (script : list byte) : wally_psbt_output.t :=
  {| wally_psbt_output.has_amount := true; wally_psbt_output.amount := amount;
     wally_psbt_output.script := Some script; wally_psbt_output.psbt_fields := ∅;
     wally_psbt_output.pset_fields := blinded_fields |}.

(** A Bitcoin output. *)
Definition bitcoin_output (amount : Z) (script : list byte) : wally_psbt_output.t :=
  {| wally_psbt_output.has_amount := true; wally_psbt_output.amount := amount;
     wally_psbt_output.script := Some script; wally_psbt_output.psbt_fields := ∅;
     wally_psbt_output.pset_fields := ∅ |}.

Definition pset (ins : list wally_psbt_input.t) (outs : list wally_psbt_output.t) : Psbt.t :=
  {| Psbt.m_original_version := 2; Psbt.m_is_liquid := true;
     Psbt.m_psbt := {| wally_psbt.version := 2; wally_psbt.is_elements := true;
                       wally_psbt.inputs := ins; wally_psbt.outputs := outs |} |}.

Definition psbt (ins : list wally_psbt_input.t) (outs : list wally_psbt_output.t) : Psbt.t :=
  {| Psbt.m_original_version := 0; Psbt.m_is_liquid := false;
     Psbt.m_psbt := {| wally_psbt.version := 2; wally_psbt.is_elements := false;
                       wally_psbt.inputs := ins; wally_psbt.outputs := outs |} |}.

Definition tx_of (psbt : Psbt.t) : Tx.t := tx_of_psbt (Psbt.m_psbt psbt).

(** The wallet's UTXOs: none. *)
Definition details : json := json_object [("utxos", JObj ∅)].

(** Scenario S3: a PSET that spends a non-wallet input without an explicit
    amount and pays a fee of 100. *)
Definition unblindable_pset : Psbt.t := pset [external_input false ∅] [fee_output 100].

(** The same with an explicit amount on the input and none of its proofs. *)
Definition proofless_pset : Psbt.t := pset [external_input true ∅] [fee_output 100].

(** An explicit input of 5000 of the policy asset with its proofs, paid out
    as fee in full, beside a second output without a script, of 50 of
    another asset; and the same input against a fee of 100. *)
Definition explicit_fields : gmap Z (list byte) :=
  list_to_map [(Psbt.in_explicit_asset, [x6d]); (Psbt.in_value_proof, [x07]);
               (Psbt.in_asset_proof, [x09])].

Definition scriptless_output (asset : list byte) (amount : Z) : wally_psbt_output.t :=
  {| wally_psbt_output.has_amount := true; wally_psbt_output.amount := amount;
     wally_psbt_output.script := None; wally_psbt_output.psbt_fields := ∅;
     wally_psbt_output.pset_fields := {[ Psbt.out_asset := asset ]} |}.

Definition balanced_pset : Psbt.t :=
  pset [external_input true explicit_fields] [fee_output 5000; scriptless_output [x63] 50].

Definition unbalanced_pset : Psbt.t :=
  pset [external_input true explicit_fields] [fee_output 100].

(** Scenario S4 on Bitcoin: a wallet output, an external recipient, and a
    second wallet output. *)
Definition two_change_psbt : Psbt.t :=
  psbt [] [bitcoin_output 60000 [x51; x01]; bitcoin_output 90000 [x00; x14];
           bitcoin_output 5000 [x51; x02]].

(** The same on Liquid, with a wallet output that the wallet cannot unblind
    in front and a third wallet output behind. *)
Definition opaque_change_pset : Psbt.t :=
  pset [] [blinded_output 60000 [x51; xff]; blinded_output 5000 [x51; x02];
           blinded_output 90000 [x00; x14]; blinded_output 7000 [x51; x03]].

Definition liquid_session : Session := session multisig_liquid.
Definition bitcoin_session : Session := session multisig_bitcoin.

(** The enrichment of the input of [unblindable_pset], and of its fee
    output. *)
Definition raw_input_json : gmap string json :=
  list_to_map [("txhash", JStr "0a"); ("pt_idx", JNum 1); ("sequence", JNum 0xffffffff)].

Definition unblinded_input_json : json :=
  json_object [("txhash", JStr "0a"); ("pt_idx", JNum 1); ("sequence", JNum 0xffffffff);
                 ("skip_signing", JBool true); ("error", JStr "failed to unblind utxo")].

Definition fee_output_json : json :=
  json_object [("asset_id", JStr "6d"); ("satoshi", JNum 100); ("scriptpubkey", JStr "")].

Definition unblindable_inputs : Psbt.inputs_state :=
  {| Psbt.st_psbt := unblindable_pset; Psbt.st_tx := tx_of unblindable_pset;
     Psbt.st_inputs := [unblinded_input_json]; Psbt.st_wallet_assets := ∅ |}.

Definition unblindable_fees : Psbt.fee_state :=
  {| Psbt.sum := 0; Psbt.explicit_fee := 100; Psbt.use_error := false;
     Psbt.error := "failed to unblind utxo" |}.

(** The enrichment of [balanced_pset] and of [unbalanced_pset]. *)
Definition explicit_input_json : json :=
  json_object [("txhash", JStr "0a"); ("pt_idx", JNum 1); ("sequence", JNum 0xffffffff);
                 ("skip_signing", JBool true); ("satoshi", JNum 5000);
                 ("asset_id", JStr "6d"); ("value_blind_proof", JStr "07");
                 ("asset_blind_proof", JStr "09")].

Definition scriptless_output_json (asset : string) (satoshi : Z) : json :=
  json_object [("asset_id", JStr asset); ("satoshi", JNum satoshi); ("scriptpubkey", JStr "")].

Definition explicit_inputs (psbt : Psbt.t) : Psbt.inputs_state :=
  {| Psbt.st_psbt := psbt; Psbt.st_tx := tx_of psbt;
     Psbt.st_inputs := [explicit_input_json]; Psbt.st_wallet_assets := ∅ |}.

Definition balanced_outputs : list json :=
  [scriptless_output_json "6d" 5000; scriptless_output_json "63" 50].

Definition explicit_fees (explicit_fee : Z) : Psbt.fee_state :=
  {| Psbt.sum := 5000; Psbt.explicit_fee := explicit_fee; Psbt.use_error := false;
     Psbt.error := "" |}.

(** The enrichment of the outputs of [two_change_psbt]. *)
Definition wallet_output_json (satoshi : Z) (scriptpubkey : string) : json :=
  json_object [("satoshi", JNum satoshi); ("scriptpubkey", JStr scriptpubkey);
                 ("subaccount", JNum 0); ("pointer", JNum 7); ("address_type", JStr "csv");
                 ("address", JStr ("addr:" +:+ scriptpubkey));
                 ("user_path", JArr [JNum (harden 3); JNum 1])].

Definition external_output_json (satoshi : Z) (scriptpubkey : string) : json :=
  json_object [("satoshi", JNum satoshi); ("scriptpubkey", JStr scriptpubkey);
                 ("address", JStr ("addr:" +:+ scriptpubkey))].

Definition marked_output_json (satoshi : Z) (scriptpubkey : string) (is_change : bool) : json :=
  match wallet_output_json satoshi scriptpubkey with
  | JObj m => JObj (<[ "is_change" := JBool is_change ]> m)
  | j => j
  end.

Definition two_change_outputs : list json :=
  [marked_output_json 60000 "5101" true; external_output_json 90000 "0014";
   wallet_output_json 5000 "5102"].

(** A half-size master blinding key. *)
Definition blinding_key_32_hex : string :=
  "0102030405060708090a0b0c0d0e0f101112131415161718191a1b1c1d1e1f20".

Definition blinding_key_32 : list byte :=
  [x01; x02; x03; x04; x05; x06; x07; x08; x09; x0a; x0b; x0c; x0d; x0e; x0f; x10;
   x11; x12; x13; x14; x15; x16; x17; x18; x19; x1a; x1b; x1c; x1d; x1e; x1f; x20].

(** A signer without a master key that holds the account xpub and the first
    address, as a watch-only session would. *)
Definition watch_only_signer : @signer.t wally := signer.with_master_key software_signer_1 None.

(** The software signer of the same login on Liquid. *)
Definition liquid_signer : @signer.t wally :=
  @signer.Build_t wally true true 57
    (json_object [("mnemonic", JStr "abandon ability able");
                    ("seed", JStr "6162616e646f6e206162696c6974792061626c65")])
    signer.SOFTWARE_DEVICE_JSON (Some "m") None ∅.

(** A hex seed of 64 bytes, and the login that gives it in place of the
    mnemonic. *)
Definition seed_hex : string :=
  "000102030405060708090a0b0c0d0e0f101112131415161718191a1b1c1d1e1f202122232425262728292a2b2c2d2e2f303132333435363738393a3b3c3d3e3f".

Definition hex_seed_credentials : json := json_object [("mnemonic", JStr (seed_hex +:+ "X"))].

Definition hex_seed_signer : @signer.t wally :=
  @signer.Build_t wally true false 0 (json_object [("seed", JStr seed_hex)])
    signer.SOFTWARE_DEVICE_JSON (Some "m") None ∅.

Definition mnemonic_encryption : MnemonicEncryption :=
  {| encrypt_mnemonic := λ mnemonic password, Ok (mnemonic +:+ "/" +:+ password) |}.

(** A login that names a hardware device and brings a mnemonic as well. *)
Definition jade : json :=
  json_object [("name", JStr "Jade"); ("supports_liquid", JNum 0)].

(** A singlesig Bitcoin session: the wallet's scripts come with their chain,
    branch and subtype. *)
Definition singlesig_bitcoin : network_parameters :=
  {| is_main_net := true; is_liquid := false; is_electrum := true; btc_version := 0;
     get_policy_asset := "btc" |}.

Definition singlesig_session : Session := {|
  get_network_parameters := singlesig_bitcoin;
  get_raw_transaction_details := λ _, Throw upstream_error;
  get_scriptpubkey_data := λ script,
    Ok (if is_wallet_script script
        then json_object [("subaccount", JNum 0); ("pointer", JNum 7);
                            ("address_type", JStr "p2wpkh"); ("is_internal", JBool true);
                            ("branch", JNum 1); ("subtype", JNum 0)]
        else JNull);
  utxo_add_paths := λ utxo, json_ops.set utxo "user_path" (JArr [JNum (harden 3); JNum 1]);
  get_scriptsig_and_witness := λ _, Ok ([], Some [[]]);
  unblind_output := λ _ _, Throw upstream_error;
  get_address_from_scriptpubkey := λ script, Ok ("addr:" +:+ b2h script);
  get_address_from_utxo := λ utxo, (λ s, "addr:" +:+ s) <$> j_strref utxo "scriptpubkey";
  confidentialize_address := λ utxo _, Ok utxo;
  update_tx_info := λ _ result, json_ops.set result "calculated_fee_rate" (JNum 1000);
  is_wallet_utxo := λ utxo, json_ops.contains utxo "address_type";
  input_to_json := λ tx i,
    txin ← Psbt.tx_get_input tx i;
    Ok (json_object [("txhash", JStr (b2h_rev (wally_tx_input.txhash txin)));
                       ("pt_idx", JNum (wally_tx_input.index txin));
                       ("sequence", JNum (wally_tx_input.sequence txin))]);
  to_hex := λ _, "0200";
  get_txid := λ _, [x01; x02];
|}.

(** A Bitcoin PSBT that spends the wallet's UTXO [0a:1], and the UTXOs of
    the wallet in the standard format. *)
Definition wallet_utxo : json :=
  json_object [("txhash", JStr "0a"); ("pt_idx", JNum 1); ("satoshi", JNum 70000);
                 ("address_type", JStr "csv"); ("user_status", JNum 0)].

Definition wallet_utxos : json := json_object [("btc", JArr [JNull; wallet_utxo])].

Definition wallet_psbt : Psbt.t :=
  psbt [external_input false ∅]
       [bitcoin_output 60000 [x51; x01]; bitcoin_output 9000 [x00; x14]].

(** What [inputs_to_json] makes of [wallet_psbt]: with the wallet's UTXOs,
    and without. *)
Definition wallet_input_json : json :=
  json_object [("txhash", JStr "0a"); ("pt_idx", JNum 1); ("satoshi", JNum 70000);
                 ("address_type", JStr "csv");
                 ("user_path", JArr [JNum (harden 3); JNum 1])].

Definition signed_txin (script : option (list byte)) : wally_tx_input.t :=
  {| wally_tx_input.txhash := [x0a]; wally_tx_input.index := 1;
     wally_tx_input.sequence := 0xffffffff;
     wally_tx_input.script := script; wally_tx_input.witness := Some [[]] |}.

Definition wallet_inputs : Psbt.inputs_state :=
  {| Psbt.st_psbt := wallet_psbt;
     Psbt.st_tx := Tx.with_inputs (tx_of wallet_psbt) [signed_txin None];
     Psbt.st_inputs := [wallet_input_json]; Psbt.st_wallet_assets := {[ "btc" ]} |}.

Definition foreign_input_json : json :=
  json_object [("txhash", JStr "0a"); ("pt_idx", JNum 1); ("sequence", JNum 0xffffffff);
                 ("skip_signing", JBool true); ("satoshi", JNum 0)].

Definition foreign_inputs : Psbt.inputs_state :=
  {| Psbt.st_psbt := wallet_psbt; Psbt.st_tx := tx_of wallet_psbt;
     Psbt.st_inputs := [foreign_input_json]; Psbt.st_wallet_assets := ∅ |}.

(** The outputs of [two_change_psbt] when the wallet funded nothing. *)
Definition unmarked_outputs : list json :=
  [wallet_output_json 60000 "5101"; external_output_json 90000 "0014";
   wallet_output_json 5000 "5102"].

(** The details of [wallet_psbt] with the wallet's UTXOs, and what [to_json]
    makes of them. *)
Definition wallet_details : json :=
  json_object [("transaction", JStr "0200");
                 ("transaction_inputs", JArr [wallet_input_json]);
                 ("transaction_outputs",
                  JArr [marked_output_json 60000 "5101" true;
                        external_output_json 9000 "0014"]);
                 ("fee", JNum 1000); ("network_fee", JNum 0);
                 ("calculated_fee_rate", JNum 1000); ("txhash", JStr "0201");
                 ("fee_rate", JNum 1000); ("utxo_strategy", JStr "manual")].

Definition wallet_json : json :=
  match wallet_details with
  | JObj m => JObj (<[ "is_partial" := JBool false ]> m)
  | j => j
  end.

(** The first output of [two_change_psbt] on the singlesig session. *)
Definition singlesig_output_json : json :=
  json_object [("satoshi", JNum 60000); ("scriptpubkey", JStr "5101");
                 ("subaccount", JNum 0); ("pointer", JNum 7);
                 ("address_type", JStr "p2wpkh"); ("is_change", JBool true);
                 ("address", JStr "addr:5101");
                 ("user_path", JArr [JNum (harden 3); JNum 1])].

End toy.

(** * Properties of the signer *)

Section signer_properties.
Context `{Wally}.

Lemma last_snoc_Z (l : list Z) (x : Z) : last (l ++ [x]) = Some x.
Proof. apply last_snoc. Qed.

Lemma removelast_snoc_Z (l : list Z) (x : Z) : removelast (l ++ [x]) = l.
Proof. apply removelast_last. Qed.

(** One round of the search loop on a path that ends in [back]. *)
Lemma find_cached_step (fuel : nat) (cache : gmap (list Z) string) (init : list Z) back child_path :
  cache !! (init ++ [back]) = None →
  signer.find_cached (S fuel) cache (init ++ [back]) child_path =
    if is_hardened back then signer.not_found (init ++ [back]) child_path
    else signer.find_cached fuel cache init (back :: child_path).
Proof.
  intros Hnone. simpl. rewrite Hnone, last_snoc_Z, removelast_snoc_Z. done.
Qed.

Lemma find_cached_hit (fuel : nat) (cache : gmap (list Z) string) (parent_path child_path : list Z) cached :
  cache !! parent_path = Some cached →
  signer.find_cached fuel cache parent_path child_path =
    signer.found cached parent_path child_path.
Proof. intros Hsome. destruct fuel; simpl; by rewrite Hsome. Qed.

Lemma find_cached_root (fuel : nat) (cache : gmap (list Z) string) (child_path : list Z) :
  cache !! [] = None →
  signer.find_cached fuel cache [] child_path = signer.not_found [] child_path.
Proof. intros Hnone. destruct fuel; simpl; by rewrite Hnone. Qed.

(** What the search returns: the path splits into the parent it stopped at
    and the popped elements, which were pushed onto the front of
    [child_path]; none of them is hardened. *)
Lemma find_cached_spec (fuel : nat) (cache : gmap (list Z) string) (parent_path child_path : list Z) :
  (length parent_path ≤ fuel)%nat →
  match signer.find_cached fuel cache parent_path child_path with
  | signer.found cached parent child =>
      ∃ popped, parent_path = parent ++ popped ∧ child = popped ++ child_path
        ∧ cache !! parent = Some cached ∧ Forall non_hardened popped
  | signer.not_found parent child =>
      ∃ popped, parent_path = parent ++ popped ∧ child = popped ++ child_path
        ∧ cache !! parent = None ∧ Forall non_hardened popped
        ∧ (parent = [] ∨ ∃ init back, parent = init ++ [back] ∧ is_hardened back = true)
  end.
Proof.
  revert parent_path child_path.
  induction fuel as [|fuel IH]; intros parent_path child_path Hlen.
  - destruct parent_path; [|simpl in Hlen; lia].
    simpl. destruct (cache !! []) eqn:Hc.
    + exists []. by rewrite app_nil_r.
    + exists []. rewrite app_nil_r. eauto 10.
  - destruct (cache !! parent_path) eqn:Hc.
    { rewrite (find_cached_hit _ _ _ _ _ Hc). exists []. by rewrite app_nil_r. }
    destruct parent_path as [|x l _] using rev_ind.
    { rewrite find_cached_root by done. exists []. eauto 10. }
    rewrite find_cached_step by done.
    destruct (is_hardened x) eqn:Hx.
    { exists []. rewrite app_nil_r. eauto 10. }
    rewrite length_app in Hlen. simpl in Hlen.
    specialize (IH l (x :: child_path) ltac:(lia)).
    destruct (signer.find_cached fuel cache l (x :: child_path)) as [c p ch|p ch].
    + destruct IH as (popped & -> & -> & Hp & Hall).
      exists (popped ++ [x]). rewrite <- !app_assoc. split_and!; try done.
      apply Forall_app; split; [done|]. by constructor.
    + destruct IH as (popped & -> & -> & Hp & Hall & Hstop).
      exists (popped ++ [x]). rewrite <- !app_assoc. split_and!; try done.
      apply Forall_app; split; [done|]. by constructor.
Qed.

(** The search finds an entry exactly when some prefix of the path is
    cached and everything after it is non-hardened. *)
Lemma find_cached_found_iff (fuel : nat) (cache : gmap (list Z) string) (parent_path child_path : list Z) :
  (length parent_path ≤ fuel)%nat →
  (∃ cached parent child,
      signer.find_cached fuel cache parent_path child_path = signer.found cached parent child)
  ↔ ∃ prefix removed, parent_path = prefix ++ removed
      ∧ is_Some (cache !! prefix) ∧ Forall non_hardened removed.
Proof.
  revert fuel child_path.
  induction parent_path as [|x l IH] using rev_ind; intros fuel child_path Hlen.
  - destruct (cache !! []) eqn:Hc.
    + rewrite (find_cached_hit _ _ _ _ _ Hc). split; [|eauto].
      intros _. exists [], []. rewrite Hc. eauto.
    + rewrite find_cached_root by done. split; [by intros (?&?&?&?)|].
      intros (prefix & removed & Heq & [v Hv] & _).
      symmetry in Heq. apply app_eq_nil in Heq as [-> ->]. congruence.
  - destruct (cache !! (l ++ [x])) eqn:Hc.
    { rewrite (find_cached_hit _ _ _ _ _ Hc). split; [|eauto].
      intros _. exists (l ++ [x]), []. rewrite app_nil_r, Hc. eauto. }
    rewrite length_app in Hlen. simpl in Hlen.
    destruct fuel as [|fuel]; [lia|].
    rewrite find_cached_step by done.
    destruct (is_hardened x) eqn:Hx.
    + split; [by intros (?&?&?&?)|].
      intros (prefix & removed & Heq & [v Hv] & Hall).
      destruct removed as [|y r _] using rev_ind.
      * rewrite app_nil_r in Heq. subst. congruence.
      * rewrite app_assoc in Heq. apply app_inj_tail in Heq as [_ ->].
        apply Forall_app in Hall as [_ Hy]. inversion Hy; subst.
        unfold non_hardened in *. congruence.
    + rewrite (IH fuel (x :: child_path)) by lia. split.
      * intros (prefix & removed & -> & Hsome & Hall).
        exists prefix, (removed ++ [x]). rewrite <- app_assoc. split_and!; try done.
        apply Forall_app; split; [done|]. by constructor.
      * intros (prefix & removed & Heq & [v Hv] & Hall).
        destruct removed as [|y r _] using rev_ind.
        -- rewrite app_nil_r in Heq. subst. congruence.
        -- rewrite app_assoc in Heq. apply app_inj_tail in Heq as [-> ->].
           apply Forall_app in Hall as [Hr _]. exists prefix, r. eauto.
Qed.

(** C6: [has_bip32_xpub(path)] is true exactly when the signer holds a
    master key, or the cache holds [path] itself, or the cache holds a proper
    prefix of [path] and none of the components removed after that prefix is
    hardened. *)
Theorem has_bip32_xpub_iff (path : list Z) (s : signer.t) :
  signer.has_bip32_xpub path s = true ↔
    is_Some (signer.m_master_key s)
    ∨ is_Some (signer.m_cached_bip32_xpubs s !! path)
    ∨ ∃ prefix removed, path = prefix ++ removed ∧ removed ≠ []
        ∧ is_Some (signer.m_cached_bip32_xpubs s !! prefix)
        ∧ Forall (λ c, is_hardened c = false) removed.
Proof.
  unfold signer.has_bip32_xpub.
  destruct (signer.m_master_key s) as [mk|] eqn:Hmk.
  { split; [|done]. intros _. left. eauto. }
  pose proof (find_cached_found_iff (length path) (signer.m_cached_bip32_xpubs s) path []
                (Nat.le_refl _)) as Hiff.
  split.
  - intros Hfound. right.
    destruct (signer.find_cached _ _ _ _) as [c p ch|p ch] eqn:Hf; [|done].
    destruct (proj1 Hiff) as (prefix & removed & Heq & Hsome & Hall); [eauto|].
    destruct removed as [|y r].
    + left. rewrite app_nil_r in Heq. by subst.
    + right. exists prefix, (y :: r). split_and!; done.
  - intros [Hm|[Hp|(prefix & removed & Heq & _ & Hsome & Hall)]].
    + by destruct Hm.
    + destruct (proj2 Hiff) as (c & p & ch & ->); [|done].
      exists path, []. rewrite app_nil_r. split_and!; [done|done|constructor].
    + destruct (proj2 Hiff) as (c & p & ch & ->); [|done].
      exists prefix, removed. done.
Qed.


(** *** The xpub cache *)

Lemma cache_bip32_xpub_Ok (path : list Z) (xpub : string) (s s' : signer.t) (fresh : bool) :
  signer.cache_bip32_xpub path xpub s = Ok (fresh, s') →
  signer.m_cached_bip32_xpubs s' = <[ path := xpub ]> (signer.m_cached_bip32_xpubs s)
  ∧ signer.m_master_key s' = signer.m_master_key s
  ∧ fresh = bool_decide (signer.m_cached_bip32_xpubs s !! path = None).
Proof.
  unfold signer.cache_bip32_xpub.
  destruct (signer.m_cached_bip32_xpubs s !! path) as [present|] eqn:Hc.
  - case_bool_decide as Heq; simpl; [|done]. intros [= <- <-]. subst present.
    split_and!; [|done|done]. symmetry. by apply insert_id.
  - intros [= <- <-]. done.
Qed.

Lemma cache_ext_key_Ok (path : list Z) (hdkey : option ext_key) (s s' : signer.t) (xpub : string) :
  signer.cache_ext_key path hdkey s = Ok (xpub, s') →
  (∃ key, hdkey = Some key ∧ xpub = signer.xpub_of key)
  ∧ signer.m_cached_bip32_xpubs s' = <[ path := xpub ]> (signer.m_cached_bip32_xpubs s)
  ∧ signer.m_master_key s' = signer.m_master_key s.
Proof.
  unfold signer.cache_ext_key. destruct hdkey as [key|]; simpl; [|done].
  destruct (signer.cache_bip32_xpub _ _ _) as [[fresh s1]|] eqn:Hc; simpl; [|done].
  intros [= <- <-]. apply cache_bip32_xpub_Ok in Hc as (? & ? & _). eauto 10.
Qed.

(** A cached path is returned as cached, and the signer is left as it was. *)
Lemma get_bip32_xpub_hit (path : list Z) (s : signer.t) (xpub : string) :
  signer.m_cached_bip32_xpubs s !! path = Some xpub →
  signer.get_bip32_xpub path s = Ok (xpub, s).
Proof.
  intros Hc. unfold signer.get_bip32_xpub. by rewrite (find_cached_hit _ _ _ _ _ Hc).
Qed.

(** Whatever a successful call returns is cached under the path asked for. *)
Lemma get_bip32_xpub_cached (path : list Z) (s s' : signer.t) (xpub : string) :
  signer.get_bip32_xpub path s = Ok (xpub, s') →
  signer.m_cached_bip32_xpubs s' !! path = Some xpub.
Proof.
  unfold signer.get_bip32_xpub.
  pose proof (find_cached_spec (length path) (signer.m_cached_bip32_xpubs s) path []
                (Nat.le_refl _)) as Hspec.
  destruct (signer.find_cached _ _ _ _) as [c parent child|parent child].
  - destruct Hspec as (popped & Hpath & Hchild & Hc & _).
    rewrite app_nil_r in Hchild. subst child.
    destruct popped as [|y popped].
    { rewrite app_nil_r in Hpath. subst parent. by intros [= <- <-]. }
    destruct (bip32_public_key_from_bip32_xpub c) as [pk|]; simpl; [|done].
    case_bool_decide as Hp.
    { subst path. by destruct parent. }
    rewrite andb_false_r. simpl.
    destruct (signer.derive pk (y :: popped) BIP32_FLAG_KEY_PUBLIC) as [ck|]; simpl; [|done].
    intros Hk. apply cache_ext_key_Ok in Hk as (_ & -> & _). apply lookup_insert_eq.
  - destruct Hspec as (popped & Hpath & Hchild & Hc & _).
    rewrite app_nil_r in Hchild. subst child. simpl.
    case_bool_decide as Hp.
    { intros Hk. apply cache_ext_key_Ok in Hk as (_ & -> & _). rewrite Hp. apply lookup_insert_eq. }
    destruct (decide (parent = [])) as [->|Hparent].
    + simpl in Hpath. subst popped.
      rewrite (bool_decide_eq_false_2 ([] ≠ [])) by (intros Hne; by apply Hne).
      rewrite (bool_decide_eq_false_2 (path = [])) by done. simpl.
      destruct (signer.m_master_key s) as [mk|]; simpl; [|done].
      destruct (signer.derive mk path BIP32_FLAG_KEY_PUBLIC) as [ck|]; simpl; [|done].
      intros Hk. apply cache_ext_key_Ok in Hk as (_ & -> & _). apply lookup_insert_eq.
    + rewrite (bool_decide_eq_true_2 (parent ≠ [])) by done. simpl.
      destruct (signer.m_master_key s) as [mk|]; simpl; [|done].
      destruct (signer.derive mk parent BIP32_FLAG_KEY_PUBLIC) as [pk|]; simpl; [|done].
      destruct (signer.cache_ext_key parent (Some pk) s) as [[x1 s1]|] eqn:Hk1; simpl; [|done].
      apply cache_ext_key_Ok in Hk1 as ((key & [= <-] & ->) & Hc1 & _).
      case_bool_decide as Hchild.
      * intros [= <- <-]. subst popped. rewrite app_nil_r in Hpath. subst parent.
        rewrite Hc1. apply lookup_insert_eq.
      * destruct (signer.derive pk popped BIP32_FLAG_KEY_PUBLIC) as [ck|]; simpl; [|done].
        intros Hk. apply cache_ext_key_Ok in Hk as (_ & -> & _). apply lookup_insert_eq.
Qed.

(** C7: once [(path, x)] is in the cache, inserting [(path, y)] fails the
    assertion when [y] differs from [x] and changes nothing when [y] is [x];
    and a call of [get_bip32_xpub] that returned a value returns the same
    value, from the same state, when it is repeated. *)
Theorem cache_bip32_xpub_conflict (path : list Z) (x y : string) (s s1 : signer.t) (fresh : bool)
    (Hinserted : signer.cache_bip32_xpub path x s = Ok (fresh, s1)) :
  (y ≠ x → signer.cache_bip32_xpub path y s1 = Throw assertion_error)
  ∧ (y = x → signer.cache_bip32_xpub path y s1 = Ok (false, s1))
  ∧ (∀ (s2 s3 : signer.t) (xpub : string),
        signer.get_bip32_xpub path s2 = Ok (xpub, s3) →
        signer.get_bip32_xpub path s3 = Ok (xpub, s3)).
Proof.
  apply cache_bip32_xpub_Ok in Hinserted as (Hc & _ & _).
  assert (signer.m_cached_bip32_xpubs s1 !! path = Some x) as Hx.
  { rewrite Hc. apply lookup_insert_eq. }
  split_and!.
  - intros Hne. unfold signer.cache_bip32_xpub. rewrite Hx.
    rewrite bool_decide_eq_false_2 by congruence. done.
  - intros ->. unfold signer.cache_bip32_xpub. rewrite Hx.
    rewrite bool_decide_eq_true_2 by done. done.
  - intros s2 s3 xpub Hget. apply get_bip32_xpub_hit. by eapply get_bip32_xpub_cached.
Qed.


(** *** Scenario S5 *)

Lemma find_cached_address_5 :
  signer.find_cached (length address_5_path) ∅ address_5_path []
  = signer.not_found account_path [0; 5].
Proof. vm_compute. reflexivity. Qed.

Lemma find_cached_address_6 (x3 x5 : string) :
  signer.find_cached (length address_6_path)
    (<[ address_5_path := x5 ]> (<[ account_path := x3 ]> ∅)) address_6_path []
  = signer.found x3 account_path [0; 6].
Proof. vm_compute. reflexivity. Qed.

Lemma cache_ext_key_fresh (path : list Z) (key : ext_key) (s : signer.t) :
  signer.m_cached_bip32_xpubs s !! path = None →
  signer.cache_ext_key path (Some key) s
  = Ok (signer.xpub_of key,
        signer.with_cached_bip32_xpubs s (<[ path := signer.xpub_of key ]> (signer.m_cached_bip32_xpubs s))).
Proof.
  intros Hc. unfold signer.cache_ext_key, signer.cache_bip32_xpub. simpl.
  fold (signer.xpub_of key). by rewrite Hc.
Qed.

(** The second call of scenario S5, from any signer whose cache holds the
    account xpub and the first address: the master key plays no part. *)
Lemma get_bip32_xpub_address_6 (s : signer.t) (k3 k3' k6 : ext_key) (x5 : string)
    (Hcache : signer.m_cached_bip32_xpubs s
              = <[ address_5_path := x5 ]> (<[ account_path := signer.xpub_of k3 ]> ∅))
    (Hk3' : bip32_public_key_from_bip32_xpub (signer.xpub_of k3) = Ok k3')
    (Hk6 : signer.derive k3' [0; 6] BIP32_FLAG_KEY_PUBLIC = Ok k6) :
  signer.get_bip32_xpub address_6_path s
  = Ok (signer.xpub_of k6,
        signer.with_cached_bip32_xpubs s
          (<[ address_6_path := signer.xpub_of k6 ]> (signer.m_cached_bip32_xpubs s))).
Proof.
  unfold signer.get_bip32_xpub. rewrite Hcache, find_cached_address_6. simpl.
  rewrite Hk3'. simpl. rewrite Hk6. simpl.
  rewrite cache_ext_key_fresh; [by rewrite Hcache|].
  rewrite Hcache. by vm_compute.
Qed.

(** C5, as the code has it: on a software signer with an empty cache,
    [get_bip32_xpub([84h,0h,0h,0,5])] and then
    [get_bip32_xpub([84h,0h,0h,0,6])] both succeed; afterwards the cache
    holds exactly the three paths [[84h,0h,0h]], [[84h,0h,0h,0,5]] and
    [[84h,0h,0h,0,6]] (the master path [[]] is not cached); and the second
    call derives from the cached [[84h,0h,0h]] xpub, whatever the master key
    is, even when there is none. *)
Theorem get_bip32_xpub_prefix_promotion (s0 : signer.t) (mk k3 k5 k3' k6 : ext_key)
    (Hmaster : signer.m_master_key s0 = Some mk)
    (Hempty : signer.m_cached_bip32_xpubs s0 = ∅)
    (Hk3 : signer.derive mk account_path BIP32_FLAG_KEY_PUBLIC = Ok k3)
    (Hk5 : signer.derive k3 [0; 5] BIP32_FLAG_KEY_PUBLIC = Ok k5)
    (Hk3' : bip32_public_key_from_bip32_xpub (signer.xpub_of k3) = Ok k3')
    (Hk6 : signer.derive k3' [0; 6] BIP32_FLAG_KEY_PUBLIC = Ok k6) :
  ∃ s1 s2 : signer.t,
    signer.get_bip32_xpub address_5_path s0 = Ok (signer.xpub_of k5, s1)
    ∧ signer.get_bip32_xpub address_6_path s1 = Ok (signer.xpub_of k6, s2)
    ∧ dom (signer.m_cached_bip32_xpubs s2)
      = ({[ account_path; address_5_path; address_6_path ]} : gset (list Z))
    ∧ signer.m_cached_bip32_xpubs s2 !! account_path = Some (signer.xpub_of k3)
    ∧ ∀ other_master : option ext_key,
        signer.get_bip32_xpub address_6_path (signer.with_master_key s1 other_master)
        = Ok (signer.xpub_of k6, signer.with_master_key s2 other_master).
Proof.
  pose proof (cache_ext_key_fresh account_path k3 s0) as Hc3.
  rewrite Hempty in Hc3. specialize (Hc3 (lookup_empty _)).
  set (s' := signer.with_cached_bip32_xpubs s0 (<[ account_path := signer.xpub_of k3 ]> ∅)) in *.
  pose proof (cache_ext_key_fresh address_5_path k5 s') as Hc5.
  simpl in Hc5. specialize (Hc5 ltac:(by vm_compute)).
  set (s1 := signer.with_cached_bip32_xpubs s' _) in *.
  assert (signer.m_cached_bip32_xpubs s1
          = <[ address_5_path := signer.xpub_of k5 ]> (<[ account_path := signer.xpub_of k3 ]> ∅)) as Hcache1
    by done.
  exists s1, (signer.with_cached_bip32_xpubs s1
                (<[ address_6_path := signer.xpub_of k6 ]> (signer.m_cached_bip32_xpubs s1))).
  split_and!.
  - unfold signer.get_bip32_xpub. rewrite Hempty, find_cached_address_5. simpl.
    rewrite Hmaster. simpl. rewrite Hk3. simpl. rewrite Hc3. simpl. rewrite Hk5. simpl.
    exact Hc5.
  - by apply (get_bip32_xpub_address_6 s1 k3 k3' k6 (signer.xpub_of k5)).
  - simpl. rewrite !dom_insert_L, dom_empty_L. set_solver.
  - simpl. by vm_compute.
  - intros other_master.
    by rewrite (get_bip32_xpub_address_6 (signer.with_master_key s1 other_master)
                  k3 k3' k6 (signer.xpub_of k5)).
Qed.


(** *** Construction *)

(** C8: on a Liquid network, a signer whose resolved device descriptor has
    [supports_liquid == none] is refused with a user error, and with any
    other level construction goes on past the check, to the master keys. *)
Theorem new_liquid_support (net_params : network_parameters)
    (hw_device credentials m_credentials m_device : json) (level : Z)
    (Hliquid : is_liquid net_params = true)
    (Hcredentials : signer.get_credentials_json credentials = Ok m_credentials)
    (Hdevice : signer.get_device_json hw_device m_credentials = Ok m_device)
    (Hlevel : j_uint32ref m_device "supports_liquid" = Ok level) :
  let s := {| signer.m_is_main_net := is_main_net net_params;
              signer.m_is_liquid := is_liquid net_params;
              signer.m_btc_version := btc_version net_params;
              signer.m_credentials := m_credentials;
              signer.m_device := m_device;
              signer.m_master_key := None;
              signer.m_master_blinding_key := None;
              signer.m_cached_bip32_xpubs := ∅ |} in
  (level = liquid_support_level.none →
     signer.new net_params hw_device credentials
     = Throw (user_error signer.id_the_hardware_wallet_you_are))
  ∧ (level ≠ liquid_support_level.none →
     signer.check_liquid_support s = Ok tt
     ∧ signer.new net_params hw_device credentials = signer.init_master_keys s).
Proof.
  intros s. unfold signer.new. rewrite Hcredentials. simpl. rewrite Hdevice. simpl.
  fold s. unfold signer.check_liquid_support, signer.get_liquid_support.
  simpl. rewrite Hliquid, Hlevel. simpl.
  split.
  - intros ->. done.
  - intros Hne. apply Z.eqb_neq in Hne. rewrite Hne. done.
Qed.

(** *** The master blinding key *)

Lemma copy_at_end (dst src : list byte) :
  (length src ≤ length dst)%nat →
  signer.copy_at dst (length dst - length src) src = take (length dst - length src) dst ++ src.
Proof.
  intros Hle. unfold signer.copy_at.
  rewrite drop_ge by lia. by rewrite app_nil_r.
Qed.

(** C10: [set_master_blinding_key] leaves the signer as it is on an empty
    string.  On a key that decodes to 64 bytes the signer then holds that
    key as given; on one of 32 bytes it holds 64 bytes, 32 zero bytes and
    then the key; either way [m_master_blinding_key] is the one member that
    changes.  Any other decoded length fails the assertion. *)
Theorem set_master_blinding_key_spec (blinding_key_hex : string) (key_bytes : list byte)
    (s : signer.t)
    (Hhex : blinding_key_hex ≠ "")
    (Hbytes : h2b blinding_key_hex = Ok key_bytes) :
  signer.set_master_blinding_key "" s = Ok s
  ∧ (length key_bytes = 64%nat ∨ length key_bytes = 32%nat →
     ∃ s' stored,
       signer.set_master_blinding_key blinding_key_hex s = Ok s'
       ∧ signer.m_master_blinding_key s' = Some stored
       ∧ signer.has_master_blinding_key s' = true
       ∧ signer.get_master_blinding_key s' = Ok stored
       ∧ length stored = 64%nat
       ∧ (length key_bytes = 64%nat → stored = key_bytes)
       ∧ (length key_bytes = 32%nat →
          stored = replicate 32 x00 ++ key_bytes
          ∧ take 32 stored = replicate 32 x00 ∧ drop 32 stored = key_bytes)
       ∧ signer.m_is_main_net s' = signer.m_is_main_net s
       ∧ signer.m_is_liquid s' = signer.m_is_liquid s
       ∧ signer.m_btc_version s' = signer.m_btc_version s
       ∧ signer.m_credentials s' = signer.m_credentials s
       ∧ signer.m_device s' = signer.m_device s
       ∧ signer.m_master_key s' = signer.m_master_key s
       ∧ signer.m_cached_bip32_xpubs s' = signer.m_cached_bip32_xpubs s)
  ∧ (length key_bytes ≠ 64%nat → length key_bytes ≠ 32%nat →
     signer.set_master_blinding_key blinding_key_hex s = Throw assertion_error).
Proof.
  split; [done|].
  unfold signer.set_master_blinding_key.
  rewrite bool_decide_eq_true_2 by done. rewrite Hbytes.
  pose proof (copy_at_end (replicate SHA512_LEN x00) key_bytes) as Hcopy.
  rewrite length_replicate in Hcopy.
  set (zeros := replicate SHA512_LEN x00) in *. simpl.
  split.
  - intros Hlen.
    assert (((length key_bytes =? SHA512_LEN)%nat || (length key_bytes =? 32)%nat) = true)
      as Hsize.
    { destruct Hlen as [-> | ->]; done. }
    rewrite Hsize. simpl.
    rewrite Hcopy by (destruct Hlen as [-> | ->]; unfold SHA512_LEN; lia).
    eexists _, (take (SHA512_LEN - length key_bytes) zeros ++ key_bytes).
    split; [reflexivity|].
    unfold signer.has_master_blinding_key, signer.get_master_blinding_key. simpl.
    split; [done|]. split; [done|]. split; [done|]. split; [|split; [|split]]; [| | |done].
    + rewrite length_app, length_take. unfold zeros. rewrite length_replicate.
      destruct Hlen as [-> | ->]; unfold SHA512_LEN; lia.
    + intros ->. done.
    + intros H32. rewrite H32.
      assert (take (SHA512_LEN - 32) zeros = replicate 32 x00) as -> by done.
      split_and!; [done| |].
      * by rewrite take_app_length' by done.
      * by rewrite drop_app_length' by done.
  - intros H64 H32.
    rewrite (proj2 (Nat.eqb_neq _ _)) by done.
    rewrite (proj2 (Nat.eqb_neq _ _)) by done. done.
Qed.


(** *** Compatibility *)

(** Signers whose device descriptors differ are incompatible. *)
Lemma is_compatible_with_device_differs (s other : signer.t) :
  signer.get_device s ≠ signer.get_device other →
  signer.is_compatible_with s other = Ok false.
Proof.
  intros Hne. unfold signer.is_compatible_with. by rewrite bool_decide_eq_true_2.
Qed.

(** When both signers export their credentials as JSON objects, the answer
    is the comparison of the devices and of the credentials without
    ["master_blinding_key"]. *)
Lemma is_compatible_with_objects (s other : signer.t) (mine theirs : gmap string json) :
  signer.get_credentials s = Ok (JObj mine) →
  signer.get_credentials other = Ok (JObj theirs) →
  signer.is_compatible_with s other
  = Ok (bool_decide (signer.get_device s = signer.get_device other
                     ∧ delete "master_blinding_key" mine = delete "master_blinding_key" theirs)).
Proof.
  intros Hmine Htheirs. unfold signer.is_compatible_with.
  case_bool_decide as Hdev.
  - rewrite bool_decide_eq_false_2; [done|]. by intros [? _].
  - rewrite Hmine, Htheirs. simpl. f_equal.
    apply bool_decide_ext. split.
    + intros [= Heq]. done.
    + intros [_ ->]. done.
Qed.

(** Changing one entry of a device descriptor gives a different
    descriptor. *)
Lemma device_flag_changed (device : gmap string json) (flag : string) (old new : json) :
  device !! flag = Some old → new ≠ old → JObj (<[ flag := new ]> device) ≠ JObj device.
Proof.
  intros Hold Hne [= Heq].
  assert (<[ flag := new ]> device !! flag = Some old) as Hl by (by rewrite Heq).
  rewrite lookup_insert_eq in Hl. congruence.
Qed.

(** The exported credentials are the stored ones, with the blinding key
    added on Liquid. *)
Lemma get_credentials_not_liquid (s : signer.t) :
  signer.m_is_liquid s = false → signer.get_credentials s = Ok (signer.m_credentials s).
Proof. intros Hl. unfold signer.get_credentials. by rewrite Hl. Qed.

(** Hex decoding inverts hex encoding. *)
Lemma hex_to_bytes_b2h (bs : list byte) : hex_to_bytes (b2h bs) = Some bs.
Proof.
  induction bs as [|b bs IH]; [done|].
  cbn [b2h hex_to_bytes]. rewrite IH.
  by destruct b.
Qed.

End signer_properties.

(** *** The scenarios, run on the small instance *)

Section signer_scenarios.
#[local] Existing Instance toy.wally.

Lemma new_software_signer :
  signer.new (H := toy.wally) toy.mainnet JNull toy.software_credentials
  = Ok toy.software_signer.
Proof. vm_compute. reflexivity. Qed.

Lemma new_hardware_signer :
  signer.new (H := toy.wally) toy.mainnet (toy.hardware_device 0) JNull
  = Ok toy.hardware_signer.
Proof. vm_compute. reflexivity. Qed.

(** C5 as stated fails: after the two calls the cache does not hold the
    master path [[]]; it holds three paths, not four. *)
Lemma get_bip32_xpub_master_path_not_cached :
  signer.new toy.mainnet JNull toy.software_credentials = Ok toy.software_signer
  ∧ signer.m_cached_bip32_xpubs toy.software_signer = ∅
  ∧ signer.get_bip32_xpub address_5_path toy.software_signer
    = Ok ("m/2147483732/2147483648/2147483648/0/5", toy.software_signer_1)
  ∧ signer.get_bip32_xpub address_6_path toy.software_signer_1
    = Ok ("m/2147483732/2147483648/2147483648/0/6", toy.software_signer_2)
  ∧ signer.m_cached_bip32_xpubs toy.software_signer_2 !! [] = None
  ∧ size (signer.m_cached_bip32_xpubs toy.software_signer_2) = 3%nat
  ∧ dom (signer.m_cached_bip32_xpubs toy.software_signer_2)
    ≠ ({[ []; account_path; address_5_path; address_6_path ]} : gset (list Z)).
Proof.
  assert (signer.m_cached_bip32_xpubs toy.software_signer_2 !! [] = None) as Hroot
    by (vm_compute; reflexivity).
  split_and!.
  - exact new_software_signer.
  - reflexivity.
  - vm_compute. reflexivity.
  - vm_compute. reflexivity.
  - exact Hroot.
  - vm_compute. reflexivity.
  - intros Heq. apply not_elem_of_dom in Hroot. apply Hroot. rewrite Heq. set_solver.
Qed.

Lemma get_bip32_xpub_prefix_promotion_witness :
  ∃ s1 s2 : signer.t,
    signer.get_bip32_xpub address_5_path toy.software_signer
    = Ok ("m/2147483732/2147483648/2147483648/0/5", s1)
    ∧ signer.get_bip32_xpub address_6_path s1
      = Ok ("m/2147483732/2147483648/2147483648/0/6", s2)
    ∧ dom (signer.m_cached_bip32_xpubs s2)
      = ({[ account_path; address_5_path; address_6_path ]} : gset (list Z))
    ∧ signer.m_cached_bip32_xpubs s2 !! account_path
      = Some "m/2147483732/2147483648/2147483648"
    ∧ ∀ other_master : option string,
        signer.get_bip32_xpub address_6_path (signer.with_master_key s1 other_master)
        = Ok ("m/2147483732/2147483648/2147483648/0/6",
              signer.with_master_key s2 other_master).
Proof.
  exact (get_bip32_xpub_prefix_promotion (H := toy.wally) toy.software_signer
           "m" "m/2147483732/2147483648/2147483648"
           "m/2147483732/2147483648/2147483648/0/5"
           "m/2147483732/2147483648/2147483648"
           "m/2147483732/2147483648/2147483648/0/6"
           eq_refl eq_refl eq_refl eq_refl eq_refl eq_refl).
Defined.

Lemma cache_bip32_xpub_conflict_witness :
  let s1 := signer.with_cached_bip32_xpubs toy.software_signer {[ [harden 44] := "xpubA" ]} in
  (("xpubB" : string) ≠ "xpubA" →
   signer.cache_bip32_xpub [harden 44] "xpubB" s1 = Throw assertion_error)
  ∧ (("xpubB" : string) = "xpubA" →
     signer.cache_bip32_xpub [harden 44] "xpubB" s1 = Ok (false, s1))
  ∧ (∀ (s2 s3 : signer.t) (xpub : string),
        signer.get_bip32_xpub [harden 44] s2 = Ok (xpub, s3) →
        signer.get_bip32_xpub [harden 44] s3 = Ok (xpub, s3)).
Proof.
  exact (cache_bip32_xpub_conflict (H := toy.wally) [harden 44] "xpubA" "xpubB"
           toy.software_signer _ true eq_refl).
Defined.

Lemma new_liquid_support_witness :
  signer.new (H := toy.wally) toy.liquid (toy.hardware_device 0) JNull
  = Throw (user_error signer.id_the_hardware_wallet_you_are)
  ∧ signer.new (H := toy.wally) toy.liquid (toy.hardware_device 1) JNull
    = signer.init_master_keys
        (@signer.Build_t toy.wally true true 57 JNull (toy.hardware_device_json 1) None None ∅).
Proof.
  split.
  - refine (proj1 (new_liquid_support (H := toy.wally) toy.liquid (toy.hardware_device 0) JNull
                     JNull (toy.hardware_device_json 0) 0 eq_refl eq_refl _ eq_refl) eq_refl).
    vm_compute. reflexivity.
  - refine (proj2 (proj2 (new_liquid_support (H := toy.wally) toy.liquid (toy.hardware_device 1)
                            JNull JNull (toy.hardware_device_json 1) 1 eq_refl eq_refl _ eq_refl)
                     _)).
    + vm_compute. reflexivity.
    + discriminate.
Defined.

(** C9 at two hardware signers on Bitcoin with the same device: the
    descriptors are equal and the credentials are both null, and the call
    throws, from [erase] on the null credentials, where the claim has it
    return [true]. *)
Lemma is_compatible_with_null_credentials :
  signer.new (H := toy.wally) toy.mainnet (toy.hardware_device 0) JNull = Ok toy.hardware_signer
  ∧ signer.get_device toy.hardware_signer = signer.get_device toy.hardware_signer
  ∧ signer.get_credentials toy.hardware_signer = Ok JNull
  ∧ signer.is_compatible_with toy.hardware_signer toy.hardware_signer = Throw json_error.
Proof. split_and!; [exact new_hardware_signer|done|done|vm_compute; reflexivity]. Qed.

Lemma set_master_blinding_key_spec_witness :
  signer.set_master_blinding_key "" toy.software_signer = Ok toy.software_signer
  ∧ ∃ s',
      signer.set_master_blinding_key toy.blinding_key_32_hex toy.software_signer = Ok s'
      ∧ signer.m_master_blinding_key s' = Some (replicate 32 x00 ++ toy.blinding_key_32)
      ∧ signer.m_credentials s' = signer.m_credentials toy.software_signer
      ∧ signer.m_master_key s' = signer.m_master_key toy.software_signer.
Proof.
  pose proof (set_master_blinding_key_spec (H := toy.wally) toy.blinding_key_32_hex
                toy.blinding_key_32 toy.software_signer ltac:(discriminate) eq_refl)
    as (Hempty & Hstored & _).
  split; [exact Hempty|].
  destruct (Hstored (or_intror eq_refl))
    as (s' & stored & Hset & Hkey & _ & _ & _ & _ & H32 & _ & _ & _ & Hcred & _ & Hmaster & _).
  exists s'. destruct (H32 eq_refl) as (-> & _). done.
Defined.

End signer_scenarios.

(** * Properties of the PSBT wrapper *)

(** ** Version round trip *)

Section version_round_trip.
Context `{WallyPsbtLaws} `{Session}.

(** Parsing a version-[v] PSBT, for [v] 0 or 2. *)
Lemma from_base64_Ok (psbt_base64 : string) (is_liquid : bool) (p : wally_psbt.t) (v : Z) :
  wally_psbt_from_base64 psbt_base64 0 = Some p →
  wally_psbt.is_elements p = is_liquid →
  wally_psbt.version p = v → v = 0 ∨ v = 2 →
  ∃ q, wally_psbt_set_version p 0 WALLY_PSBT_VERSION_2 = Some q
    ∧ Psbt.from_base64 psbt_base64 is_liquid
      = Ok {| Psbt.m_original_version := v; Psbt.m_is_liquid := is_liquid; Psbt.m_psbt := q |}.
Proof.
  intros Hdecode Hel Hv Hrange.
  assert (is_Some (wally_psbt_set_version p 0 WALLY_PSBT_VERSION_2)) as [q Hq].
  { destruct Hrange as [->| ->].
    - by eapply set_version_upgrade.
    - unfold WALLY_PSBT_VERSION_2. rewrite <- Hv. rewrite set_version_same. eauto. }
  exists q. split; [done|].
  unfold Psbt.from_base64. rewrite Hdecode. simpl.
  rewrite bool_decide_eq_false_2 by (intros Hne; by apply Hne).
  rewrite Hq. simpl. rewrite Hv.
  by destruct Hrange as [->| ->].
Qed.

(** C4: a PSBT whose on-wire version [v] is 0 or 2 parses to a wrapper that
    records [v] and holds a version-2 PSBT; [to_base64] gives a string that
    decodes to a version-[v] PSBT; and parsing that string gives the same
    wrapper, original version included. *)
Theorem version_round_trip (psbt_base64 : string) (is_liquid include_redundant : bool)
    (p : wally_psbt.t) (v : Z)
    (Hdecode : wally_psbt_from_base64 psbt_base64 0 = Some p)
    (Helements : wally_psbt.is_elements p = is_liquid)
    (Hversion : wally_psbt.version p = v)
    (Hv : v = 0 ∨ v = 2) :
  ∃ (psbt : Psbt.t) (out : string),
    Psbt.from_base64 psbt_base64 is_liquid = Ok psbt
    ∧ Psbt.m_original_version psbt = v
    ∧ wally_psbt.version (Psbt.m_psbt psbt) = WALLY_PSBT_VERSION_2
    ∧ Psbt.to_base64 psbt include_redundant = Ok out
    ∧ (∃ q, wally_psbt_from_base64 out 0 = Some q ∧ wally_psbt.version q = v)
    ∧ Psbt.from_base64 out is_liquid = Ok psbt.
Proof.
  destruct (from_base64_Ok psbt_base64 is_liquid p v) as (q & Hq & Hparse); [done..|].
  destruct (set_version_fields _ _ _ _ Hq) as [Hqv Hqe].
  set (flags := if include_redundant then WALLY_PSBT_SERIALIZE_FLAG_REDUNDANT else 0).
  destruct (base64_round_trip psbt_base64 p flags Hdecode) as (out & Hencode & Hdecode').
  assert (Psbt.to_base64
            {| Psbt.m_original_version := v; Psbt.m_is_liquid := is_liquid; Psbt.m_psbt := q |}
            include_redundant = Ok out) as Hser.
  { unfold Psbt.to_base64. simpl. destruct Hv as [->| ->].
    - rewrite bool_decide_eq_true_2 by done.
      rewrite clone_alloc_copy. simpl.
      rewrite (set_version_downgrade psbt_base64 p q) by done. simpl.
      fold flags. by rewrite Hencode.
    - rewrite bool_decide_eq_false_2 by (intros Hne; by apply Hne).
      assert (q = p) as ->.
      { unfold WALLY_PSBT_VERSION_2 in Hq. rewrite <- Hversion in Hq.
        rewrite set_version_same in Hq. congruence. }
      simpl. fold flags. by rewrite Hencode. }
  eexists _, out. split_and!; [exact Hparse|done|done|exact Hser|eauto|].
  destruct (from_base64_Ok out is_liquid p v) as (q' & Hq' & Hparse'); [done..|].
  rewrite Hparse'. congruence.
Qed.

End version_round_trip.

(** ** Reading the enriched JSON *)

(** What the accessors return when they return. *)
Lemma j_ref_Ok {A} (get : json → result A) (src : json) (key : string) (a : A) :
  j_ref get src key = Ok a → ∃ v, json_ops.find src key = Some v ∧ get v = Ok a.
Proof.
  unfold j_ref, json_ops.at_, json_ops.find. destruct src; try done.
  destruct (m !! key) as [v|]; [|done]. simpl. eauto.
Qed.

Lemma j_opt_Ok {A} (get : json → result A) (src : json) (key : string) (o : option A) :
  j_opt get src key = Ok o →
  match json_ops.find src key with
  | Some v => ∃ a, get v = Ok a ∧ o = Some a
  | None => o = None
  end.
Proof.
  unfold j_opt. destruct (json_ops.find src key) as [v|]; [|by intros [= <-]].
  destruct (get v) as [a|]; simpl; [|done]. intros [= <-]. eauto.
Qed.

Lemma get_string_Ok (v : json) (s : string) : json_ops.get_string v = Ok s → v = JStr s.
Proof. destruct v; try done. by intros [= ->]. Qed.

Lemma get_bool_Ok (v : json) (b : bool) : json_ops.get_bool v = Ok b → v = JBool b.
Proof. destruct v; try done. by intros [= ->]. Qed.

Lemma get_uint64_Ok (v : json) (n : Z) : json_ops.get_uint64 v = Ok n → ∃ m, v = JNum m ∧ n = wrap64 m.
Proof. destruct v; try done. intros [= <-]. eauto. Qed.

Lemma j_str_or_empty_error (j : json) (e : string) :
  j_str_or_empty j "error" = Ok e → e = error_of j.
Proof.
  unfold j_str_or_empty, j_str, error_of.
  destruct (j_opt json_ops.get_string j "error") as [o|] eqn:Ho; simpl; [|done].
  intros [= <-]. apply j_opt_Ok in Ho.
  destruct (json_ops.find j "error") as [v|]; [|by subst].
  destruct Ho as (a & Ha & ->). apply get_string_Ok in Ha. by subst.
Qed.

Lemma j_bool_or_false_skip_signing (j : json) (b : bool) :
  j_bool_or_false j "skip_signing" = Ok b → b = skip_signing_of j.
Proof.
  unfold j_bool_or_false, j_bool, skip_signing_of.
  destruct (j_opt json_ops.get_bool j "skip_signing") as [o|] eqn:Ho; simpl; [|done].
  intros [= <-]. apply j_opt_Ok in Ho.
  destruct (json_ops.find j "skip_signing") as [v|]; [|by subst].
  destruct Ho as (a & Ha & ->). apply get_bool_Ok in Ha. by subst.
Qed.

Lemma j_amountref_satoshi (j : json) (n : Z) : j_amountref j = Ok n → n = satoshi_of j.
Proof.
  intros Hn. apply j_ref_Ok in Hn as (v & Hv & Hget).
  apply get_uint64_Ok in Hget as (m & -> & ->). unfold satoshi_of. by rewrite Hv.
Qed.

Lemma j_assetref_liquid (j : json) (a asset : string) :
  j_assetref true j = Ok a → bool_decide (a = asset) = has_asset asset j.
Proof.
  unfold j_assetref, j_strref. intros Ha. apply j_ref_Ok in Ha as (v & Hv & Hget).
  apply get_string_Ok in Hget as ->. unfold has_asset. rewrite Hv.
  apply bool_decide_ext. split; [by intros ->|by intros [= ->]].
Qed.

Lemma j_str_is_empty_scriptpubkey (j : json) (b : bool) :
  j_str_is_empty j "scriptpubkey" = Ok b → b = is_fee_output j.
Proof.
  unfold j_str_is_empty, j_str_or_empty, j_str, is_fee_output.
  destruct (j_opt json_ops.get_string j "scriptpubkey") as [o|] eqn:Ho; simpl; [|done].
  intros [= <-]. apply j_opt_Ok in Ho.
  destruct (json_ops.find j "scriptpubkey") as [v|]; [|by subst].
  destruct Ho as (a & Ha & ->). apply get_string_Ok in Ha. by subst.
Qed.

(** ** The fee sums of [get_details] *)

Lemma wrap64_idemp (a : Z) : wrap64 (wrap64 a) = wrap64 a.
Proof. unfold wrap64. apply Zmod_mod. Qed.

Lemma wrap64_add_l (a b : Z) : wrap64 (wrap64 a + b) = wrap64 (a + b).
Proof. unfold wrap64. apply Zplus_mod_idemp_l. Qed.

Lemma wrap64_sub_l (a b : Z) : wrap64 (wrap64 a - b) = wrap64 (a - b).
Proof. unfold wrap64. apply Zminus_mod_idemp_l. Qed.

Section fee_sums.
Context `{WallyPsbt} `{Session}.

(** Whether the asset test of the two loops succeeds, and what it gives. *)
Lemma counted_Ok (is_liquid : bool) (policy_asset : string) (j : json) (b : bool) :
  (if negb is_liquid then Ok true
   else (λ a, bool_decide (a = policy_asset)) <$> j_assetref is_liquid j) = Ok b →
  b = counted is_liquid policy_asset j.
Proof.
  unfold counted. destruct is_liquid; simpl; [|by intros [= <-]].
  destruct (j_strref j "asset_id") as [a|] eqn:Ha; simpl; [|done].
  intros [= <-]. by apply j_assetref_liquid.
Qed.

Lemma tally_input_Ok (is_liquid : bool) (policy_asset : string) (st st' : Psbt.fee_state)
    (input : json) :
  Psbt.tally_input is_liquid policy_asset st input = Ok st' →
  wrap64 (Psbt.sum st') = wrap64 (Psbt.sum st + counted_input is_liquid policy_asset input)
  ∧ (Psbt.sum st = wrap64 (Psbt.sum st) → Psbt.sum st' = wrap64 (Psbt.sum st'))
  ∧ Psbt.explicit_fee st' = Psbt.explicit_fee st
  ∧ Psbt.error st' = (if bool_decide (error_of input = "") then Psbt.error st else error_of input)
  ∧ Psbt.use_error st'
    = Psbt.use_error st || (negb (bool_decide (error_of input = "")) && negb (skip_signing_of input)).
Proof.
  unfold Psbt.tally_input, counted_input.
  destruct (j_str_or_empty input "error") as [e|] eqn:He; simpl; [|done].
  apply j_str_or_empty_error in He as ->.
  case_bool_decide as Herr; simpl.
  - destruct (if negb is_liquid then _ else _) as [b|] eqn:Hb; simpl; [|done].
    apply counted_Ok in Hb as ->.
    destruct (counted is_liquid policy_asset input); simpl.
    + destruct (j_amountref input) as [n|] eqn:Hn; simpl; [|done].
      apply j_amountref_satoshi in Hn as ->. intros [= <-]. simpl.
      unfold amount_add. rewrite wrap64_idemp, orb_false_r. done.
    + intros [= <-]. rewrite Z.add_0_r, orb_false_r. done.
  - destruct (j_bool_or_false input "skip_signing") as [b|] eqn:Hb; simpl; [|done].
    apply j_bool_or_false_skip_signing in Hb as ->. intros [= <-]. simpl.
    rewrite Z.add_0_r. split_and!; try done.
    by destruct (skip_signing_of input), (Psbt.use_error st).
Qed.

Lemma tally_output_Ok (is_liquid : bool) (policy_asset : string) (st st' : Psbt.fee_state)
    (txout : json) :
  Psbt.tally_output is_liquid policy_asset st txout = Ok st' →
  wrap64 (Psbt.sum st') = wrap64 (Psbt.sum st - spent_output is_liquid policy_asset txout)
  ∧ (Psbt.sum st = wrap64 (Psbt.sum st) → Psbt.sum st' = wrap64 (Psbt.sum st'))
  ∧ wrap64 (Psbt.explicit_fee st')
    = wrap64 (Psbt.explicit_fee st + fee_output is_liquid policy_asset txout)
  ∧ (Psbt.explicit_fee st = wrap64 (Psbt.explicit_fee st) →
     Psbt.explicit_fee st' = wrap64 (Psbt.explicit_fee st'))
  ∧ Psbt.error st' = Psbt.error st
  ∧ Psbt.use_error st' = Psbt.use_error st.
Proof.
  unfold Psbt.tally_output, spent_output, fee_output.
  destruct (if negb is_liquid then _ else _) as [b|] eqn:Hb; simpl; [|done].
  apply counted_Ok in Hb as ->.
  destruct (counted is_liquid policy_asset txout); simpl.
  - destruct (if is_liquid then _ else _) as [b|] eqn:Hb; simpl; [|done].
    assert (b = is_liquid && is_fee_output txout) as ->.
    { destruct is_liquid; simpl; [by apply j_str_is_empty_scriptpubkey|congruence]. }
    destruct (j_amountref txout) as [n|] eqn:Hn; simpl; [|done].
    apply j_amountref_satoshi in Hn as ->.
    destruct (is_liquid && is_fee_output txout); simpl; intros [= <-]; simpl;
      unfold amount_add, amount_sub; rewrite ?wrap64_idemp, ?Z.sub_0_r, ?Z.add_0_r; done.
  - intros [= <-]. rewrite Z.sub_0_r, Z.add_0_r. done.
Qed.

Lemma tally_inputs_Ok (is_liquid : bool) (policy_asset : string) (inputs : list json)
    (st st' : Psbt.fee_state) :
  foldlM (Psbt.tally_input is_liquid policy_asset) st inputs = Ok st' →
  wrap64 (Psbt.sum st')
  = wrap64 (Psbt.sum st + Z_sum (counted_input is_liquid policy_asset) inputs)
  ∧ (Psbt.sum st = wrap64 (Psbt.sum st) → Psbt.sum st' = wrap64 (Psbt.sum st'))
  ∧ Psbt.explicit_fee st' = Psbt.explicit_fee st
  ∧ (Psbt.error st' ≠ "" ↔ Psbt.error st ≠ "" ∨ Exists has_error inputs)
  ∧ (Psbt.use_error st' = true ↔
     Psbt.use_error st = true
     ∨ Exists (λ input, has_error input ∧ skip_signing_of input = false) inputs).
Proof.
  revert st. induction inputs as [|input inputs IH]; intros st; simpl.
  - intros [= <-]. rewrite Z.add_0_r. split_and!; try done.
    + split; [by left|]. intros [?|Hex]; [done|]. by apply Exists_nil in Hex.
    + split; [by left|]. intros [?|Hex]; [done|]. by apply Exists_nil in Hex.
  - destruct (Psbt.tally_input is_liquid policy_asset st input) as [st1|] eqn:Hstep; simpl;
      [|done].
    intros Hfold. apply IH in Hfold as (Hsum & Hrange & Hfee & Herr & Huse).
    apply tally_input_Ok in Hstep as (Hsum1 & Hrange1 & Hfee1 & Herr1 & Huse1).
    split_and!.
    + rewrite Hsum, <- wrap64_add_l, Hsum1, wrap64_add_l. f_equal. lia.
    + eauto.
    + congruence.
    + rewrite Herr, Herr1, Exists_cons. unfold has_error at 2.
      case_bool_decide; tauto.
    + rewrite Huse, Huse1, Exists_cons. unfold has_error at 2.
      case_bool_decide; destruct (Psbt.use_error st), (skip_signing_of input); simpl;
        intuition congruence.
Qed.

Lemma tally_outputs_Ok (is_liquid : bool) (policy_asset : string) (outputs : list json)
    (st st' : Psbt.fee_state) :
  foldlM (Psbt.tally_output is_liquid policy_asset) st outputs = Ok st' →
  wrap64 (Psbt.sum st')
  = wrap64 (Psbt.sum st - Z_sum (spent_output is_liquid policy_asset) outputs)
  ∧ (Psbt.sum st = wrap64 (Psbt.sum st) → Psbt.sum st' = wrap64 (Psbt.sum st'))
  ∧ wrap64 (Psbt.explicit_fee st')
    = wrap64 (Psbt.explicit_fee st + Z_sum (fee_output is_liquid policy_asset) outputs)
  ∧ (Psbt.explicit_fee st = wrap64 (Psbt.explicit_fee st) →
     Psbt.explicit_fee st' = wrap64 (Psbt.explicit_fee st'))
  ∧ Psbt.error st' = Psbt.error st
  ∧ Psbt.use_error st' = Psbt.use_error st.
Proof.
  revert st. induction outputs as [|txout outputs IH]; intros st; simpl.
  - intros [= <-]. rewrite Z.add_0_r, Z.sub_0_r. done.
  - destruct (Psbt.tally_output is_liquid policy_asset st txout) as [st1|] eqn:Hstep; simpl;
      [|done].
    intros Hfold. apply IH in Hfold as (Hsum & Hrange & Hfee & Hfrange & Herr & Huse).
    apply tally_output_Ok in Hstep as (Hsum1 & Hrange1 & Hfee1 & Hfrange1 & Herr1 & Huse1).
    split_and!.
    + rewrite Hsum, <- wrap64_sub_l, Hsum1, wrap64_sub_l. f_equal. lia.
    + eauto.
    + rewrite Hfee, <- wrap64_add_l, Hfee1, wrap64_add_l. f_equal. lia.
    + eauto.
    + congruence.
    + congruence.
Qed.

(** Both loops: the sums are those of the views, modulo [2^64]; the last
    error is non-empty exactly when some input carries an error; and
    [use_error] is set exactly when such an input is not skipped. *)
Lemma tally_Ok (is_liquid : bool) (policy_asset : string) (inputs outputs : list json)
    (st : Psbt.fee_state) :
  Psbt.tally is_liquid policy_asset inputs outputs = Ok st →
  Psbt.sum st = wrap64 (Z_sum (counted_input is_liquid policy_asset) inputs
                        - Z_sum (spent_output is_liquid policy_asset) outputs)
  ∧ Psbt.explicit_fee st = wrap64 (Z_sum (fee_output is_liquid policy_asset) outputs)
  ∧ (Psbt.error st ≠ "" ↔ Exists has_error inputs)
  ∧ (Psbt.use_error st = true ↔
     Exists (λ input, has_error input ∧ skip_signing_of input = false) inputs).
Proof.
  unfold Psbt.tally.
  destruct (foldlM (Psbt.tally_input is_liquid policy_asset) _ inputs) as [st1|] eqn:Hin; simpl;
    [|done].
  intros Hout.
  apply tally_inputs_Ok in Hin as (Hsum1 & Hrange1 & Hfee1 & Herr1 & Huse1).
  apply tally_outputs_Ok in Hout as (Hsum & Hrange & Hfee & Hfrange & Herr & Huse).
  simpl in *. split_and!.
  - rewrite Hrange by (apply Hrange1; done).
    rewrite Hsum, <- wrap64_sub_l, Hsum1, wrap64_sub_l. done.
  - rewrite Hfrange by (rewrite Hfee1; done). rewrite Hfee, Hfee1. done.
  - rewrite Herr, Herr1. intuition congruence.
  - rewrite Huse, Huse1. intuition congruence.
Qed.

(** C1, as the code has it: on Liquid, once the inputs and outputs are
    enriched and summed, [get_details] goes on to build its result when the
    running sum (policy-asset satoshi of the error-free inputs, less those of
    the policy-asset outputs that have a script) equals the explicit fee (the
    satoshi of the policy-asset outputs with an empty script; an output of
    another asset is in neither sum, with or without a script) or when some
    input carries an error, skipped or not; when the sums differ and no
    input carries an error it fails the assertion.  So whenever it succeeds,
    the sums are equal or an input error is recorded. *)
Theorem get_details_fee_assertion (psbt : Psbt.t) (details utxos : json) (tx : Tx.t)
    (ins : Psbt.inputs_state) (outputs : list json) (st : Psbt.fee_state)
    (Hliquid : Psbt.m_is_liquid psbt = true)
    (Htx : Psbt.extract psbt = Ok tx)
    (Hutxos : json_ops.at_ details "utxos" = Ok utxos)
    (Hins : Psbt.inputs_to_json psbt tx utxos = Ok ins)
    (Houts : Psbt.outputs_to_json (Psbt.st_psbt ins) (Psbt.st_tx ins) (Psbt.st_wallet_assets ins)
             = Ok outputs)
    (Hst : Psbt.tally true (get_policy_asset get_network_parameters) (Psbt.st_inputs ins) outputs
           = Ok st) :
  let policy_asset := get_policy_asset get_network_parameters in
  let inputs := Psbt.st_inputs ins in
  let balanced :=
    wrap64 (Z_sum (counted_input true policy_asset) inputs
            - Z_sum (spent_output true policy_asset) outputs)
    = wrap64 (Z_sum (fee_output true policy_asset) outputs) in
  (balanced ∨ Exists has_error inputs →
   Psbt.get_details psbt details
   = (result ← Psbt.details_json true (Psbt.st_tx ins) inputs outputs st;
      Ok (result, Psbt.st_psbt ins)))
  ∧ (¬ balanced → ¬ Exists has_error inputs →
     Psbt.get_details psbt details = Throw assertion_error)
  ∧ (∀ result psbt', Psbt.get_details psbt details = Ok (result, psbt') →
     balanced ∨ Exists has_error inputs).
Proof.
  intros policy_asset inputs balanced.
  pose proof (tally_Ok _ _ _ _ _ Hst) as (Hsum & Hfee & Herr & _).
  fold policy_asset inputs in Hsum, Hfee, Herr.
  assert (balanced ↔ Psbt.sum st = Psbt.explicit_fee st) as Hbal.
  { unfold balanced. rewrite Hsum, Hfee. done. }
  assert (Psbt.get_details psbt details
          = (GDK_RUNTIME_ASSERT ((Psbt.sum st =? Psbt.explicit_fee st)
                                 || negb (bool_decide (Psbt.error st = "")));;
             result ← Psbt.details_json true (Psbt.st_tx ins) inputs outputs st;
             Ok (result, Psbt.st_psbt ins))) as Hrun.
  { unfold Psbt.get_details. rewrite Htx. simpl. rewrite Hutxos. simpl.
    rewrite Hins. simpl. rewrite Houts. simpl. rewrite Hliquid, Hst. done. }
  assert (balanced ∨ Exists has_error inputs ↔
          (Psbt.sum st =? Psbt.explicit_fee st) || negb (bool_decide (Psbt.error st = "")) = true)
    as Hcond.
  { rewrite orb_true_iff, Z.eqb_eq, negb_true_iff, bool_decide_eq_false, Hbal, <- Herr. done. }
  split_and!.
  - intros Hok. apply Hcond in Hok. rewrite Hrun, Hok. done.
  - intros Hnb Hne. rewrite Hrun.
    destruct ((Psbt.sum st =? Psbt.explicit_fee st) || negb (bool_decide (Psbt.error st = "")))
      eqn:Hc; [|done].
    pose proof (proj2 Hcond eq_refl). tauto.
  - intros result psbt' Hok. apply Hcond. rewrite Hrun in Hok.
    destruct ((Psbt.sum st =? Psbt.explicit_fee st) || negb (bool_decide (Psbt.error st = "")));
      done.
Qed.

End fee_sums.

(** ** Non-wallet inputs *)

Lemma set_find_ne (j j' : json) (key key' : string) (v : json) :
  json_ops.set j key v = Ok j' → key' ≠ key → json_ops.find j' key' = json_ops.find j key'.
Proof.
  destruct j; try done; intros [= <-] Hne; simpl.
  - by rewrite lookup_singleton_ne.
  - by rewrite lookup_insert_ne.
Qed.

Lemma set_find_eq (j j' : json) (key : string) (v : json) :
  json_ops.set j key v = Ok j' → json_ops.find j' key = Some v.
Proof.
  destruct j; try done; intros [= <-]; simpl.
  - by rewrite lookup_singleton_eq.
  - by rewrite lookup_insert_eq.
Qed.

Lemma set_object (m : gmap string json) (key : string) (v : json) :
  json_ops.set (JObj m) key v = Ok (JObj (<[ key := v ]> m)).
Proof. done. Qed.

Lemma set_pset_field_find_ne (fields : gmap Z (list byte)) (j j' : json) (key key' : string)
    (k : Z) (do_reverse : bool) :
  Psbt.set_pset_field fields j key k do_reverse = Ok j' → key' ≠ key →
  json_ops.find j' key' = json_ops.find j key'.
Proof.
  unfold Psbt.set_pset_field. destruct (Psbt.get_field fields k); [|done].
  apply set_find_ne.
Qed.

Section non_wallet_inputs.
Context `{WallyPsbt} `{Session}.

(** A non-wallet input that is enriched is marked [skip_signing]. *)
Lemma non_wallet_input_skip_signing (psbt : Psbt.t) (psbt_input : wally_psbt_input.t)
    (txin_utxo : wally_tx_output.t) (utxo utxo' : json) :
  Psbt.non_wallet_input_to_json psbt psbt_input txin_utxo utxo = Ok utxo' →
  json_ops.find utxo' "skip_signing" = Some (JBool true).
Proof.
  unfold Psbt.non_wallet_input_to_json.
  destruct (json_ops.set utxo "skip_signing" (JBool true)) as [u1|] eqn:H1; simpl; [|done].
  apply set_find_eq in H1.
  assert (∀ u2 : json,
            json_ops.find u2 "skip_signing" = Some (JBool true) →
            match Psbt.get_field (wally_psbt_input.psbt_fields psbt_input) Psbt.in_redeem_script with
            | Some redeem_script => json_ops.set u2 "redeem_script" (JStr (b2h redeem_script))
            | None => Ok u2
            end = Ok utxo' →
            json_ops.find utxo' "skip_signing" = Some (JBool true)) as Hredeem.
  { intros u2 Hu2. destruct (Psbt.get_field _ _); [|by intros [= <-]].
    intros Hset. by rewrite (set_find_ne _ _ _ _ _ Hset). }
  destruct (Psbt.m_is_liquid psbt); simpl.
  - destruct (wally_psbt_input.has_amount psbt_input).
    + destruct (json_ops.set u1 "satoshi" _) as [u2|] eqn:H2; simpl; [|done].
      destruct (Psbt.set_pset_field _ u2 "asset_id" _ _) as [u3|] eqn:H3; simpl; [|done].
      destruct (Psbt.set_pset_field _ u3 "value_blind_proof" _ _) as [u4|] eqn:H4; simpl; [|done].
      destruct (Psbt.set_pset_field _ u4 "asset_blind_proof" _ _) as [u5|] eqn:H5; simpl; [|done].
      apply Hredeem.
      rewrite (set_pset_field_find_ne _ _ _ _ _ _ _ H5) by done.
      rewrite (set_pset_field_find_ne _ _ _ _ _ _ _ H4) by done.
      rewrite (set_pset_field_find_ne _ _ _ _ _ _ _ H3) by done.
      by rewrite (set_find_ne _ _ _ _ _ H2).
    + destruct (json_ops.set u1 "error" _) as [u2|] eqn:H2; simpl; [|done].
      apply Hredeem. by rewrite (set_find_ne _ _ _ _ _ H2).
  - destruct (json_ops.set u1 "satoshi" _) as [u2|] eqn:H2; simpl; [|done].
    apply Hredeem. by rewrite (set_find_ne _ _ _ _ _ H2).
Qed.

(** On Liquid, a non-wallet input without an explicit amount is marked with
    the error, and its enrichment succeeds. *)
Lemma non_wallet_input_without_amount (psbt : Psbt.t) (psbt_input : wally_psbt_input.t)
    (txin_utxo : wally_tx_output.t) (m : gmap string json) :
  Psbt.m_is_liquid psbt = true →
  wally_psbt_input.has_amount psbt_input = false →
  ∃ utxo', Psbt.non_wallet_input_to_json psbt psbt_input txin_utxo (JObj m) = Ok utxo'
    ∧ json_ops.find utxo' "error" = Some (JStr "failed to unblind utxo").
Proof.
  intros Hliquid Hamount. unfold Psbt.non_wallet_input_to_json.
  rewrite Hliquid, Hamount. simpl.
  destruct (Psbt.get_field _ _); simpl; eexists; (split; [done|]); simpl.
  - rewrite lookup_insert_ne by done. by rewrite lookup_insert_eq.
  - by rewrite lookup_insert_eq.
Qed.

(** On Liquid, a non-wallet input with an explicit amount that lacks one of
    the three fields is not enriched: the user error of [set_pset_field]
    comes out. *)
Lemma non_wallet_input_missing_field (psbt : Psbt.t) (psbt_input : wally_psbt_input.t)
    (txin_utxo : wally_tx_output.t) (m : gmap string json) (key : string) :
  Psbt.m_is_liquid psbt = true →
  wally_psbt_input.has_amount psbt_input = true →
  first_missing_field (wally_psbt_input.pset_fields psbt_input) = Some key →
  Psbt.non_wallet_input_to_json psbt psbt_input txin_utxo (JObj m)
  = Throw (user_error (key +:+ " not found")).
Proof.
  intros Hliquid Hamount Hmissing. unfold Psbt.non_wallet_input_to_json.
  rewrite Hliquid, Hamount. simpl. unfold first_missing_field in Hmissing.
  unfold Psbt.set_pset_field, Psbt.get_field.
  destruct (wally_psbt_input.pset_fields psbt_input !! Psbt.in_explicit_asset) as [a|];
    [|by injection Hmissing as <-].
  simpl.
  destruct (wally_psbt_input.pset_fields psbt_input !! Psbt.in_value_proof) as [v|];
    [|by injection Hmissing as <-].
  simpl.
  destruct (wally_psbt_input.pset_fields psbt_input !! Psbt.in_asset_proof) as [b|];
    [done|by injection Hmissing as <-].
Qed.

(** The top-level ["error"] of the result is there exactly when [use_error]
    is set, provided [update_tx_info] adds none of its own. *)
Lemma details_json_error (is_liquid : bool) (tx : Tx.t) (inputs outputs : list json)
    (st : Psbt.fee_state) (result : json) :
  (∀ r r', update_tx_info tx r = Ok r' → json_ops.find r "error" = None →
           json_ops.find r' "error" = None) →
  Psbt.details_json is_liquid tx inputs outputs st = Ok result →
  json_ops.find result "error"
  = if Psbt.use_error st then Some (JStr (Psbt.error st)) else None.
Proof.
  intros Hinfo. unfold Psbt.details_json. simpl.
  destruct (update_tx_info tx _) as [r1|] eqn:H1; simpl; [|done].
  apply Hinfo in H1; [|done].
  destruct (json_ops.set r1 "txhash" _) as [r2|] eqn:H2; simpl; [|done].
  assert (json_ops.find r2 "error" = None) as Hr2 by (by rewrite (set_find_ne _ _ _ _ _ H2)).
  destruct (if Psbt.use_error st then _ else _) as [r3|] eqn:H3; simpl; [|done].
  assert (json_ops.find r3 "error"
          = if Psbt.use_error st then Some (JStr (Psbt.error st)) else None) as Hr3.
  { destruct (Psbt.use_error st); [|by injection H3 as <-].
    destruct r2; try done; simpl in *.
    - injection H3 as <-. simpl. by rewrite lookup_singleton_eq.
    - rewrite Hr2 in H3. injection H3 as <-. simpl. by rewrite lookup_insert_eq. }
  destruct (j_uint32ref r3 "calculated_fee_rate") as [rate|]; simpl; [|done].
  destruct (json_ops.set r3 "fee_rate" _) as [r4|] eqn:H4; simpl; [|done].
  destruct (if is_liquid then _ else _) as [r5|] eqn:H5; simpl; [|done].
  intros H6. rewrite (set_find_ne _ _ _ _ _ H6) by done.
  assert (json_ops.find r5 "error" = json_ops.find r4 "error") as ->.
  { destruct is_liquid; [by rewrite (set_find_ne _ _ _ _ _ H5)|by injection H5 as <-]. }
  by rewrite (set_find_ne _ _ _ _ _ H4).
Qed.

(** The round of [inputs_to_json] for a non-wallet input is its enrichment,
    appended to the inputs so far. *)
Lemma inputs_to_json_step_non_wallet (utxos : json) (st : Psbt.inputs_state) (i : nat)
    (psbt_input : wally_psbt_input.t) (txin : wally_tx_input.t) (m : gmap string json)
    (txhash_hex : string) (p : wally_psbt.t) (txin_utxo : wally_tx_output.t) :
  Psbt.get_input (Psbt.st_psbt st) i = Ok psbt_input →
  Psbt.tx_get_input (Psbt.st_tx st) i = Ok txin →
  input_to_json (Psbt.st_tx st) i = Ok (JObj m) →
  j_strref (JObj m) "txhash" = Ok txhash_hex →
  Psbt.find_wallet_utxo utxos txhash_hex (wally_psbt_input.index psbt_input) = Ok None →
  Psbt.ensure_input_utxo (Psbt.m_psbt (Psbt.st_psbt st)) i txhash_hex = Ok (p, txin_utxo) →
  Psbt.inputs_to_json_step utxos st i
  = (utxo ← Psbt.non_wallet_input_to_json (Psbt.with_psbt (Psbt.st_psbt st) p) psbt_input
              txin_utxo (JObj m);
     Ok {| Psbt.st_psbt := Psbt.with_psbt (Psbt.st_psbt st) p; Psbt.st_tx := Psbt.st_tx st;
           Psbt.st_inputs := Psbt.st_inputs st ++ [utxo];
           Psbt.st_wallet_assets := Psbt.st_wallet_assets st |}).
Proof.
  intros Hinput Htxin Hjson Htxhash Hnonwallet Hutxo.
  unfold Psbt.inputs_to_json_step.
  rewrite Hinput. simpl. rewrite Htxin. simpl. rewrite Hjson. simpl.
  rewrite Htxhash. simpl. rewrite Hnonwallet. simpl. rewrite Hutxo. done.
Qed.

(** C3, as the code has it.  In the round of [inputs_to_json] for a
    non-wallet input: every enrichment that succeeds sets [skip_signing] to
    true; on Liquid an input without [has_amount] is marked with
    ["failed to unblind utxo"] and the round succeeds; on Liquid an input with
    [has_amount] that lacks the explicit asset (0x13), the value proof (0x12)
    or the asset proof (0x14) is not marked: the round, and with it the call,
    throws the user error "<key> not found".  And the result of [get_details]
    has a top-level ["error"] exactly when some input carries an error and is
    not marked [skip_signing]. *)
Theorem non_wallet_input_enrichment (utxos : json) (st : Psbt.inputs_state) (i : nat)
    (psbt_input : wally_psbt_input.t) (txin : wally_tx_input.t) (m : gmap string json)
    (txhash_hex : string) (p : wally_psbt.t) (txin_utxo : wally_tx_output.t)
    (Hinput : Psbt.get_input (Psbt.st_psbt st) i = Ok psbt_input)
    (Htxin : Psbt.tx_get_input (Psbt.st_tx st) i = Ok txin)
    (Hjson : input_to_json (Psbt.st_tx st) i = Ok (JObj m))
    (Htxhash : j_strref (JObj m) "txhash" = Ok txhash_hex)
    (Hnonwallet : Psbt.find_wallet_utxo utxos txhash_hex (wally_psbt_input.index psbt_input)
                  = Ok None)
    (Hutxo : Psbt.ensure_input_utxo (Psbt.m_psbt (Psbt.st_psbt st)) i txhash_hex
             = Ok (p, txin_utxo)) :
  (∀ st', Psbt.inputs_to_json_step utxos st i = Ok st' →
     ∃ utxo, Psbt.st_inputs st' = Psbt.st_inputs st ++ [utxo]
       ∧ json_ops.find utxo "skip_signing" = Some (JBool true))
  ∧ (Psbt.m_is_liquid (Psbt.st_psbt st) = true →
     wally_psbt_input.has_amount psbt_input = false →
     ∃ st' utxo, Psbt.inputs_to_json_step utxos st i = Ok st'
       ∧ Psbt.st_inputs st' = Psbt.st_inputs st ++ [utxo]
       ∧ json_ops.find utxo "error" = Some (JStr "failed to unblind utxo")
       ∧ json_ops.find utxo "skip_signing" = Some (JBool true))
  ∧ (Psbt.m_is_liquid (Psbt.st_psbt st) = true →
     wally_psbt_input.has_amount psbt_input = true →
     ∀ key, first_missing_field (wally_psbt_input.pset_fields psbt_input) = Some key →
       Psbt.inputs_to_json_step utxos st i = Throw (user_error (key +:+ " not found")))
  ∧ (∀ (is_liquid : bool) (policy_asset : string) (tx : Tx.t) (inputs outputs : list json)
       (fee_st : Psbt.fee_state) (result : json),
       (∀ r r', update_tx_info tx r = Ok r' → json_ops.find r "error" = None →
                json_ops.find r' "error" = None) →
       Psbt.tally is_liquid policy_asset inputs outputs = Ok fee_st →
       Psbt.details_json is_liquid tx inputs outputs fee_st = Ok result →
       is_Some (json_ops.find result "error")
       ↔ Exists (λ input, has_error input ∧ skip_signing_of input = false) inputs).
Proof.
  pose proof (inputs_to_json_step_non_wallet utxos st i psbt_input txin m txhash_hex p txin_utxo
                Hinput Htxin Hjson Htxhash Hnonwallet Hutxo) as Hstep.
  split_and!.
  - intros st'. rewrite Hstep.
    destruct (Psbt.non_wallet_input_to_json _ _ _ _) as [utxo|] eqn:Hu; simpl; [|done].
    intros [= <-]. exists utxo. split; [done|].
    by eapply non_wallet_input_skip_signing.
  - intros Hliquid Hamount.
    destruct (non_wallet_input_without_amount (Psbt.with_psbt (Psbt.st_psbt st) p) psbt_input
                txin_utxo m Hliquid Hamount) as (utxo & Hu & Herr).
    eexists _, utxo. rewrite Hstep, Hu. simpl. split_and!; [done|done|done|].
    by eapply non_wallet_input_skip_signing.
  - intros Hliquid Hamount key Hkey. rewrite Hstep.
    by rewrite (non_wallet_input_missing_field (Psbt.with_psbt (Psbt.st_psbt st) p) psbt_input
                  txin_utxo m key Hliquid Hamount Hkey).
  - intros is_liquid policy_asset tx inputs outputs fee_st result Hinfo Htally Hdetails.
    rewrite (details_json_error _ _ _ _ _ _ Hinfo Hdetails).
    apply tally_Ok in Htally as (_ & _ & _ & <-).
    destruct (Psbt.use_error fee_st).
    + split; [done|eauto].
    + split; [intros [? [=]]|done].
Qed.

End non_wallet_inputs.

(** ** The change heuristic *)

Lemma foldlM_app {A B} (f : A → B → result A) (a : A) (l1 l2 : list B) :
  foldlM f a (l1 ++ l2) = (a' ← foldlM f a l1; foldlM f a' l2).
Proof.
  revert a. induction l1 as [|b l1 IH]; intros a; simpl; [done|].
  destruct (f a b) as [a1|]; simpl; [apply IH|done].
Qed.

Section change_detection_info.
Context `{WallyPsbt} `{Session}.

(** An output that reaches change detection has a script; it counts as the
    wallet's when the session has data for that script, and its asset is the
    one its enriched JSON carries. *)
Lemma classify_output_info (psbt : Psbt.t) (tx : Tx.t) (i : nat) (script : list byte)
    (jsonout enriched : json) (is_wallet_output : bool) (asset : string) :
  Psbt.classify_output psbt tx i script jsonout = Ok (enriched, Some (is_wallet_output, asset)) →
  ∃ output_data, get_scriptpubkey_data script = Ok output_data
    ∧ is_wallet_output = negb (json_ops.empty output_data)
    ∧ j_assetref (Psbt.m_is_liquid psbt) enriched = Ok asset.
Proof.
  unfold Psbt.classify_output.
  destruct (get_scriptpubkey_data script) as [output_data|]; simpl; [|done].
  destruct (if negb (negb (json_ops.empty output_data)) then _ else _) as [[j1|]|]; simpl;
    [| by intros [= ]|done].
  destruct (if Psbt.m_is_liquid psbt then _ else _) as [j2|]; simpl; [|done].
  destruct (j_assetref (Psbt.m_is_liquid psbt) j2) as [a|] eqn:Ha; simpl; [|done].
  intros [= <- <- <-]. eauto.
Qed.

Lemma output_to_json_info (psbt : Psbt.t) (tx : Tx.t) (i : nat) (enriched : json)
    (is_wallet_output : bool) (asset : string) :
  Psbt.output_to_json psbt tx i = Ok (enriched, Some (is_wallet_output, asset)) →
  ∃ txout script output_data,
    Psbt.get_output psbt i = Ok txout
    ∧ wally_psbt_output.script txout = Some script
    ∧ get_scriptpubkey_data script = Ok output_data
    ∧ is_wallet_output = negb (json_ops.empty output_data)
    ∧ j_assetref (Psbt.m_is_liquid psbt) enriched = Ok asset.
Proof.
  unfold Psbt.output_to_json.
  destruct (Psbt.get_output psbt i) as [txout|]; simpl; [|done].
  destruct (Psbt.m_is_liquid psbt) eqn:Hliquid; simpl.
  - destruct (Psbt.set_pset_field _ _ _ _ _) as [j1|]; simpl; [|done].
    destruct (wally_psbt_output.has_amount txout); simpl; [|done].
    destruct (json_ops.set j1 "satoshi" _) as [j2|]; simpl; [|done].
    destruct (wally_psbt_get_output_blinding_status _ _ _) as [status|]; simpl; [|done].
    destruct (status =? WALLY_PSET_BLINDED_NONE).
    { destruct (bool_decide _); simpl; [|done].
      destruct (json_ops.set j2 "scriptpubkey" _); simpl; done. }
    destruct (status =? WALLY_PSET_BLINDED_FULL); simpl; [|done].
    destruct (Psbt.blinded_output_fields _ _) as [j3|]; simpl; [|done].
    destruct (wally_psbt_output.script txout) as [script|] eqn:Hscript; simpl; [|done].
    destruct (json_ops.set j3 "scriptpubkey" _) as [j4|]; simpl; [|done].
    intros Hc. apply classify_output_info in Hc as (d & ? & ? & Ha).
    rewrite Hliquid in Ha. exists txout, script, d. done.
  - destruct (wally_psbt_output.has_amount txout); simpl; [|done].
    destruct (wally_psbt_output.script txout) as [script|] eqn:Hscript; simpl; [|done].
    destruct (negb (bool_decide (script = []))); simpl; [|done].
    intros Hc. apply classify_output_info in Hc as (d & ? & ? & Ha).
    rewrite Hliquid in Ha. exists txout, script, d. done.
Qed.

End change_detection_info.

Section change_heuristic.
Context `{WallyPsbt} `{Session}.
Variables (psbt : Psbt.t) (tx : Tx.t) (wallet_assets : gset string).
Hypothesis multisig : is_electrum get_network_parameters = false.

Lemma wallet_outputs_S (asset : string) (n : nat) :
  wallet_outputs psbt tx asset (S n)
  = wallet_outputs psbt tx asset n ++ (if decide (info_at psbt tx n = Some (true, asset)) then [n] else []).
Proof.
  unfold wallet_outputs. rewrite seq_S, filter_app. simpl. by f_equal.
Qed.

Lemma sent_externally_S (asset : string) (n : nat) :
  sent_externally psbt tx asset (S n) ↔ sent_externally psbt tx asset n ∨ info_at psbt tx n = Some (false, asset).
Proof.
  unfold sent_externally. split.
  - intros (i & Hi & Hinfo). destruct (decide (i = n)) as [->|Hne]; [by right|].
    left. exists i. split; [lia|done].
  - intros [(i & Hi & Hinfo)|Hinfo]; [exists i|exists n]; split; done || lia.
Qed.

Lemma outputs_inv_step (k : nat) (st st' : Psbt.outputs_state) :
  outputs_inv psbt tx wallet_assets k st →
  Psbt.outputs_to_json_step psbt tx wallet_assets st k = Ok st' →
  outputs_inv psbt tx wallet_assets (S k) st'.
Proof.
  intros (Hlen & Hout & Hassets & Hspent). unfold Psbt.outputs_to_json_step.
  destruct (Psbt.output_to_json psbt tx k) as [[jsonout info]|] eqn:Hk; simpl; [|done].
  assert (info_at psbt tx k = info) as Hinfo by (unfold info_at; by rewrite Hk).
  intros [= <-]. unfold outputs_inv. simpl.
  assert (Psbt.st_outputs (Psbt.collect_change wallet_assets k info st) = Psbt.st_outputs st)
    as Houts.
  { unfold Psbt.collect_change. destruct info as [[[] a]|]; simpl; by repeat case_match. }
  rewrite Houts. split_and!.
  - rewrite length_app. simpl. lia.
  - intros i Hi. destruct (decide (i = k)) as [->|Hne].
    + exists jsonout. rewrite Hinfo. split; [done|].
      rewrite lookup_app_r by lia. by rewrite Hlen, Nat.sub_diag.
    + destruct (Hout i) as (j & Hj & Hl); [lia|]. exists j. split; [done|].
      by rewrite lookup_app_l by lia.
  - intros asset. rewrite wallet_outputs_S, Hinfo.
    unfold Psbt.collect_change. rewrite multisig. simpl.
    destruct info as [[w a]|]; simpl.
    + case_bool_decide as Ha; simpl.
      * destruct w; simpl.
        -- destruct (decide (a = asset)) as [->|Hne].
           ++ rewrite lookup_insert_eq, Hassets.
              rewrite (decide_True (P := Some (true, asset) = Some (true, asset))) by done.
              rewrite (decide_True (P := asset ∈ wallet_assets ∧ wallet_outputs psbt tx asset k ++ [k] ≠ []))
                by (split; [done|by destruct (wallet_outputs psbt tx asset k)]).
              f_equal. f_equal. case_decide as Hw; [done|].
              destruct (wallet_outputs psbt tx asset k); [done|]. exfalso. apply Hw. done.
           ++ rewrite lookup_insert_ne by done. rewrite Hassets.
              rewrite (decide_False (P := Some (true, a) = Some (true, asset))) by congruence.
              by rewrite app_nil_r.
        -- rewrite Hassets.
           by rewrite app_nil_r.
      * rewrite Hassets. destruct (decide (a = asset)) as [->|Hne].
        -- rewrite (decide_False (P := asset ∈ wallet_assets ∧ wallet_outputs psbt tx asset k ≠ []))
             by tauto.
           case_decide as Hw; [|done]. tauto.
        -- destruct w; simpl;
             rewrite ?(decide_False (P := Some (true, a) = Some (true, asset))) by congruence;
             by rewrite app_nil_r.
    + rewrite Hassets. by rewrite app_nil_r.
  - intros asset. rewrite sent_externally_S, Hinfo.
    unfold Psbt.collect_change. rewrite multisig. simpl.
    destruct info as [[w a]|]; simpl.
    + case_bool_decide as Ha; simpl.
      * destruct w; simpl.
        -- rewrite Hspent. split; [tauto|]. intros [? [?|[=]]]. done.
        -- rewrite elem_of_union, elem_of_singleton, Hspent. split.
           ++ intros [->|[? ?]]; tauto.
           ++ intros [? [?|[= ->]]]; tauto.
      * rewrite Hspent. split; [tauto|]. intros [? [?|[= -> ->]]]; done.
    + rewrite Hspent. split; [tauto|]. intros [? [?|[=]]]. done.
Qed.

Lemma outputs_loop_inv (n : nat) (st : Psbt.outputs_state) :
  foldlM (Psbt.outputs_to_json_step psbt tx wallet_assets)
    {| Psbt.st_outputs := []; Psbt.st_spent_assets := ∅; Psbt.st_asset_outputs := ∅ |}
    (seq 0 n) = Ok st →
  outputs_inv psbt tx wallet_assets n st.
Proof.
  revert st. induction n as [|n IH]; intros st.
  - simpl. intros [= <-]. unfold outputs_inv. simpl. split_and!.
    + done.
    + intros i Hi. lia.
    + intros asset. rewrite lookup_empty. by rewrite decide_False by (intros [_ Hw]; by apply Hw).
    + intros asset. split; [set_solver|]. intros [_ (i & Hi & _)]. lia.
  - rewrite seq_S, foldlM_app. simpl.
    destruct (foldlM _ _ (seq 0 n)) as [st1|] eqn:Hfold; simpl; [|done].
    destruct (Psbt.outputs_to_json_step psbt tx wallet_assets st1 n) as [st2|] eqn:Hstep;
      simpl; [|done].
    intros [= <-]. eapply outputs_inv_step; [|done]. by apply IH.
Qed.

(** The indices a filter keeps of [seq] come in increasing order. *)
Lemma filter_seq_head_lt (P : nat → Prop) `{∀ i, Decision (P i)} (a n first : nat)
    (rest : list nat) :
  filter P (seq a n) = first :: rest → ∀ i, i ∈ rest → (first < i)%nat.
Proof.
  revert a. induction n as [|n IH]; intros a; simpl; [done|].
  rewrite filter_cons. case_decide as Hp.
  - intros [= <- <-] i Hi. apply list_elem_of_filter in Hi as [_ Hi].
    apply elem_of_seq in Hi. lia.
  - apply IH.
Qed.

Lemma wallet_outputs_info (asset : string) (n i : nat) :
  i ∈ wallet_outputs psbt tx asset n → (i < n)%nat ∧ info_at psbt tx i = Some (true, asset).
Proof.
  unfold wallet_outputs. intros Hi. apply list_elem_of_filter in Hi as [Hinfo Hi].
  apply elem_of_seq in Hi. split; [lia|done].
Qed.

Lemma set_is_change_Ok (outputs outs : list json) (index : nat) (is_change : bool) :
  Psbt.set_is_change outputs index is_change = Ok outs →
  ∃ jsonout marked, outputs !! index = Some jsonout
    ∧ json_ops.set jsonout "is_change" (JBool is_change) = Ok marked
    ∧ outs = <[ index := marked ]> outputs.
Proof.
  unfold Psbt.set_is_change. destruct (outputs !! index) as [jsonout|]; simpl; [|done].
  destruct (json_ops.set jsonout "is_change" _) as [marked|] eqn:Hset; simpl; [|done].
  intros [= <-]. eauto.
Qed.

(** The second loop of [outputs_to_json]: the front output of each entry is
    marked, and no other output is touched. *)
Lemma mark_change_loop (spent_assets : gset string) (entries : list (string * list nat))
    (outputs outs : list json) :
  foldlM (Psbt.mark_change wallet_assets spent_assets) outputs entries = Ok outs →
  (∀ o, o ∈ entries → o.1 ∈ wallet_assets) →
  NoDup ((λ o, head o.2) <$> entries) →
  length outs = length outputs
  ∧ (∀ i, (∀ o, o ∈ entries → head o.2 ≠ Some i) → outs !! i = outputs !! i)
  ∧ (∀ o, o ∈ entries →
       ∃ i jsonout marked, head o.2 = Some i ∧ outputs !! i = Some jsonout
         ∧ json_ops.set jsonout "is_change" (JBool (is_change_of spent_assets o)) = Ok marked
         ∧ outs !! i = Some marked).
Proof.
  revert outputs. induction entries as [|o entries IH]; intros outputs; simpl.
  - intros [= <-] _ _. split_and!; [done|done|]. intros o Ho. by apply elem_of_nil in Ho.
  - destruct (Psbt.mark_change wallet_assets spent_assets outputs o) as [outs1|] eqn:Hmark;
      simpl; [|done].
    intros Hfold Hwallet Hnodup.
    apply NoDup_cons in Hnodup as [Hfresh Hnodup].
    destruct (IH outs1 Hfold) as (Hlen & Hother & Hmarked);
      [intros o' Ho'; apply Hwallet; by right|done|].
    unfold Psbt.mark_change in Hmark.
    rewrite bool_decide_eq_true_2 in Hmark by (apply Hwallet; by left).
    destruct (head o.2) as [front|] eqn:Hfront; simpl in Hmark; [|done].
    apply set_is_change_Ok in Hmark as (jsonout & marked & Hj & Hset & ->).
    assert (front < length outputs)%nat as Hbound by (by eapply lookup_lt_Some).
    split_and!.
    + by rewrite Hlen, length_insert.
    + intros i Hi. rewrite Hother by (intros o' Ho'; apply Hi; by right).
      apply list_lookup_insert_ne. intros ->. by apply (Hi o); [left|].
    + intros o' Ho'. apply elem_of_cons in Ho' as [->|Ho'].
      * exists front, jsonout, marked. split_and!; [done|done|done|].
        rewrite Hother; [by apply list_lookup_insert_eq|].
        intros o' Ho' Hhead. apply Hfresh. rewrite <- Hhead.
        by apply (list_elem_of_fmap_2 (λ o, head o.2)).
      * destruct (Hmarked o' Ho') as (i & j & m & Hhead & Hj' & Hset' & Hout).
        exists i, j, m. split_and!; [done| |done|done].
        rewrite list_lookup_insert_ne in Hj'; [done|].
        intros ->. apply Hfresh. rewrite <- Hhead.
        by apply (list_elem_of_fmap_2 (λ o, head o.2)).
Qed.

(** The entries of [asset_outputs] after the first loop: the funded assets
    with a wallet output, each with its wallet outputs. *)
Lemma asset_outputs_entries (n : nat) (st : Psbt.outputs_state) (o : string * list nat) :
  outputs_inv psbt tx wallet_assets n st →
  o ∈ map_to_list (Psbt.st_asset_outputs st) →
  o.1 ∈ wallet_assets ∧ o.2 = wallet_outputs psbt tx o.1 n ∧ o.2 ≠ [].
Proof.
  intros (_ & _ & Hassets & _) Ho. destruct o as [asset l].
  apply elem_of_map_to_list in Ho. rewrite Hassets in Ho. simpl.
  case_decide as Hw; [|done]. injection Ho as <-. tauto.
Qed.

Lemma asset_outputs_fronts_NoDup (n : nat) (st : Psbt.outputs_state) :
  outputs_inv psbt tx wallet_assets n st →
  NoDup ((λ o : string * list nat, head o.2) <$> map_to_list (Psbt.st_asset_outputs st)).
Proof.
  intros Hinv. apply NoDup_fmap_2_strong; [|apply NoDup_map_to_list].
  intros [a la] [b lb] Ha Hb Hhead.
  apply (asset_outputs_entries n st _ Hinv) in Ha as (_ & Hla & Hane).
  apply (asset_outputs_entries n st _ Hinv) in Hb as (_ & Hlb & Hbne).
  simpl in *. destruct la as [|i la]; [done|]. destruct lb as [|i' lb]; [done|].
  injection Hhead as <-.
  assert (i ∈ wallet_outputs psbt tx a n) as Hia by (rewrite <- Hla; by left).
  assert (i ∈ wallet_outputs psbt tx b n) as Hib by (rewrite <- Hlb; by left).
  apply wallet_outputs_info in Hia as [_ Hia]. apply wallet_outputs_info in Hib as [_ Hib].
  assert (a = b) as -> by congruence. by rewrite Hla, Hlb.
Qed.

(** C2, as the code has it.  On a multisig session, for an asset the wallet
    contributed an input to, take the wallet outputs that reach change
    detection with that asset (the script is the wallet's and, on Liquid, the
    output unblinds), in index order.  When there is one, [outputs_to_json]
    writes [is_change] on the earliest of them: true exactly when the asset
    also reaches change detection on a non-wallet output or there are at
    least two such wallet outputs, false otherwise.  Every other one comes
    out as it was enriched: the heuristic writes no [is_change] on it. *)
Theorem change_heuristic (outs : list json) (asset : string) (first : nat) (rest : list nat)
    (Hok : Psbt.outputs_to_json psbt tx wallet_assets = Ok outs)
    (Hfunded : asset ∈ wallet_assets)
    (Hwallet : wallet_outputs psbt tx asset (Psbt.get_num_outputs psbt) = first :: rest) :
  let n := Psbt.get_num_outputs psbt in
  (∃ (jsonout marked : json) (is_change : bool),
      Psbt.output_to_json psbt tx first = Ok (jsonout, Some (true, asset))
      ∧ json_ops.set jsonout "is_change" (JBool is_change) = Ok marked
      ∧ outs !! first = Some marked
      ∧ json_ops.find marked "is_change" = Some (JBool is_change)
      ∧ (is_change = true ↔ sent_externally psbt tx asset n ∨ (2 ≤ length (first :: rest))%nat))
  ∧ (∀ i, i ∈ rest →
       (first < i)%nat
       ∧ ∃ jsonout, Psbt.output_to_json psbt tx i = Ok (jsonout, Some (true, asset))
           ∧ outs !! i = Some jsonout).
Proof.
  intros n. fold n in Hwallet. unfold Psbt.outputs_to_json in Hok. fold n in Hok.
  destruct (foldlM _ _ (seq 0 n)) as [st|] eqn:Hloop; simpl in Hok; [|done].
  rewrite multisig in Hok. simpl in Hok.
  apply outputs_loop_inv in Hloop as Hinv.
  pose proof Hinv as (Hlen & Hout & Hassets & Hspent).
  destruct (mark_change_loop _ _ _ _ Hok) as (_ & Hother & Hmarked).
  { intros o Ho. by apply (asset_outputs_entries n st o Hinv). }
  { by apply (asset_outputs_fronts_NoDup n). }
  assert ((asset, first :: rest) ∈ map_to_list (Psbt.st_asset_outputs st)) as Hentry.
  { apply elem_of_map_to_list. rewrite Hassets, Hwallet.
    by rewrite decide_True by (split; [done|done]). }
  assert (∀ i, i ∈ first :: rest → (i < n)%nat ∧ info_at psbt tx i = Some (true, asset)) as Hinfo.
  { intros i Hi. apply wallet_outputs_info. by rewrite Hwallet. }
  pose proof (filter_seq_head_lt _ 0 n first rest Hwallet) as Hlt.
  split.
  - destruct (Hmarked _ Hentry) as (i & jsonout & marked & [= <-] & Hj & Hset & Hfinal).
    destruct (Hinfo first) as [Hfirst Hfirst_info]; [by left|].
    destruct (Hout first Hfirst) as (jsonout' & Hjson & Hj').
    assert (jsonout' = jsonout) as -> by congruence.
    rewrite Hfirst_info in Hjson.
    exists jsonout, marked, (is_change_of (Psbt.st_spent_assets st) (asset, first :: rest)).
    split_and!; [done|done|done|by eapply set_find_eq|].
    unfold is_change_of. simpl.
    rewrite orb_true_iff, bool_decide_eq_true, Hspent.
    destruct rest; simpl; split; intros [?|?]; try tauto; try lia; try done.
  - intros i Hi. split; [by apply Hlt|].
    destruct (Hinfo i) as [Hin Hi_info]; [by right|].
    destruct (Hout i Hin) as (jsonout & Hjson & Hj).
    rewrite Hi_info in Hjson. exists jsonout. split; [done|].
    rewrite Hother; [done|].
    intros o Ho Hhead.
    apply (asset_outputs_entries n st o Hinv) in Ho as (_ & Ho & _).
    assert (i ∈ wallet_outputs psbt tx o.1 n) as Hio.
    { rewrite <- Ho. destruct o.2; [done|]. injection Hhead as ->. by left. }
    apply wallet_outputs_info in Hio as [_ Hio].
    assert (o.1 = asset) as Hasset by congruence.
    rewrite Hasset in Ho. rewrite Hwallet in Ho. rewrite Ho in Hhead.
    injection Hhead as ->. specialize (Hlt i Hi). lia.
Qed.

End change_heuristic.

(** ** The scenarios, run on the small instance *)

Lemma toy_from_base64 (base64 : string) (flags : Z) (p : wally_psbt.t) :
  wally_psbt_from_base64 (WallyPsbt := toy.wally_psbt) base64 flags = Some p →
  (base64 = toy.empty_psbt_v0_base64 ∧ p = toy.empty_psbt 0)
  ∨ (base64 = toy.empty_psbt_v2_base64 ∧ p = toy.empty_psbt 2).
Proof.
  simpl. case_bool_decide as H0; [intros [= <-]; by left|].
  case_bool_decide as H2; [intros [= <-]; by right|done].
Qed.

Lemma toy_wally_psbt_laws : @WallyPsbtLaws toy.wally_psbt.
Proof.
  split.
  - intros p flags. simpl. by rewrite Z.eqb_refl.
  - intros base64 p Hdecode Hv. apply toy_from_base64 in Hdecode as [[_ ->]|[_ ->]]; [|done].
    by eexists.
  - intros base64 p q Hdecode Hv. apply toy_from_base64 in Hdecode as [[_ ->]|[_ ->]]; [|done].
    by intros [= <-].
  - intros p q flags version. simpl.
    destruct (version =? wally_psbt.version p) eqn:Heq.
    { intros [= <-]. apply Z.eqb_eq in Heq. done. }
    destruct ((version =? 0) || (version =? 2)); [|done]. by intros [= <-].
  - done.
  - intros base64 p flags Hdecode.
    apply toy_from_base64 in Hdecode as [[_ ->]|[_ ->]]; by eexists.
Qed.

Section psbt_scenarios.
#[local] Existing Instance toy.wally_psbt.

Lemma version_round_trip_witness :
  ∃ (psbt : Psbt.t) (out : string),
    Psbt.from_base64 toy.empty_psbt_v0_base64 false = Ok psbt
    ∧ Psbt.m_original_version psbt = 0
    ∧ wally_psbt.version (Psbt.m_psbt psbt) = WALLY_PSBT_VERSION_2
    ∧ Psbt.to_base64 psbt false = Ok out
    ∧ (∃ q, wally_psbt_from_base64 out 0 = Some q ∧ wally_psbt.version q = 0)
    ∧ Psbt.from_base64 out false = Ok psbt.
Proof.
  exact (version_round_trip (H0 := toy_wally_psbt_laws) toy.empty_psbt_v0_base64 false false
           (toy.empty_psbt 0) 0 eq_refl eq_refl eq_refl (or_introl eq_refl)).
Defined.

End psbt_scenarios.

Section liquid_scenarios.
#[local] Existing Instance toy.wally_psbt.
#[local] Existing Instance toy.liquid_session.

(** C1 as stated fails: the only input of this PSET is not the wallet's and
    has no explicit amount, so it carries an error and is skipped
    ([skip_signing] is true); the running sum is 0 and the fee output is
    100; and [get_details] succeeds, with fee 100 and no top-level error. *)
Lemma get_details_skipped_input_error :
  Psbt.inputs_to_json toy.unblindable_pset (toy.tx_of toy.unblindable_pset) (JObj ∅)
  = Ok toy.unblindable_inputs
  ∧ Psbt.outputs_to_json toy.unblindable_pset (toy.tx_of toy.unblindable_pset) ∅
    = Ok [toy.fee_output_json]
  ∧ error_of toy.unblinded_input_json = "failed to unblind utxo"
  ∧ skip_signing_of toy.unblinded_input_json = true
  ∧ Z_sum (counted_input true "6d") [toy.unblinded_input_json]
    - Z_sum (spent_output true "6d") [toy.fee_output_json] = 0
  ∧ Z_sum (fee_output true "6d") [toy.fee_output_json] = 100
  ∧ (λ r : json * Psbt.t, (json_ops.find r.1 "fee", json_ops.find r.1 "error"))
      <$> Psbt.get_details toy.unblindable_pset toy.details
    = Ok (Some (JNum 100), None).
Proof. split_and!; vm_compute; reflexivity. Qed.

(** The three ways through the assertion.  [unblindable_pset]: the sums
    differ (0 and 100) and the input carries an error, so the details are
    built.  [balanced_pset]: no error, the input of 5000 against the fee
    output of 5000; the second output without a script, of another asset,
    is not part of the fee, and the details are built.  [unbalanced_pset]:
    no error, 5000 against a fee of 100, and the assertion fails. *)
Lemma get_details_fee_assertion_witness :
  Psbt.get_details toy.unblindable_pset toy.details
  = (result ← Psbt.details_json true (toy.tx_of toy.unblindable_pset)
                [toy.unblinded_input_json] [toy.fee_output_json] toy.unblindable_fees;
     Ok (result, toy.unblindable_pset))
  ∧ Psbt.get_details toy.balanced_pset toy.details
    = (result ← Psbt.details_json true (toy.tx_of toy.balanced_pset)
                  [toy.explicit_input_json] toy.balanced_outputs (toy.explicit_fees 5000);
       Ok (result, toy.balanced_pset))
  ∧ Psbt.get_details toy.unbalanced_pset toy.details = Throw assertion_error.
Proof.
  split_and!.
  - refine (proj1 (get_details_fee_assertion toy.unblindable_pset toy.details (JObj ∅)
                     (toy.tx_of toy.unblindable_pset) toy.unblindable_inputs
                     [toy.fee_output_json] toy.unblindable_fees
                     eq_refl eq_refl eq_refl _ _ _) _).
    + vm_compute. reflexivity.
    + vm_compute. reflexivity.
    + vm_compute. reflexivity.
    + right. apply Exists_cons_hd. vm_compute. discriminate.
  - refine (proj1 (get_details_fee_assertion toy.balanced_pset toy.details (JObj ∅)
                     (toy.tx_of toy.balanced_pset) (toy.explicit_inputs toy.balanced_pset)
                     toy.balanced_outputs (toy.explicit_fees 5000)
                     eq_refl eq_refl eq_refl _ _ _) _).
    + vm_compute. reflexivity.
    + vm_compute. reflexivity.
    + vm_compute. reflexivity.
    + left. vm_compute. reflexivity.
  - refine (proj1 (proj2 (get_details_fee_assertion toy.unbalanced_pset toy.details (JObj ∅)
                            (toy.tx_of toy.unbalanced_pset)
                            (toy.explicit_inputs toy.unbalanced_pset)
                            [toy.fee_output_json] (toy.explicit_fees 100)
                            eq_refl eq_refl eq_refl _ _ _)) _ _).
    + vm_compute. reflexivity.
    + vm_compute. reflexivity.
    + vm_compute. reflexivity.
    + vm_compute. discriminate.
    + intros Herror. apply Exists_cons in Herror as [Herror|Herror].
      * apply Herror. vm_compute. reflexivity.
      * by apply Exists_nil in Herror.
Defined.

(** C3 as stated fails: the input of this PSET is not the wallet's and has
    an explicit amount but no explicit asset (0x13); it is not marked with an
    error, and the call does not succeed: it throws a user error. *)
Lemma get_details_missing_proof_throws :
  wally_psbt_input.has_amount (toy.external_input true ∅) = true
  ∧ wally_psbt_input.pset_fields (toy.external_input true ∅) !! Psbt.in_explicit_asset = None
  ∧ Psbt.find_wallet_utxo (JObj ∅) "0a" 1 = Ok None
  ∧ Psbt.inputs_to_json toy.proofless_pset (toy.tx_of toy.proofless_pset) (JObj ∅)
    = Throw (user_error "asset_id not found")
  ∧ Psbt.get_details toy.proofless_pset toy.details = Throw (user_error "asset_id not found").
Proof. split_and!; vm_compute; reflexivity. Qed.

Lemma non_wallet_input_enrichment_witness :
  ∃ (st' : Psbt.inputs_state) (utxo : json),
    Psbt.inputs_to_json_step (JObj ∅)
      {| Psbt.st_psbt := toy.unblindable_pset; Psbt.st_tx := toy.tx_of toy.unblindable_pset;
         Psbt.st_inputs := []; Psbt.st_wallet_assets := ∅ |} 0 = Ok st'
    ∧ Psbt.st_inputs st' = [] ++ [utxo]
    ∧ json_ops.find utxo "error" = Some (JStr "failed to unblind utxo")
    ∧ json_ops.find utxo "skip_signing" = Some (JBool true).
Proof.
  refine (proj1 (proj2 (non_wallet_input_enrichment (JObj ∅)
                          {| Psbt.st_psbt := toy.unblindable_pset;
                             Psbt.st_tx := toy.tx_of toy.unblindable_pset;
                             Psbt.st_inputs := []; Psbt.st_wallet_assets := ∅ |} 0
                          (toy.external_input false ∅)
                          {| wally_tx_input.txhash := [x0a]; wally_tx_input.index := 1;
                             wally_tx_input.sequence := 0xffffffff;
                             wally_tx_input.script := None; wally_tx_input.witness := None |}
                          toy.raw_input_json "0a" (Psbt.m_psbt toy.unblindable_pset)
                          {| wally_tx_output.satoshi := 0; wally_tx_output.script := [x00; x14] |}
                          eq_refl eq_refl eq_refl _ _ eq_refl)) eq_refl eq_refl).
  - vm_compute. reflexivity.
  - vm_compute. reflexivity.
Defined.

(** C2 as stated fails: the wallet funded asset ["6d"], which also goes to a
    non-wallet output (index 2); outputs 0, 1 and 3 are the wallet's and carry
    the asset, but output 0 does not unblind.  The output marked as change is
    output 1, not the earliest wallet output, and the wallet outputs 0 and 3
    come out with no [is_change] at all rather than with [false]. *)
Lemma outputs_to_json_opaque_wallet_output :
  json_ops.empty <$> get_scriptpubkey_data [x51; xff] = Ok false
  ∧ json_ops.empty <$> get_scriptpubkey_data [x51; x02] = Ok false
  ∧ json_ops.empty <$> get_scriptpubkey_data [x00; x14] = Ok true
  ∧ json_ops.empty <$> get_scriptpubkey_data [x51; x03] = Ok false
  ∧ fmap (M := list) (λ j, (json_ops.find j "scriptpubkey", json_ops.find j "asset_id",
                            json_ops.find j "is_change"))
      <$> Psbt.outputs_to_json toy.opaque_change_pset (toy.tx_of toy.opaque_change_pset) {[ "6d" ]}
    = Ok [(Some (JStr "51ff"), Some (JStr "6d"), None);
          (Some (JStr "5102"), Some (JStr "6d"), Some (JBool true));
          (Some (JStr "0014"), Some (JStr "6d"), None);
          (Some (JStr "5103"), Some (JStr "6d"), None)].
Proof. split_and!; vm_compute; reflexivity. Qed.

End liquid_scenarios.

Section bitcoin_scenarios.
#[local] Existing Instance toy.wally_psbt.
#[local] Existing Instance toy.bitcoin_session.

Lemma change_heuristic_witness :
  (∃ (jsonout marked : json) (is_change : bool),
      Psbt.output_to_json toy.two_change_psbt (toy.tx_of toy.two_change_psbt) 0
      = Ok (jsonout, Some (true, "btc"))
      ∧ json_ops.set jsonout "is_change" (JBool is_change) = Ok marked
      ∧ toy.two_change_outputs !! 0%nat = Some marked
      ∧ json_ops.find marked "is_change" = Some (JBool is_change)
      ∧ (is_change = true ↔
         sent_externally toy.two_change_psbt (toy.tx_of toy.two_change_psbt) "btc" 3
         ∨ (2 ≤ length [0; 2]%nat)%nat))
  ∧ (∀ i, i ∈ [2%nat] →
       (0 < i)%nat
       ∧ ∃ jsonout, Psbt.output_to_json toy.two_change_psbt (toy.tx_of toy.two_change_psbt) i
                    = Ok (jsonout, Some (true, "btc"))
           ∧ toy.two_change_outputs !! i = Some jsonout).
Proof.
  refine (change_heuristic toy.two_change_psbt (toy.tx_of toy.two_change_psbt) {[ "btc" ]}
            eq_refl toy.two_change_outputs "btc" 0 [2%nat] _ _ _).
  - vm_compute. reflexivity.
  - set_solver.
  - vm_compute. reflexivity.
Defined.

End bitcoin_scenarios.

(** * More properties of the signer *)

Section signer_cache.
Context `{Wally}.

Lemma with_cached_bip32_xpubs_id (s : signer.t) :
  signer.with_cached_bip32_xpubs s (signer.m_cached_bip32_xpubs s) = s.
Proof. by destruct s. Qed.

(** What [cache_ext_key] does to the signer when it returns. *)
Lemma cache_ext_key_grows (path : list Z) (hdkey : option ext_key) (s s' : signer.t)
    (xpub : string) :
  signer.cache_ext_key path hdkey s = Ok (xpub, s') →
  ∃ cache', s' = signer.with_cached_bip32_xpubs s cache'
    ∧ signer.m_cached_bip32_xpubs s ⊆ cache'
    ∧ dom cache' = {[ path ]} ∪ dom (signer.m_cached_bip32_xpubs s).
Proof.
  unfold signer.cache_ext_key, signer.cache_bip32_xpub.
  destruct hdkey as [key|]; simpl; [|done].
  destruct (signer.m_cached_bip32_xpubs s !! path) as [present|] eqn:Hc; simpl.
  - case_bool_decide as Heq; simpl; [|done]. intros [= <- <-].
    exists (signer.m_cached_bip32_xpubs s). split_and!.
    + by rewrite with_cached_bip32_xpubs_id.
    + done.
    + apply elem_of_dom_2 in Hc. apply set_eq. intros p. rewrite elem_of_union, elem_of_singleton.
      split; [tauto|]. intros [->|?]; done.
  - intros [= <- <-]. eexists. split_and!; [done| |].
    + by apply insert_subseteq.
    + by rewrite dom_insert_L.
Qed.

(** X1: a signer that [has_bip32_xpub] answers [false] for cannot produce
    the xpub: [get_bip32_xpub] fails its assertion on the missing key. *)
Theorem get_bip32_xpub_without_source (path : list Z) (s : signer.t) :
  signer.has_bip32_xpub path s = false →
  signer.get_bip32_xpub path s = Throw assertion_error.
Proof.
  unfold signer.has_bip32_xpub, signer.get_bip32_xpub.
  destruct (signer.m_master_key s) as [mk|] eqn:Hmk; [done|].
  destruct (signer.find_cached _ _ _ _) as [c p ch|parent child]; [done|]. intros _.
  simpl. case_bool_decide as Hpath; [done|].
  destruct (decide (parent = [])) as [->|Hparent].
  - rewrite (bool_decide_eq_false_2 ([] ≠ [])) by (intros Hne; by apply Hne).
    simpl. by rewrite Hmk.
  - by rewrite (bool_decide_eq_true_2 (parent ≠ [])) by done.
Qed.

(** X2: a call of [get_bip32_xpub] that returns changes nothing of the
    signer but the cache, keeps every entry the cache had, and adds entries
    only under the path asked for and under prefixes of it. *)
Theorem get_bip32_xpub_cache_grows (path : list Z) (s s' : signer.t) (xpub : string) :
  signer.get_bip32_xpub path s = Ok (xpub, s') →
  s' = signer.with_cached_bip32_xpubs s (signer.m_cached_bip32_xpubs s')
  ∧ signer.m_cached_bip32_xpubs s ⊆ signer.m_cached_bip32_xpubs s'
  ∧ ∀ p, p ∈ dom (signer.m_cached_bip32_xpubs s') →
      p ∈ dom (signer.m_cached_bip32_xpubs s) ∨ p `prefix_of` path.
Proof.
  unfold signer.get_bip32_xpub.
  pose proof (find_cached_spec (length path) (signer.m_cached_bip32_xpubs s) path []
                (Nat.le_refl _)) as Hspec.
  destruct (signer.find_cached _ _ _ _) as [c parent child|parent child].
  - destruct Hspec as (popped & Hpath & Hchild & Hc & _).
    rewrite app_nil_r in Hchild. subst child.
    destruct popped as [|y popped].
    { intros [= <- <-]. rewrite with_cached_bip32_xpubs_id. split_and!; [done|done|auto]. }
    destruct (bip32_public_key_from_bip32_xpub c) as [pk|]; simpl; [|done].
    case_bool_decide as Hp.
    { rewrite Hp in Hpath. by destruct parent. }
    rewrite andb_false_r. simpl.
    destruct (signer.derive pk (y :: popped) BIP32_FLAG_KEY_PUBLIC) as [ck|]; simpl; [|done].
    intros Hk. apply cache_ext_key_grows in Hk as (c' & -> & Hsub & Hdom). simpl.
    split_and!; [done|done|]. intros p. rewrite Hdom, elem_of_union, elem_of_singleton.
    intros [->|?]; [by right|by left].
  - destruct Hspec as (popped & Hpath & Hchild & Hc & _).
    rewrite app_nil_r in Hchild. subst child. simpl.
    case_bool_decide as Hp.
    { intros Hk. apply cache_ext_key_grows in Hk as (c' & -> & Hsub & Hdom). simpl.
      split_and!; [done|done|]. intros p. rewrite Hdom, elem_of_union, elem_of_singleton.
      intros [->|?]; [right; by rewrite Hp|by left]. }
    destruct (decide (parent = [])) as [->|Hparent].
    + simpl in Hpath. subst popped.
      rewrite (bool_decide_eq_false_2 ([] ≠ [])) by (intros Hne; by apply Hne).
      rewrite (bool_decide_eq_false_2 (path = [])) by done. simpl.
      destruct (signer.m_master_key s) as [mk|]; simpl; [|done].
      destruct (signer.derive mk path BIP32_FLAG_KEY_PUBLIC) as [ck|]; simpl; [|done].
      intros Hk. apply cache_ext_key_grows in Hk as (c' & -> & Hsub & Hdom). simpl.
      split_and!; [done|done|]. intros p. rewrite Hdom, elem_of_union, elem_of_singleton.
      intros [->|?]; [by right|by left].
    + rewrite (bool_decide_eq_true_2 (parent ≠ [])) by done. simpl.
      destruct (signer.m_master_key s) as [mk|]; simpl; [|done].
      destruct (signer.derive mk parent BIP32_FLAG_KEY_PUBLIC) as [pk|]; simpl; [|done].
      destruct (signer.cache_ext_key parent (Some pk) s) as [[x1 s1]|] eqn:Hk1; simpl; [|done].
      apply cache_ext_key_grows in Hk1 as (c1 & -> & Hsub1 & Hdom1).
      assert (parent `prefix_of` path) as Hprefix by (by exists popped).
      case_bool_decide as Hchild.
      * intros [= <- <-]. simpl. split_and!; [done|done|].
        intros p. rewrite Hdom1, elem_of_union, elem_of_singleton.
        intros [->|?]; [by right|by left].
      * destruct (signer.derive pk popped BIP32_FLAG_KEY_PUBLIC) as [ck|]; simpl; [|done].
        intros Hk. apply cache_ext_key_grows in Hk as (c2 & -> & Hsub2 & Hdom2).
        simpl in *. split_and!; [done|by etrans|].
        intros p. rewrite Hdom2, Hdom1, !elem_of_union, !elem_of_singleton.
        intros [->|[->|?]]; [by right|by right|by left].
Qed.

(** X3: once [get_bip32_xpub] has returned the xpub of a path, the signer
    answers [has_bip32_xpub] with [true] for that path and for every
    extension of it by non-hardened components, whatever becomes of the
    master key. *)
Theorem get_bip32_xpub_then_has (path ext : list Z) (s s' : signer.t) (xpub : string)
    (master : option ext_key) :
  signer.get_bip32_xpub path s = Ok (xpub, s') →
  Forall non_hardened ext →
  signer.has_bip32_xpub (path ++ ext) (signer.with_master_key s' master) = true.
Proof.
  intros Hget Hext. apply get_bip32_xpub_cached in Hget.
  unfold signer.has_bip32_xpub. simpl. destruct master as [mk|]; [done|].
  destruct (proj2 (find_cached_found_iff (length (path ++ ext)) (signer.m_cached_bip32_xpubs s')
                     (path ++ ext) [] (Nat.le_refl _))) as (c & p & ch & ->); [|done].
  exists path, ext. eauto.
Qed.

(** The search stops at the nearest cached parent. *)
Lemma find_cached_nearest (cache : gmap (list Z) string) (parent popped acc : list Z)
    (cached : string) (fuel : nat) :
  (length popped ≤ fuel)%nat →
  Forall non_hardened popped →
  cache !! parent = Some cached →
  (∀ k, (0 < k ≤ length popped)%nat → cache !! (parent ++ take k popped) = None) →
  signer.find_cached fuel cache (parent ++ popped) acc
  = signer.found cached parent (popped ++ acc).
Proof.
  revert fuel acc.
  induction popped as [|x l IH] using rev_ind; intros fuel acc Hlen Hall Hc Hnone.
  - rewrite app_nil_r. by apply find_cached_hit.
  - rewrite length_app in Hlen. simpl in Hlen.
    destruct fuel as [|fuel]; [lia|].
    apply Forall_app in Hall as [Hl Hx]. inversion Hx as [|? ? Hx' _]; subst.
    rewrite app_assoc. rewrite find_cached_step.
    + unfold non_hardened in Hx'. rewrite Hx'.
      rewrite IH; [by rewrite <- app_assoc|lia|done|done|].
      intros k Hk. specialize (Hnone k). rewrite take_app_le in Hnone by lia.
      apply Hnone. rewrite length_app. simpl. lia.
    + specialize (Hnone (length (l ++ [x]))). rewrite firstn_all in Hnone.
      rewrite <- app_assoc. apply Hnone. rewrite length_app. simpl. lia.
Qed.

(** X4: when the nearest cached prefix of a path is followed by non-hardened
    components only, [get_bip32_xpub] derives the xpub from that cached
    entry and caches it under the path; the master key plays no part, so a
    signer without one (watch-only, hardware) does the same. *)
Theorem get_bip32_xpub_from_cached_parent (parent child : list Z) (s : signer.t)
    (cached : string) (parent_key child_key : ext_key) :
  child ≠ [] →
  Forall non_hardened child →
  signer.m_cached_bip32_xpubs s !! parent = Some cached →
  (∀ k, (0 < k ≤ length child)%nat →
        signer.m_cached_bip32_xpubs s !! (parent ++ take k child) = None) →
  bip32_public_key_from_bip32_xpub cached = Ok parent_key →
  signer.derive parent_key child BIP32_FLAG_KEY_PUBLIC = Ok child_key →
  signer.get_bip32_xpub (parent ++ child) s
  = Ok (signer.xpub_of child_key,
        signer.with_cached_bip32_xpubs s
          (<[ parent ++ child := signer.xpub_of child_key ]> (signer.m_cached_bip32_xpubs s))).
Proof.
  intros Hne Hall Hc Hnone Hpk Hck.
  unfold signer.get_bip32_xpub.
  rewrite (find_cached_nearest _ parent child [] cached) by
    (try done; rewrite length_app; lia).
  rewrite app_nil_r. destruct child as [|y child]; [done|].
  rewrite Hpk. simpl.
  rewrite (bool_decide_eq_false_2 (parent ++ y :: child = [])) by (by destruct parent).
  rewrite andb_false_r. simpl. rewrite Hck. simpl.
  apply cache_ext_key_fresh.
  specialize (Hnone (length (y :: child))). rewrite firstn_all in Hnone.
  apply Hnone. simpl. lia.
Qed.

End signer_cache.

(** ** The cache as JSON *)

Lemma json_emplace_find (acc : json) (key : string) (v : json) :
  acc = JNull ∨ (∃ m, acc = JObj m) →
  ∃ m1, Psbt.json_emplace acc key v = Ok (JObj m1)
    ∧ ∀ x, m1 !! x = if decide (x = key) then Some (default v (json_ops.find acc key))
                      else json_ops.find acc x.
Proof.
  intros [->|[m ->]]; simpl.
  - eexists. split; [done|]. intros x. destruct (decide (x = key)) as [->|Hne].
    + by rewrite lookup_singleton_eq.
    + by rewrite lookup_singleton_ne.
  - destruct (m !! key) as [old|] eqn:Hold.
    + eexists. split; [done|]. intros x. destruct (decide (x = key)) as [->|Hne]; [|done].
      by rewrite Hold.
    + eexists. split; [done|]. intros x. destruct (decide (x = key)) as [->|Hne].
      * by rewrite lookup_insert_eq.
      * by rewrite lookup_insert_ne.
Qed.

(** The loop of [get_cached_bip32_xpubs_json] over any list of entries. *)
Lemma xpubs_json_loop (l : list (list Z * string)) (acc : json) :
  acc = JNull ∨ (∃ m, acc = JObj m) →
  ∃ j, foldlM (λ xpubs_json item, Psbt.json_emplace xpubs_json item.2 (path_json item.1)) acc l
       = Ok j
    ∧ (l = [] → j = acc)
    ∧ (∀ x v, json_ops.find acc x = Some v → json_ops.find j x = Some v)
    ∧ (∀ x v, json_ops.find j x = Some v →
         json_ops.find acc x = Some v ∨ ∃ p, (p, x) ∈ l ∧ v = path_json p)
    ∧ (∀ p x, (p, x) ∈ l → is_Some (json_ops.find j x)).
Proof.
  revert acc. induction l as [|[p0 x0] l IH]; intros acc Hacc.
  - exists acc. split_and!; [done|done|done|by left|].
    intros p x Hin. by apply elem_of_nil in Hin.
  - simpl. destruct (json_emplace_find acc x0 (path_json p0) Hacc) as (m1 & -> & Hm1). simpl.
    destruct (IH (JObj m1)) as (j & -> & _ & Hkeep & Hfrom & Hall); [eauto|].
    exists j. split_and!; [done|done| | |].
    + intros x v Hx. apply Hkeep. simpl. rewrite Hm1.
      destruct (decide (x = x0)) as [->|Hne]; [|done]. by rewrite Hx.
    + intros x v Hx. apply Hfrom in Hx as [Hx|(p & Hp & ->)].
      * simpl in Hx. rewrite Hm1 in Hx. destruct (decide (x = x0)) as [->|Hne]; [|by left].
        destruct (json_ops.find acc x0) as [old|] eqn:Hold; simpl in Hx.
        -- by left.
        -- right. exists p0. split; [by left|congruence].
      * right. exists p. split; [by right|done].
    + intros p x Hin. apply elem_of_cons in Hin as [[= -> ->]|Hin]; [|by eapply Hall].
      assert (is_Some (m1 !! x0)) as [v Hv].
      { rewrite Hm1. rewrite decide_True by done. eauto. }
      exists v. by apply Hkeep.
Qed.

Lemma elem_of_cache_entries (cache : gmap (list Z) string) (p : list Z) (x : string) :
  (p, x) ∈ cache_entries cache ↔ cache !! p = Some x.
Proof.
  unfold cache_entries. rewrite merge_sort_Permutation. apply elem_of_map_to_list.
Qed.

(** X5: [get_cached_bip32_xpubs_json] always returns; on an empty cache it
    returns null (not an empty object); otherwise the result maps every
    cached xpub to a path cached with that xpub, and has no other entry. *)
Theorem get_cached_bip32_xpubs_json_inverts `{Wally} (s : signer.t) :
  ∃ xpubs_json, get_cached_bip32_xpubs_json s = Ok xpubs_json
    ∧ (signer.m_cached_bip32_xpubs s = ∅ ↔ xpubs_json = JNull)
    ∧ (∀ path xpub, signer.m_cached_bip32_xpubs s !! path = Some xpub →
         ∃ path', json_ops.find xpubs_json xpub = Some (path_json path')
           ∧ signer.m_cached_bip32_xpubs s !! path' = Some xpub)
    ∧ (∀ xpub v, json_ops.find xpubs_json xpub = Some v →
         ∃ path, v = path_json path ∧ signer.m_cached_bip32_xpubs s !! path = Some xpub).
Proof.
  unfold get_cached_bip32_xpubs_json.
  destruct (xpubs_json_loop (cache_entries (signer.m_cached_bip32_xpubs s)) JNull)
    as (j & -> & Hnil & _ & Hfrom & Hall); [by left|].
  exists j. split_and!; [done| | |].
  - split.
    + intros Hempty. apply Hnil. unfold cache_entries. by rewrite Hempty, map_to_list_empty.
    + intros ->. apply map_empty. intros p.
      destruct (signer.m_cached_bip32_xpubs s !! p) as [x|] eqn:Hp; [|done].
      apply elem_of_cache_entries, Hall in Hp as [v Hv]. done.
  - intros path xpub Hp. apply elem_of_cache_entries, Hall in Hp as [v Hv].
    destruct (Hfrom _ _ Hv) as [Hnull|(p & Hp & ->)]; [done|].
    exists p. split; [done|]. by apply elem_of_cache_entries.
  - intros xpub v Hv. destruct (Hfrom _ _ Hv) as [Hnull|(p & Hp & ->)]; [done|].
    exists p. split; [done|]. by apply elem_of_cache_entries.
Qed.

(** ** Credentials and the master blinding key *)

Section signer_credentials.
Context `{Wally}.

Lemma set_master_blinding_key_Ok (blinding_key_hex : string) (key_bytes : list byte)
    (s : signer.t) :
  blinding_key_hex ≠ "" →
  h2b blinding_key_hex = Ok key_bytes →
  (length key_bytes = 32 ∨ length key_bytes = 64)%nat →
  signer.set_master_blinding_key blinding_key_hex s
  = Ok (signer.with_master_blinding_key s
          (Some (replicate (64 - length key_bytes) x00 ++ key_bytes))).
Proof.
  intros Hhex Hbytes Hlen. unfold signer.set_master_blinding_key.
  rewrite bool_decide_eq_true_2 by done. rewrite Hbytes.
  pose proof (copy_at_end (replicate SHA512_LEN x00) key_bytes) as Hcopy.
  rewrite length_replicate in Hcopy. rewrite take_replicate in Hcopy.
  set (zeros := replicate SHA512_LEN x00) in *. simpl.
  replace ((length key_bytes =? SHA512_LEN)%nat || (length key_bytes =? 32)%nat)
    with true by (destruct Hlen as [-> | ->]; done).
  simpl. rewrite Hcopy by (unfold SHA512_LEN; lia).
  do 4 f_equal. f_equal. unfold SHA512_LEN. lia.
Qed.

(** X6: after [set_master_blinding_key] with a key of 32 or 64 bytes, the
    stored key is the key right-aligned in 64 bytes, and [get_credentials]
    exports, on Liquid only, the hex of its last 32 bytes under
    ["master_blinding_key"]: the half-size key itself, or the second half of
    a full-size key. *)
Theorem master_blinding_key_exported (blinding_key_hex : string) (key_bytes : list byte)
    (s : signer.t) :
  blinding_key_hex ≠ "" →
  h2b blinding_key_hex = Ok key_bytes →
  (length key_bytes = 32 ∨ length key_bytes = 64)%nat →
  ∃ s', signer.set_master_blinding_key blinding_key_hex s = Ok s'
    ∧ signer.get_master_blinding_key s'
      = Ok (replicate (64 - length key_bytes) x00 ++ key_bytes)
    ∧ signer.get_credentials s'
      = if signer.m_is_liquid s
        then json_ops.set (signer.m_credentials s) "master_blinding_key"
               (JStr (b2h (drop (length key_bytes - 32) key_bytes)))
        else Ok (signer.m_credentials s).
Proof.
  intros Hhex Hbytes Hlen. eexists. split; [by apply set_master_blinding_key_Ok|].
  split; [done|]. unfold signer.get_credentials. simpl.
  destruct (signer.m_is_liquid s); [|done].
  do 3 f_equal. rewrite length_app, length_replicate. unfold HMAC_SHA256_LEN.
  destruct Hlen as [Hl|Hl]; rewrite Hl; done.
Qed.

(** What [get_credentials] returns on stored credentials that are an
    object: an object with the same entries, ["master_blinding_key"] apart. *)
Lemma get_credentials_object (s : signer.t) (mine : gmap string json) :
  signer.m_credentials s = JObj mine →
  ∃ exported, signer.get_credentials s = Ok (JObj exported)
    ∧ delete "master_blinding_key" exported = delete "master_blinding_key" mine.
Proof.
  intros Hmine. unfold signer.get_credentials. rewrite Hmine.
  destruct (signer.m_is_liquid s); [|eauto].
  destruct (signer.m_master_blinding_key s) as [key|]; [|eauto].
  simpl. eexists. split; [done|]. by rewrite delete_insert_eq.
Qed.

(** X7: [is_compatible_with] does not look at the master blinding keys:
    for signers whose stored credentials are objects, setting, replacing or
    dropping the key of either signer leaves the answer as it was. *)
Theorem is_compatible_with_ignores_blinding_key (s other : signer.t)
    (key key' : option (list byte)) (mine theirs : gmap string json) :
  signer.m_credentials s = JObj mine →
  signer.m_credentials other = JObj theirs →
  signer.is_compatible_with (signer.with_master_blinding_key s key)
    (signer.with_master_blinding_key other key')
  = signer.is_compatible_with s other.
Proof.
  intros Hmine Htheirs.
  destruct (get_credentials_object s mine Hmine) as (e1 & He1 & Hd1).
  destruct (get_credentials_object other theirs Htheirs) as (e2 & He2 & Hd2).
  destruct (get_credentials_object (signer.with_master_blinding_key s key) mine Hmine)
    as (e3 & He3 & Hd3).
  destruct (get_credentials_object (signer.with_master_blinding_key other key') theirs Htheirs)
    as (e4 & He4 & Hd4).
  rewrite (is_compatible_with_objects _ _ _ _ He1 He2).
  rewrite (is_compatible_with_objects _ _ _ _ He3 He4).
  simpl. by rewrite Hd1, Hd2, Hd3, Hd4.
Qed.

(** What [is_compatible_with] compares of a signer: its credentials as
    exported, less the blinding key; the only exception on the way is
    nlohmann's. *)
Lemma erased_credentials_cases (s : signer.t) :
  (∃ c, (signer.get_credentials s ≫= λ c, json_ops.erase c "master_blinding_key") = Ok c)
  ∨ (signer.get_credentials s ≫= λ c, json_ops.erase c "master_blinding_key") = Throw json_error.
Proof.
  unfold signer.get_credentials.
  destruct (signer.m_is_liquid s), (signer.m_master_blinding_key s), (signer.m_credentials s);
    simpl; eauto.
Qed.

(** X8: [is_compatible_with] is symmetric, throwing included: the two
    orders return the same answer or throw the same exception. *)
Theorem is_compatible_with_sym (s other : signer.t) :
  signer.is_compatible_with s other = signer.is_compatible_with other s.
Proof.
  unfold signer.is_compatible_with.
  destruct (decide (signer.get_device s = signer.get_device other)) as [Heq|Hne].
  - rewrite !bool_decide_eq_false_2 by (intros Hne; by apply Hne).
    pose proof (erased_credentials_cases s) as Hs.
    pose proof (erased_credentials_cases other) as Ho.
    destruct (signer.get_credentials s) as [c1|e1]; simpl in *;
      destruct (signer.get_credentials other) as [c2|e2]; simpl in *.
    + destruct (json_ops.erase c1 _) as [a|ea], (json_ops.erase c2 _) as [b|eb]; simpl.
      * f_equal. apply bool_decide_ext. split; congruence.
      * done.
      * done.
      * destruct Hs as [[? [=]]|[= ->]], Ho as [[? [=]]|[= ->]]. done.
    + destruct (json_ops.erase c1 _) as [a|ea]; simpl; [done|].
      destruct Hs as [[? [=]]|[= ->]], Ho as [[? [=]]|[= ->]]. done.
    + destruct (json_ops.erase c2 _) as [b|eb]; simpl; [done|].
      destruct Hs as [[? [=]]|[= ->]], Ho as [[? [=]]|[= ->]]. done.
    + destruct Hs as [[? [=]]|[= ->]], Ho as [[? [=]]|[= ->]]. done.
  - rewrite !bool_decide_eq_true_2 by congruence. done.
Qed.

End signer_credentials.

(** ** The device descriptor *)

Lemma json_add_if_missing_has (data data' : json) (key : string) (v : json) :
  json_add_if_missing data key v true = Ok data' → v ≠ JNull → has_value data' key.
Proof.
  unfold json_add_if_missing. intros Hadd Hv.
  destruct (json_ops.find data key) as [old|] eqn:Hold.
  - simpl in Hadd. case_bool_decide as Hnull.
    + exists v. split; [by eapply set_find_eq|done].
    + injection Hadd as <-. by exists old.
  - exists v. split; [by eapply set_find_eq|done].
Qed.

Lemma json_add_if_missing_keeps (data data' : json) (key key' : string) (v : json) :
  json_add_if_missing data key v true = Ok data' → has_value data key' → has_value data' key'.
Proof.
  unfold json_add_if_missing. intros Hadd (w & Hw & Hnull).
  destruct (decide (key' = key)) as [->|Hne].
  - rewrite Hw in Hadd. simpl in Hadd. rewrite bool_decide_eq_false_2 in Hadd by done.
    injection Hadd as <-. by exists w.
  - exists w. split; [|done].
    destruct (json_ops.find data key) as [old|]; simpl in Hadd.
    + case_bool_decide; [by rewrite (set_find_ne _ _ _ _ _ Hadd)|by injection Hadd as <-].
    + by rewrite (set_find_ne _ _ _ _ _ Hadd).
Qed.

Lemma j_str_or_empty_has_value (j : json) (key s : string) :
  j_str_or_empty j key = Ok s → has_value j key → json_ops.find j key = Some (JStr s).
Proof.
  unfold j_str_or_empty, j_str. intros Hs (w & Hw & _).
  destruct (j_opt json_ops.get_string j key) as [o|] eqn:Ho; simpl in Hs; [|done].
  injection Hs as <-. apply j_opt_Ok in Ho. rewrite Hw in Ho.
  destruct Ho as (a & Ha & ->). apply get_string_Ok in Ha. by subst.
Qed.

(** One step of a run that returned: the call in front returned too. *)
Tactic Notation "case_bind" simple_intropattern(x) ident(H) :=
  match goal with
  | |- mbind _ ?m = Ok _ → _ => destruct m as [x|] eqn:H; simpl; [|done]
  end.

(** What [get_device_json] returns when it returns: [ret] with the defaults
    filled in, or the Green backend's descriptor in its place. *)
Lemma get_device_json_Ok (hw_device credentials device : json) :
  signer.get_device_json hw_device credentials = Ok device →
  ∃ ret device_type,
    Forall (has_value ret) device_keys
    ∧ json_ops.find ret "device_type" = Some (JStr device_type)
    ∧ ((device_type = "hardware" ∧ device = ret
        ∧ ∃ name, json_ops.find ret "name" = Some (JStr name) ∧ name ≠ "")
       ∨ (device_type = "green-backend" ∧ device = signer.GREEN_DEVICE_JSON)
       ∨ ((device_type = "software" ∨ device_type = "watch-only") ∧ device = ret)).
Proof.
  unfold signer.get_device_json.
  case_bind dev Hdevice. case_bind ret0 Hret.
  case_bind ret1 H1. case_bind ret2 H2. case_bind ret3 H3. case_bind ret4 H4.
  case_bind ret5 H5. case_bind ret6 H6. case_bind ret H7. case_bind device_type Hty.
  assert (Forall (has_value ret) device_keys) as Hkeys.
  { pose proof (json_add_if_missing_has _ _ _ _ H1 ltac:(done)) as K1.
    pose proof (json_add_if_missing_has _ _ _ _ H2 ltac:(done)) as K2.
    pose proof (json_add_if_missing_has _ _ _ _ H3 ltac:(done)) as K3.
    pose proof (json_add_if_missing_has _ _ _ _ H4 ltac:(done)) as K4.
    pose proof (json_add_if_missing_has _ _ _ _ H5 ltac:(done)) as K5.
    pose proof (json_add_if_missing_has _ _ _ _ H6 ltac:(done)) as K6.
    pose proof (json_add_if_missing_has _ _ _ _ H7 ltac:(done)) as K7.
    repeat constructor;
      eauto 10 using json_add_if_missing_keeps. }
  assert (json_ops.find ret "device_type" = Some (JStr device_type)) as Hfind.
  { apply j_str_or_empty_has_value; [done|].
    by eapply json_add_if_missing_has. }
  case_bool_decide as Hhw.
  { case_bind name Hname. case_bool_decide as Hempty; [done|]. intros [= <-].
    exists ret, device_type. split_and!; [done|done|]. left. split_and!; [done|done|].
    exists name. split; [|done].
    destruct ret as [| | | | |m]; try done. simpl in Hname.
    destruct (m !! "name") as [v|] eqn:Hv; simpl in Hname.
    - apply get_string_Ok in Hname. by subst.
    - by injection Hname as <-. }
  case_bool_decide as Hgreen.
  { intros [= <-]. exists ret, device_type. split_and!; [done|done|]. right. left. done. }
  destruct (bool_decide (device_type ≠ "software") && bool_decide (device_type ≠ "watch-only"))
    eqn:Hother; [done|].
  intros [= <-]. exists ret, device_type. split_and!; [done|done|]. right. right. split; [|done].
  apply andb_false_iff in Hother as [Hs|Hw].
  - left. apply bool_decide_eq_false in Hs. by apply dec_stable.
  - right. apply bool_decide_eq_false in Hw. by apply dec_stable.
Qed.

(** ** Construction *)

Section signer_construction.
Context `{Wally}.

(** The steps of a construction that returned. *)
Lemma new_Ok (net_params : network_parameters) (hw_device credentials : json) (s : signer.t) :
  signer.new net_params hw_device credentials = Ok s →
  ∃ m_credentials m_device,
    let s0 := {| signer.m_is_main_net := is_main_net net_params;
                 signer.m_is_liquid := is_liquid net_params;
                 signer.m_btc_version := btc_version net_params;
                 signer.m_credentials := m_credentials;
                 signer.m_device := m_device;
                 signer.m_master_key := None;
                 signer.m_master_blinding_key := None;
                 signer.m_cached_bip32_xpubs := ∅ |} in
    signer.get_credentials_json credentials = Ok m_credentials
    ∧ signer.get_device_json hw_device m_credentials = Ok m_device
    ∧ signer.check_liquid_support s0 = Ok tt
    ∧ signer.init_master_keys s0 = Ok s.
Proof.
  unfold signer.new. case_bind m_credentials Hc. case_bind m_device Hd.
  match goal with |- mbind _ ?m = Ok _ → _ => destruct m as [[]|] eqn:Hl; simpl; [|done] end.
  intros Hinit. exists m_credentials, m_device. done.
Qed.

(** What the master keys of a signer are after [init_master_keys]. *)
Lemma init_master_keys_Ok (s0 s : signer.t) :
  signer.init_master_keys s0 = Ok s →
  signer.m_master_key s0 = None →
  signer.m_master_blinding_key s0 = None →
  signer.m_credentials s = signer.m_credentials s0
  ∧ signer.m_device s = signer.m_device s0
  ∧ signer.m_is_liquid s = signer.m_is_liquid s0
  ∧ signer.m_cached_bip32_xpubs s = signer.m_cached_bip32_xpubs s0
  ∧ (is_Some (signer.m_master_key s) ↔ is_Some (json_ops.find (signer.m_credentials s0) "seed"))
  ∧ (is_Some (signer.m_master_blinding_key s)
     ↔ signer.m_is_liquid s0 = true ∧ is_Some (signer.m_master_key s)).
Proof.
  unfold signer.init_master_keys. case_bind seed_hex Hseed.
  apply j_opt_Ok in Hseed. intros Hinit Hmk Hmbk.
  destruct (json_ops.find (signer.m_credentials s0) "seed") as [v|].
  - destruct Hseed as (hex & _ & ->). revert Hinit.
    case_bind seed Hh. case_bind master_key Hk. intros [= <-].
    destruct (signer.m_is_liquid s0) eqn:Hliquid; simpl; rewrite ?Hliquid;
      split_and!; try done.
    rewrite Hmbk. split; [by intros [? ?]|by intros [? _]].
  - subst seed_hex. injection Hinit as <-. rewrite Hmk, Hmbk.
    split_and!; try done.
    split; [by intros [? ?]|by intros [_ [? ?]]].
Qed.

Lemma has_value_GREEN_DEVICE_JSON : Forall (has_value signer.GREEN_DEVICE_JSON) device_keys.
Proof. repeat constructor; (eexists; split; [vm_compute; reflexivity|done]). Qed.

(** X9: the device descriptor of every constructed signer carries the six
    capability entries and ["device_type"], each with a value other than
    null: what the login left out has its default. *)
Theorem new_device_complete (net_params : network_parameters) (hw_device credentials : json)
    (s : signer.t) :
  signer.new net_params hw_device credentials = Ok s →
  Forall (has_value (signer.get_device s)) device_keys.
Proof.
  intros Hnew. apply new_Ok in Hnew as (c & d & _ & Hd & _ & Hinit).
  apply init_master_keys_Ok in Hinit as (_ & Hdev & _); [|done..].
  unfold signer.get_device. rewrite Hdev. simpl.
  apply get_device_json_Ok in Hd as (ret & ty & Hkeys & _ & Hcases).
  destruct Hcases as [(_ & -> & _)|[(_ & ->)|(_ & ->)]];
    [done|apply has_value_GREEN_DEVICE_JSON|done].
Qed.

Lemma j_strref_find (j : json) (key s : string) :
  json_ops.find j key = Some (JStr s) → j_strref j key = Ok s.
Proof.
  destruct j; try done. simpl. intros Hm. unfold j_strref, j_ref. simpl. by rewrite Hm.
Qed.

(** X10: every constructed signer is of one of the four device types, so
    [is_hardware], [is_watch_only] and [is_remote] return and at most one of
    them answers [true]; a hardware signer has a non-empty name, and a
    signer of the Green backend has the backend's own descriptor, whatever
    the login asked for. *)
Theorem new_device_type (net_params : network_parameters) (hw_device credentials : json)
    (s : signer.t) :
  signer.new net_params hw_device credentials = Ok s →
  ∃ device_type,
    device_type ∈ ["hardware"; "green-backend"; "software"; "watch-only"]
    ∧ signer.is_hardware s = Ok (bool_decide (device_type = "hardware"))
    ∧ signer.is_remote s = Ok (bool_decide (device_type = "green-backend"))
    ∧ signer.is_watch_only s = Ok (bool_decide (device_type = "watch-only"))
    ∧ (device_type = "hardware" →
       ∃ name, json_ops.find (signer.get_device s) "name" = Some (JStr name) ∧ name ≠ "")
    ∧ (device_type = "green-backend" → signer.get_device s = signer.GREEN_DEVICE_JSON).
Proof.
  intros Hnew. apply new_Ok in Hnew as (c & d & _ & Hd & _ & Hinit).
  apply init_master_keys_Ok in Hinit as (_ & Hdev & _); [|done..].
  unfold signer.get_device, signer.is_hardware, signer.is_remote, signer.is_watch_only.
  rewrite Hdev. simpl.
  apply get_device_json_Ok in Hd as (ret & ty & _ & Hty & Hcases).
  exists ty.
  assert (json_ops.find d "device_type" = Some (JStr ty)) as Hfind.
  { destruct Hcases as [(_ & -> & _)|[(-> & ->)|(_ & ->)]]; done. }
  rewrite (j_strref_find _ _ _ Hfind). simpl.
  split_and!; try done.
  - destruct Hcases as [(-> & _)|[(-> & _)|([-> | ->] & _)]]; set_solver.
  - intros ->. destruct Hcases as [(_ & -> & Hname)|[([=] & _)|([[=]|[=]] & _)]]. done.
  - intros ->. destruct Hcases as [([=] & _)|[(_ & ->)|([[=]|[=]] & _)]]. done.
Qed.

Lemma find_cached_empty (fuel : nat) (path child : list Z) :
  (length path ≤ fuel)%nat →
  ∃ parent child', signer.find_cached fuel ∅ path child = signer.not_found parent child'.
Proof.
  intros Hlen.
  destruct (signer.find_cached fuel ∅ path child) as [c p ch|p ch] eqn:Hf; [|eauto].
  destruct (proj1 (find_cached_found_iff fuel ∅ path child Hlen)) as (prefix & _ & _ & [v Hv] & _);
    [eauto|].
  by rewrite lookup_empty in Hv.
Qed.

(** X11: a signer comes out of its constructor with nothing cached; it can
    produce an xpub, for any path, exactly when its credentials hold a seed
    (a mnemonic or hex-seed login), and it holds a master blinding key
    exactly when it is on Liquid and has a seed. *)
Theorem new_signer_seed (net_params : network_parameters) (hw_device credentials : json)
    (s : signer.t) :
  signer.new net_params hw_device credentials = Ok s →
  signer.m_cached_bip32_xpubs s = ∅
  ∧ (∀ path, signer.has_bip32_xpub path s = true
             ↔ is_Some (json_ops.find (signer.m_credentials s) "seed"))
  ∧ (signer.has_master_blinding_key s = true
     ↔ is_liquid net_params = true
       ∧ is_Some (json_ops.find (signer.m_credentials s) "seed")).
Proof.
  intros Hnew. apply new_Ok in Hnew as (c & d & _ & _ & _ & Hinit).
  apply init_master_keys_Ok in Hinit as (Hc & _ & _ & Hcache & Hmk & Hmbk); [|done..].
  simpl in *. rewrite Hc. split_and!; [done| |].
  - intros path. rewrite <- Hmk. unfold signer.has_bip32_xpub.
    destruct (signer.m_master_key s) as [mk|]; [by eauto|].
    rewrite Hcache.
    destruct (find_cached_empty (length path) path []) as (p & ch & ->); [done|].
    split; [done|by intros [? ?]].
  - unfold signer.has_master_blinding_key. rewrite bool_decide_eq_true, Hmbk, Hmk. done.
Qed.

(** One step, in a hypothesis, of a run that returned. *)
Ltac returned_in H :=
  repeat match type of H with
    | mbind _ ?m = Ok _ => destruct m eqn:?; simpl in H; [|done]
    | match ?m with _ => _ end = Ok _ => destruct m eqn:?; simpl in H; try done
    end.

Lemma json_object_non_empty (key : string) (v : json) (l : list (string * json)) :
  json_ops.empty (json_object ((key, v) :: l)) = false.
Proof. unfold json_object. simpl. apply bool_decide_eq_false_2, insert_non_empty. Qed.

(** Credentials that are not empty are normalised to an object that is not
    empty. *)
Lemma get_credentials_json_non_empty (credentials normalised : json) :
  signer.get_credentials_json credentials = Ok normalised →
  json_ops.empty credentials = false →
  json_ops.empty normalised = false.
Proof.
  unfold signer.get_credentials_json, signer.get_descriptor_credentials.
  intros Hc He. rewrite He in Hc.
  returned_in Hc; injection Hc as <-; apply json_object_non_empty.
Qed.

(** X12: [get_credentials_json] normalises a login.  Empty credentials
    are stored as null; any other login it accepts is stored as an object
    of one of six shapes, whatever else the login carried. *)
Theorem get_credentials_json_shapes (credentials normalised : json) :
  signer.get_credentials_json credentials = Ok normalised →
  if json_ops.empty credentials then normalised = JNull
  else ∃ m, normalised = JObj m ∧ dom m ∈ login_shapes.
Proof.
  unfold signer.get_credentials_json, signer.get_descriptor_credentials.
  destruct (json_ops.empty credentials); [by intros [= <-]|].
  intros Hc.
  returned_in Hc; injection Hc as <-; (eexists; split; [reflexivity|]);
    rewrite dom_list_to_map_L; unfold login_shapes; simpl; repeat constructor.
Qed.

(** X13: a hardware or remote device and login credentials are never
    accepted together: when the login names a non-empty device and brings
    credentials that are not empty, construction throws, either on the
    credentials themselves or with the user error that says so. *)
Theorem new_device_excludes_credentials (net_params : network_parameters)
    (hw_device credentials device : json) :
  json_ops.find hw_device "device" = Some device →
  json_ops.empty device = false →
  json_ops.empty credentials = false →
  signer.new net_params hw_device credentials
  = (signer.get_credentials_json credentials ≫= λ _,
     Throw (user_error "HWW/remote signer and login credentials cannot be used together")).
Proof.
  intros Hdevice Hd Hc. unfold signer.new.
  destruct (signer.get_credentials_json credentials) as [c|] eqn:Hn; simpl; [|done].
  apply get_credentials_json_non_empty in Hn; [|done].
  unfold signer.get_device_json.
  destruct hw_device as [| | | | |m]; try done. simpl in Hdevice. simpl.
  rewrite bool_decide_eq_false_2 by (intros ->; by rewrite lookup_empty in Hdevice).
  rewrite Hdevice. simpl. by rewrite Hd, Hn.
Qed.

End signer_construction.

(** ** A hex seed as the mnemonic *)

Lemma has_space_append_X (s : string) : has_space (s +:+ "X") = has_space s.
Proof. induction s as [|c s IH]; [done|]. simpl. by rewrite IH. Qed.

Lemma string_back_append_X (s : string) : string_back (s +:+ "X") = Some "X"%char.
Proof.
  induction s as [|c s IH]; [done|]. simpl. rewrite IH. by destruct s.
Qed.

Lemma string_pop_back_append_X (s : string) : string_pop_back (s +:+ "X") = s.
Proof.
  induction s as [|c s IH]; [done|]. simpl. rewrite IH. by destruct s.
Qed.

Lemma length_append_X (s : string) : String.length (s +:+ "X") = S (String.length s).
Proof. induction s as [|c s IH]; [done|]. simpl. by rewrite IH. Qed.

Section hex_seed.
Context `{Wally} `{MnemonicEncryption}.

Lemma get_credentials_json_hex_seed (seed_hex : string) :
  String.length seed_hex = 128%nat →
  has_space seed_hex = false →
  signer.get_credentials_json (json_object [("mnemonic", JStr (seed_hex +:+ "X"))])
  = Ok (json_object [("seed", JStr seed_hex)]).
Proof.
  intros Hlen Hspace. unfold signer.get_credentials_json.
  rewrite json_object_non_empty.
  replace (j_str (json_object [("mnemonic", JStr (seed_hex +:+ "X"))]) "username")
    with (Ok (None : option string)) by done.
  simpl.
  replace (j_str (json_object [("mnemonic", JStr (seed_hex +:+ "X"))]) "mnemonic")
    with (Ok (Some (seed_hex +:+ "X"))) by done.
  simpl.
  replace (j_str (json_object [("mnemonic", JStr (seed_hex +:+ "X"))]) "bip39_passphrase")
    with (Ok (None : option string)) by done.
  simpl.
  rewrite has_space_append_X, Hspace, length_append_X, Hlen, string_back_append_X.
  simpl. by rewrite string_pop_back_append_X.
Qed.

(** X14: a login with a hex seed (128 hex digits and an ['X'], in place of
    the mnemonic) stores the seed alone, and [get_mnemonic] of the signer it
    constructs gives the login string back, whatever the password. *)
Theorem hex_seed_round_trip (net_params : network_parameters) (seed_hex password : string)
    (s : signer.t) :
  String.length seed_hex = 128%nat →
  has_space seed_hex = false →
  signer.new net_params JNull (json_object [("mnemonic", JStr (seed_hex +:+ "X"))]) = Ok s →
  signer.m_credentials s = json_object [("seed", JStr seed_hex)]
  ∧ signer.get_device s = signer.SOFTWARE_DEVICE_JSON
  ∧ signer.get_mnemonic password s = Ok (seed_hex +:+ "X").
Proof.
  intros Hlen Hspace Hnew.
  apply new_Ok in Hnew as (c & d & Hc & Hd & _ & Hinit).
  rewrite get_credentials_json_hex_seed in Hc by done. injection Hc as <-.
  assert (signer.get_device_json JNull (json_object [("seed", JStr seed_hex)])
          = Ok signer.SOFTWARE_DEVICE_JSON) as Hsoftware by (vm_compute; reflexivity).
  rewrite Hsoftware in Hd. injection Hd as <-.
  apply init_master_keys_Ok in Hinit as (Hcred & Hdev & _); [|done..].
  simpl in *. unfold signer.get_device. split_and!; [done|done|].
  unfold signer.get_mnemonic, signer.is_hardware, signer.is_watch_only, signer.is_remote.
  rewrite Hdev, Hcred. done.
Qed.

End hex_seed.

(** * utils.hpp *)

Section optional_variable.
Context {T : Type} `{EqDecision T}.

Lemma set_optional_variable_set (v x : T) :
  set_optional_variable (Some v) x
  = if decide (x = v) then Ok (false, Some v) else Throw assertion_error.
Proof.
  unfold set_optional_variable. simpl.
  destruct (decide (x = v)) as [->|Hne].
  - by rewrite bool_decide_eq_true_2.
  - rewrite bool_decide_eq_false_2; [done|]. congruence.
Qed.

Lemma set_optional_variable_each_set (v : T) (values : list T) :
  set_optional_variable_each (Some v) values
  = if decide (Forall (λ x, x = v) values) then Ok (Some v) else Throw assertion_error.
Proof.
  unfold set_optional_variable_each.
  induction values as [|x values IH].
  - by rewrite decide_True.
  - simpl. rewrite set_optional_variable_set.
    destruct (decide (x = v)) as [->|Hne]; simpl.
    + rewrite IH.
      destruct (decide (Forall (λ x, x = v) values)) as [Hall|Hnot];
        [by rewrite decide_True by (by constructor)|].
      rewrite decide_False; [done|]. by inversion 1.
    + rewrite decide_False; [done|]. by inversion 1.
Qed.

(** X15: [set_optional_variable] sets a variable once.  On an empty
    variable it stores the value and answers [true]; from then on a run of
    calls returns exactly when every call brings the stored value again, and
    leaves it stored; a call with another value fails the assertion. *)
Theorem set_optional_variable_once (v : T) (values : list T) :
  set_optional_variable None v = Ok (true, Some v)
  ∧ set_optional_variable (Some v) v = Ok (false, Some v)
  ∧ set_optional_variable_each None (v :: values)
    = if decide (Forall (λ x, x = v) values) then Ok (Some v) else Throw assertion_error.
Proof.
  split_and!.
  - done.
  - by rewrite set_optional_variable_set, decide_True.
  - rewrite <- set_optional_variable_each_set. done.
Qed.

End optional_variable.

Lemma list_pair_ind {A} (P : list A → Prop) :
  P [] → (∀ a, P [a]) → (∀ a b l, P l → P (a :: b :: l)) → ∀ l, P l.
Proof.
  intros Hnil Hone Hpair. fix IH 1. intros [|a [|b l]]; [done|done|]. apply Hpair, IH.
Qed.

(** X16: [pair_and_transform] has a result exactly on ranges of even
    length; the result has half the length of the range, and its [i]-th
    element is [binary_op] of the elements [2i] and [2i+1]. *)
Theorem pair_and_transform_pairs {A B} (binary_op : A → A → B) (l : list A) :
  (is_Some (pair_and_transform binary_op l) ↔ Nat.Even (length l))
  ∧ ∀ out, pair_and_transform binary_op l = Some out →
      length l = (2 * length out)%nat
      ∧ ∀ i x y, l !! (2 * i)%nat = Some x → l !! (2 * i + 1)%nat = Some y →
          out !! i = Some (binary_op x y).
Proof.
  induction l as [|a|a b l [IHeven IHout]] using list_pair_ind.
  - split; [split; [by exists 0%nat|by eauto]|].
    intros out [= <-]. split; [done|]. intros i x y Hx. by rewrite lookup_nil in Hx.
  - split; [|done]. split; [by intros [? ?]|].
    intros [k Hk]. simpl in Hk. lia.
  - cbn [pair_and_transform]. split.
    + rewrite fmap_is_Some, IHeven. symmetry. apply Nat.Even_succ_succ.
    + intros out Hout. apply fmap_Some in Hout as (out' & Hout' & ->).
      destruct (IHout _ Hout') as [Hlen Hnth]. split; [simpl; lia|].
      intros [|i] x y Hx Hy.
      * simpl in *. congruence.
      * replace (2 * S i)%nat with (S (S (2 * i))) in Hx by lia.
        replace (2 * S i + 1)%nat with (S (S (2 * i + 1))) in Hy by lia.
        exact (Hnth i x y Hx Hy).
Qed.

(** * More properties of the PSBT wrapper *)

(** ** Matching the wallet's UTXOs *)

Lemma take_matching_utxo_loop_first (us : list json) (txhash_hex : string) (vout : Z)
    (found : option json) :
  Psbt.take_matching_utxo_loop us txhash_hex vout = Ok found →
  match found with
  | Some u => ∃ before after, us = before ++ u :: after
                ∧ utxo_matches txhash_hex vout u
                ∧ Forall (λ u', ¬ utxo_matches txhash_hex vout u') before
  | None => Forall (λ u', ¬ utxo_matches txhash_hex vout u') us
  end.
Proof.
  induction us as [|u us IH]; simpl.
  - intros [= <-]. constructor.
  - assert (¬ utxo_matches txhash_hex vout u →
            Psbt.take_matching_utxo_loop us txhash_hex vout = Ok found →
            match found with
            | Some u0 => ∃ before after, u :: us = before ++ u0 :: after
                           ∧ utxo_matches txhash_hex vout u0
                           ∧ Forall (λ u', ¬ utxo_matches txhash_hex vout u') before
            | None => Forall (λ u', ¬ utxo_matches txhash_hex vout u') (u :: us)
            end) as Hskip.
    { intros Hno Hrest. apply IH in Hrest. destruct found as [u0|].
      - destruct Hrest as (before & after & -> & Hm & Hbefore).
        exists (u :: before), after. split_and!; [done|done|]. by constructor.
      - by constructor. }
    destruct (json_ops.empty u) eqn:Hempty.
    { apply Hskip. unfold utxo_matches. rewrite Hempty. by intros [? _]. }
    case_bind pt_idx Hidx. destruct (pt_idx =? vout) eqn:Hvout.
    + apply Z.eqb_eq in Hvout as ->. case_bind txhash Hhash.
      case_bool_decide as Heq.
      * intros [= <-]. subst txhash. exists [], us. split_and!; [done|done|constructor].
      * apply Hskip. unfold utxo_matches. rewrite Hhash. intros (_ & _ & [= ?]). done.
    + apply Z.eqb_neq in Hvout. apply Hskip.
      unfold utxo_matches. rewrite Hidx. intros (_ & [= ?] & _). done.
Qed.

(** X17: when [take_matching_utxo] returns, it has found the first element
    of [utxos] that is not empty and has the [pt_idx] and [txhash] asked
    for, or there is no such element. *)
Theorem take_matching_utxo_first (utxos : json) (txhash_hex : string) (vout : Z)
    (found : option json) :
  Psbt.take_matching_utxo utxos txhash_hex vout = Ok found →
  match found with
  | Some u => ∃ before after, json_elements utxos = before ++ u :: after
                ∧ utxo_matches txhash_hex vout u
                ∧ Forall (λ u', ¬ utxo_matches txhash_hex vout u') before
  | None => Forall (λ u', ¬ utxo_matches txhash_hex vout u') (json_elements utxos)
  end.
Proof. apply take_matching_utxo_loop_first. Qed.

Lemma take_matching_utxo_loop_app (l1 l2 : list json) (txhash_hex : string) (vout : Z) :
  Psbt.take_matching_utxo_loop (l1 ++ l2) txhash_hex vout
  = (found ← Psbt.take_matching_utxo_loop l1 txhash_hex vout;
     match found with
     | Some u => Ok (Some u)
     | None => Psbt.take_matching_utxo_loop l2 txhash_hex vout
     end).
Proof.
  induction l1 as [|u l1 IH]; simpl; [done|].
  destruct (json_ops.empty u); [done|].
  destruct (j_uint32ref u "pt_idx") as [pt_idx|]; simpl; [|done].
  destruct (pt_idx =? vout); [|done].
  destruct (j_strref u "txhash") as [txhash|]; simpl; [|done].
  by case_bool_decide.
Qed.

Lemma take_matching_utxo_items_concat (items : list json) (txhash_hex : string) (vout : Z) :
  Psbt.take_matching_utxo_items items txhash_hex vout
  = Psbt.take_matching_utxo_loop (items ≫= json_elements) txhash_hex vout.
Proof.
  induction items as [|value items IH]; simpl; [done|].
  rewrite take_matching_utxo_loop_app, IH. done.
Qed.

(** X18: the two formats of [utxos] are searched alike.  The standard
    format [{ asset: [utxo, ...] }] is searched as the flat array of its
    per-asset arrays, in the order of the asset keys; so a single asset's
    array gives what the (deprecated) flat array gives. *)
Theorem find_wallet_utxo_formats (txhash_hex : string) (vout : Z) :
  (∀ m : gmap string json,
     Psbt.find_wallet_utxo (JObj m) txhash_hex vout
     = Psbt.find_wallet_utxo (JArr (sorted_values m ≫= json_elements)) txhash_hex vout)
  ∧ (∀ (asset : string) (us : list json),
       Psbt.find_wallet_utxo (JObj {[ asset := JArr us ]}) txhash_hex vout
       = Psbt.find_wallet_utxo (JArr us) txhash_hex vout).
Proof.
  assert (∀ m : gmap string json,
            Psbt.find_wallet_utxo (JObj m) txhash_hex vout
            = Psbt.find_wallet_utxo (JArr (sorted_values m ≫= json_elements)) txhash_hex vout)
    as Hflat.
  { intros m. unfold Psbt.find_wallet_utxo, Psbt.take_matching_utxo. simpl.
    apply take_matching_utxo_items_concat. }
  split; [done|]. intros asset us. rewrite Hflat. do 2 f_equal.
  unfold sorted_values. rewrite map_to_list_singleton. simpl. by rewrite app_nil_r.
Qed.

(** ** The loop of [inputs_to_json] *)

Lemma foldlM_seq_invariant {A} (f : A → nat → result A) (Q : nat → A → Prop)
    (start n : nat) (a a' : A) :
  Q start a →
  (∀ k b b', (start ≤ k < start + n)%nat → Q k b → f b k = Ok b' → Q (S k) b') →
  foldlM f a (seq start n) = Ok a' →
  Q (start + n)%nat a'.
Proof.
  revert start a. induction n as [|n IH]; intros start a Hstart Hstep; simpl.
  - intros [= <-]. by rewrite Nat.add_0_r.
  - case_bind b Hb. intros Hrest.
    replace (start + S n)%nat with (S start + n)%nat by lia.
    apply (IH (S start) b); [|intros; eapply Hstep; [lia|done..]|done].
    eapply Hstep; [lia|done..].
Qed.

Section psbt_inputs.
Context `{WallyPsbt} `{Session}.

(** What [ensure_input_utxo] returns: the PSBT as it was, or with the
    fetched transaction attached to input [i]; either way the UTXO returned
    is the best UTXO of input [i] in the PSBT returned. *)
Lemma ensure_input_utxo_Ok (p p' : wally_psbt.t) (i : nat) (txhash_hex : string)
    (txin_utxo : wally_tx_output.t) :
  Psbt.ensure_input_utxo p i txhash_hex = Ok (p', txin_utxo) →
  wally_psbt_get_input_best_utxo p' i = Some (Some txin_utxo)
  ∧ (p' = p
     ∨ ∃ input utxo_tx, wally_psbt.inputs p !! i = Some input
         ∧ wally_psbt_get_input_best_utxo p i = Some None
         ∧ get_raw_transaction_details txhash_hex = Ok utxo_tx
         ∧ p' = wally_psbt.with_inputs p
                  (<[ i := wally_psbt_input.with_utxo input utxo_tx ]> (wally_psbt.inputs p))).
Proof.
  unfold Psbt.ensure_input_utxo.
  destruct (wally_psbt_get_input_best_utxo p i) as [[o|]|] eqn:Hbest; simpl; [| |done].
  - intros [= <- <-]. split; [done|by left].
  - destruct (get_raw_transaction_details txhash_hex) as [utxo_tx|] eqn:Hraw; simpl; [|done].
    unfold wally_psbt_set_input_utxo.
    destruct (wally_psbt.inputs p !! i) as [input|] eqn:Hinput; simpl; [|done].
    match goal with
    | |- context [wally_psbt_get_input_best_utxo ?q i] =>
        destruct (wally_psbt_get_input_best_utxo q i) as [[o|]|] eqn:Hbest'; simpl; [| |done]
    end; [|done].
    intros [= <- <-]. split; [done|]. right. eauto 10.
Qed.

(** X19: [ensure_input_utxo] fetches at most once.  When it has returned a
    UTXO for an input, a second call on the PSBT it returned gives the same
    UTXO and the same PSBT, whatever the session would answer. *)
Theorem ensure_input_utxo_idempotent (p p' : wally_psbt.t) (i : nat)
    (txhash_hex txhash_hex' : string) (txin_utxo : wally_tx_output.t) :
  Psbt.ensure_input_utxo p i txhash_hex = Ok (p', txin_utxo) →
  Psbt.ensure_input_utxo p' i txhash_hex' = Ok (p', txin_utxo).
Proof.
  intros Hensure. apply ensure_input_utxo_Ok in Hensure as [Hbest _].
  unfold Psbt.ensure_input_utxo. by rewrite Hbest.
Qed.

(** The steps of a round of [inputs_to_json] that returned. *)
Lemma inputs_to_json_step_Ok (utxos : json) (st st' : Psbt.inputs_state) (i : nat) :
  Psbt.inputs_to_json_step utxos st i = Ok st' →
  ∃ psbt_input txin raw txhash_hex matched p txin_utxo utxo,
    Psbt.get_input (Psbt.st_psbt st) i = Ok psbt_input
    ∧ Psbt.tx_get_input (Psbt.st_tx st) i = Ok txin
    ∧ input_to_json (Psbt.st_tx st) i = Ok raw
    ∧ j_strref raw "txhash" = Ok txhash_hex
    ∧ Psbt.find_wallet_utxo utxos txhash_hex (wally_psbt_input.index psbt_input) = Ok matched
    ∧ Psbt.ensure_input_utxo (Psbt.m_psbt (Psbt.st_psbt st)) i txhash_hex = Ok (p, txin_utxo)
    ∧ Psbt.st_psbt st' = Psbt.with_psbt (Psbt.st_psbt st) p
    ∧ Psbt.st_inputs st' = Psbt.st_inputs st ++ [utxo]
    ∧ match matched with
      | Some wallet_utxo =>
          ∃ txin' asset,
            Psbt.wallet_input_to_json (Psbt.with_psbt (Psbt.st_psbt st) p) (Psbt.st_tx st) i
              psbt_input txin wallet_utxo = Ok (utxo, txin', asset)
            ∧ Psbt.st_tx st'
              = Tx.with_inputs (Psbt.st_tx st) (<[ i := txin' ]> (Tx.inputs (Psbt.st_tx st)))
            ∧ Psbt.st_wallet_assets st' = {[ asset ]} ∪ Psbt.st_wallet_assets st
      | None =>
          Psbt.non_wallet_input_to_json (Psbt.with_psbt (Psbt.st_psbt st) p) psbt_input
            txin_utxo raw = Ok utxo
          ∧ Psbt.st_tx st' = Psbt.st_tx st
          ∧ Psbt.st_wallet_assets st' = Psbt.st_wallet_assets st
      end.
Proof.
  unfold Psbt.inputs_to_json_step.
  case_bind psbt_input Hinput. case_bind txin Htxin. case_bind raw Hraw.
  case_bind txhash_hex Hhash. case_bind matched Hmatched. case_bind [p txin_utxo] Hensure.
  destruct matched as [wallet_utxo|]; simpl.
  - case_bind [[utxo txin'] asset] Hwallet. intros [= <-]. simpl.
    exists psbt_input, txin, raw, txhash_hex, (Some wallet_utxo), p, txin_utxo, utxo.
    split_and!; try done. eauto.
  - case_bind utxo Hnon. intros [= <-]. simpl.
    exists psbt_input, txin, raw, txhash_hex, None, p, txin_utxo, utxo.
    split_and!; done.
Qed.

(** X20: [inputs_to_json] returns one JSON per input of the PSBT, and
    leaves the outputs alone: the PSBT it hands on has the same number of
    inputs, the same outputs, version and Liquid flag, and the transaction
    has the same outputs and as many inputs as before. *)
Theorem inputs_to_json_frame (psbt : Psbt.t) (tx : Tx.t) (utxos : json)
    (ins : Psbt.inputs_state) :
  Psbt.inputs_to_json psbt tx utxos = Ok ins →
  length (Psbt.st_inputs ins) = Psbt.get_num_inputs psbt
  ∧ Psbt.get_num_inputs (Psbt.st_psbt ins) = Psbt.get_num_inputs psbt
  ∧ wally_psbt.outputs (Psbt.m_psbt (Psbt.st_psbt ins)) = wally_psbt.outputs (Psbt.m_psbt psbt)
  ∧ wally_psbt.version (Psbt.m_psbt (Psbt.st_psbt ins)) = wally_psbt.version (Psbt.m_psbt psbt)
  ∧ Psbt.m_is_liquid (Psbt.st_psbt ins) = Psbt.m_is_liquid psbt
  ∧ Psbt.m_original_version (Psbt.st_psbt ins) = Psbt.m_original_version psbt
  ∧ Tx.outputs (Psbt.st_tx ins) = Tx.outputs tx
  ∧ length (Tx.inputs (Psbt.st_tx ins)) = length (Tx.inputs tx).
Proof.
  unfold Psbt.inputs_to_json. intros Hloop.
  apply (foldlM_seq_invariant _
           (λ k st,
              length (Psbt.st_inputs st) = k
              ∧ Psbt.get_num_inputs (Psbt.st_psbt st) = Psbt.get_num_inputs psbt
              ∧ wally_psbt.outputs (Psbt.m_psbt (Psbt.st_psbt st))
                = wally_psbt.outputs (Psbt.m_psbt psbt)
              ∧ wally_psbt.version (Psbt.m_psbt (Psbt.st_psbt st))
                = wally_psbt.version (Psbt.m_psbt psbt)
              ∧ Psbt.m_is_liquid (Psbt.st_psbt st) = Psbt.m_is_liquid psbt
              ∧ Psbt.m_original_version (Psbt.st_psbt st) = Psbt.m_original_version psbt
              ∧ Tx.outputs (Psbt.st_tx st) = Tx.outputs tx
              ∧ length (Tx.inputs (Psbt.st_tx st)) = length (Tx.inputs tx))) in Hloop.
  - done.
  - done.
  - intros k st st' _ (Hlen & Hn & Houts & Hver & Hliquid & Horig & Htxouts & Htxins) Hstep.
    apply inputs_to_json_step_Ok in Hstep
      as (psbt_input & txin & raw & h & matched & p & o & utxo
          & _ & _ & _ & _ & _ & Hensure & -> & -> & Hrest).
    apply ensure_input_utxo_Ok in Hensure as [_ Hp].
    assert (length (wally_psbt.inputs p) = length (wally_psbt.inputs (Psbt.m_psbt (Psbt.st_psbt st)))
            ∧ wally_psbt.outputs p = wally_psbt.outputs (Psbt.m_psbt (Psbt.st_psbt st))
            ∧ wally_psbt.version p = wally_psbt.version (Psbt.m_psbt (Psbt.st_psbt st)))
      as (Hpins & Hpouts & Hpver).
    { destruct Hp as [->|(input & utxo_tx & _ & _ & _ & ->)]; [done|].
      simpl. by rewrite length_insert. }
    unfold Psbt.get_num_inputs in *. simpl.
    rewrite length_app, Hlen, Hpins, Hn, Hpouts, Houts, Hpver, Hver, Hliquid, Horig. simpl.
    split_and!; try done; try lia.
    + destruct matched; [destruct Hrest as (? & ? & _ & -> & _)|destruct Hrest as (_ & -> & _)];
        done.
    + destruct matched; [destruct Hrest as (? & ? & _ & -> & _)|destruct Hrest as (_ & -> & _)];
        [simpl; by rewrite length_insert|done].
Qed.

Lemma find_wallet_utxo_empty (utxos : json) (txhash_hex : string) (vout : Z) :
  json_ops.empty utxos = true → Psbt.find_wallet_utxo utxos txhash_hex vout = Ok None.
Proof.
  destruct utxos as [| | | |l|m]; try done; simpl.
  - intros Hl. apply bool_decide_eq_true in Hl as ->. done.
  - intros Hm. apply bool_decide_eq_true in Hm as ->.
    unfold Psbt.find_wallet_utxo. simpl. unfold sorted_values. by rewrite map_to_list_empty.
Qed.

(** X21: without wallet UTXOs (null, an empty array or an empty object),
    [inputs_to_json] takes every input for a foreign one: each JSON has
    [skip_signing] set, no asset is recorded as funded by the wallet, and the
    transaction is handed on as it came. *)
Theorem inputs_to_json_no_wallet_utxos (psbt : Psbt.t) (tx : Tx.t) (utxos : json)
    (ins : Psbt.inputs_state) :
  json_ops.empty utxos = true →
  Psbt.inputs_to_json psbt tx utxos = Ok ins →
  Psbt.st_wallet_assets ins = ∅
  ∧ Psbt.st_tx ins = tx
  ∧ Forall (λ utxo, json_ops.find utxo "skip_signing" = Some (JBool true)) (Psbt.st_inputs ins).
Proof.
  intros Hempty. unfold Psbt.inputs_to_json. intros Hloop.
  apply (foldlM_seq_invariant _
           (λ _ st,
              Psbt.st_wallet_assets st = ∅ ∧ Psbt.st_tx st = tx
              ∧ Forall (λ utxo, json_ops.find utxo "skip_signing" = Some (JBool true))
                  (Psbt.st_inputs st))) in Hloop; [done|by split_and!|].
  intros k st st' _ (Hassets & Htx & Hall) Hstep.
  apply inputs_to_json_step_Ok in Hstep
    as (psbt_input & txin & raw & h & matched & p & o & utxo
        & _ & _ & _ & _ & Hmatched & _ & _ & -> & Hrest).
  rewrite find_wallet_utxo_empty in Hmatched by done. injection Hmatched as <-.
  destruct Hrest as (Hnon & -> & ->). split_and!; [done|done|].
  apply Forall_app. split; [done|]. constructor; [|done].
  by eapply non_wallet_input_skip_signing.
Qed.

End psbt_inputs.

(** ** The loops of [outputs_to_json] *)

Section psbt_outputs.
Context `{WallyPsbt} `{Session}.

(** The first loop: one JSON per output, each the loop body's; entries of
    [asset_outputs] are made on a multisig session only, for assets the
    wallet funded. *)
Lemma outputs_loop_Ok (psbt : Psbt.t) (tx : Tx.t) (wallet_assets : gset string) (n : nat)
    (st : Psbt.outputs_state) :
  foldlM (Psbt.outputs_to_json_step psbt tx wallet_assets)
    {| Psbt.st_outputs := []; Psbt.st_spent_assets := ∅; Psbt.st_asset_outputs := ∅ |}
    (seq 0 n) = Ok st →
  length (Psbt.st_outputs st) = n
  ∧ (∀ i, (i < n)%nat →
       ∃ jsonout info, Psbt.output_to_json psbt tx i = Ok (jsonout, info)
         ∧ Psbt.st_outputs st !! i = Some jsonout)
  ∧ (∀ asset, is_Some (Psbt.st_asset_outputs st !! asset) →
       asset ∈ wallet_assets ∧ is_electrum get_network_parameters = false).
Proof.
  intros Hloop.
  apply (foldlM_seq_invariant _
           (λ k st,
              length (Psbt.st_outputs st) = k
              ∧ (∀ i, (i < k)%nat →
                   ∃ jsonout info, Psbt.output_to_json psbt tx i = Ok (jsonout, info)
                     ∧ Psbt.st_outputs st !! i = Some jsonout)
              ∧ (∀ asset, is_Some (Psbt.st_asset_outputs st !! asset) →
                   asset ∈ wallet_assets ∧ is_electrum get_network_parameters = false)))
    in Hloop; [done| |].
  { simpl. split_and!; [done|intros; lia|]. intros asset [? Hl]. by rewrite lookup_empty in Hl. }
  clear Hloop st. intros k st st' _ (Hlen & Hout & Hassets). unfold Psbt.outputs_to_json_step.
  case_bind [jsonout info] Hjson. intros [= <-]. simpl.
  assert (Psbt.st_outputs (Psbt.collect_change wallet_assets k info st) = Psbt.st_outputs st)
    as ->.
  { unfold Psbt.collect_change. destruct info as [[[] a]|]; [| |done];
      by destruct (negb _ && _). }
  split_and!.
  - rewrite length_app. simpl. lia.
  - intros i Hi. destruct (decide (i = k)) as [->|Hne].
    + exists jsonout, info. split; [done|]. rewrite lookup_app_r by lia.
      by rewrite Hlen, Nat.sub_diag.
    + destruct (Hout i) as (j & inf & Hj & Hl); [lia|].
      exists j, inf. split; [done|]. by rewrite lookup_app_l by lia.
  - intros asset. unfold Psbt.collect_change. destruct info as [[[] a]|]; [| |by auto].
    + destruct (negb (is_electrum get_network_parameters)) eqn:He; simpl; [|by auto].
      case_bool_decide as Ha; simpl; [|by auto].
      destruct (decide (asset = a)) as [->|Hne].
      * intros _. split; [done|]. by apply negb_true_iff.
      * rewrite lookup_insert_ne by done. auto.
    + destruct (negb _ && _); simpl; auto.
Qed.

(** The second loop writes nothing but ["is_change"]. *)
Lemma mark_change_frame (wallet_assets spent_assets : gset string)
    (entries : list (string * list nat)) (outputs outs : list json) :
  foldlM (Psbt.mark_change wallet_assets spent_assets) outputs entries = Ok outs →
  length outs = length outputs
  ∧ ∀ i jsonout, outputs !! i = Some jsonout →
      ∃ marked, outs !! i = Some marked
        ∧ ∀ key, key ≠ "is_change" → json_ops.find marked key = json_ops.find jsonout key.
Proof.
  revert outputs. induction entries as [|o entries IH]; intros outputs; simpl.
  - intros [= <-]. split; [done|]. eauto.
  - case_bind outs1 Hmark. intros Hrest. destruct (IH _ Hrest) as [Hlen Hframe].
    unfold Psbt.mark_change in Hmark.
    destruct (bool_decide (o.1 ∈ wallet_assets)); [|by injection Hmark as <-].
    destruct (head o.2) as [front|]; simpl in Hmark; [|done].
    apply set_is_change_Ok in Hmark as (j0 & marked0 & Hj0 & Hset & ->).
    rewrite length_insert in Hlen. split; [done|].
    intros i jsonout Hi. destruct (decide (i = front)) as [->|Hne].
    + destruct (Hframe front marked0) as (marked & Hm & Hkeys).
      { apply list_lookup_insert_eq. by eapply lookup_lt_Some. }
      exists marked. split; [done|]. intros key Hkey. rewrite Hkeys by done.
      assert (j0 = jsonout) as -> by congruence. by eapply set_find_ne.
    + apply Hframe. by rewrite list_lookup_insert_ne.
Qed.

(** X22: [outputs_to_json] returns one JSON per output of the PSBT; each
    is what the loop body made of that output, and the change heuristic
    writes nothing on it but ["is_change"]. *)
Theorem outputs_to_json_frame (psbt : Psbt.t) (tx : Tx.t) (wallet_assets : gset string)
    (outs : list json) :
  Psbt.outputs_to_json psbt tx wallet_assets = Ok outs →
  length outs = Psbt.get_num_outputs psbt
  ∧ ∀ i, (i < Psbt.get_num_outputs psbt)%nat →
      ∃ jsonout info marked,
        Psbt.output_to_json psbt tx i = Ok (jsonout, info)
        ∧ outs !! i = Some marked
        ∧ ∀ key, key ≠ "is_change" → json_ops.find marked key = json_ops.find jsonout key.
Proof.
  unfold Psbt.outputs_to_json. case_bind st Hloop.
  apply outputs_loop_Ok in Hloop as (Hlen & Hout & _).
  destruct (negb (is_electrum get_network_parameters)).
  - intros Hmark. apply mark_change_frame in Hmark as [Hlen' Hframe].
    split; [lia|]. intros i Hi. destruct (Hout i Hi) as (jsonout & info & Hj & Hl).
    destruct (Hframe i jsonout Hl) as (marked & Hm & Hkeys). eauto 10.
  - intros [= <-]. split; [done|]. intros i Hi.
    destruct (Hout i Hi) as (jsonout & info & Hj & Hl). eauto 10.
Qed.

(** X23: on a singlesig (Electrum) session, and on a multisig session when
    the wallet funded no asset, the change heuristic marks nothing: the
    outputs come out exactly as the loop body made them. *)
Theorem outputs_to_json_unmarked (psbt : Psbt.t) (tx : Tx.t) (wallet_assets : gset string)
    (outs : list json) :
  is_electrum get_network_parameters = true ∨ wallet_assets = ∅ →
  Psbt.outputs_to_json psbt tx wallet_assets = Ok outs →
  length outs = Psbt.get_num_outputs psbt
  ∧ ∀ i, (i < Psbt.get_num_outputs psbt)%nat →
      ∃ jsonout info, Psbt.output_to_json psbt tx i = Ok (jsonout, info)
        ∧ outs !! i = Some jsonout.
Proof.
  intros Hcase. unfold Psbt.outputs_to_json. case_bind st Hloop.
  apply outputs_loop_Ok in Hloop as (Hlen & Hout & Hassets).
  assert (Psbt.st_asset_outputs st = ∅) as Hnone.
  { apply map_empty. intros asset.
    destruct (Psbt.st_asset_outputs st !! asset) as [l|] eqn:Hl; [|done].
    destruct (Hassets asset) as [Hin He]; [by eauto|].
    destruct Hcase as [Hel| ->]; [congruence|set_solver]. }
  rewrite Hnone, map_to_list_empty. simpl.
  destruct (negb (is_electrum get_network_parameters)); intros [= <-]; done.
Qed.

End psbt_outputs.

(** ** Singlesig wallet outputs *)

Section singlesig_outputs.
Context `{WallyPsbt} `{Session}.

Lemma classify_output_singlesig (psbt : Psbt.t) (tx : Tx.t) (i : nat) (script : list byte)
    (jsonout0 jsonout : json) (asset : string) :
  is_electrum get_network_parameters = true →
  Psbt.m_is_liquid psbt = false →
  Psbt.classify_output psbt tx i script jsonout0 = Ok (jsonout, Some (true, asset)) →
  ∃ before m, utxo_add_paths before = Ok (JObj m)
    ∧ jsonout = JObj (delete "subtype" (delete "branch" (j_rename m "is_internal" "is_change"))).
Proof.
  intros Helectrum Hliquid. unfold Psbt.classify_output.
  rewrite Helectrum, Hliquid.
  case_bind output_data Hdata.
  destruct (json_ops.empty output_data) eqn:Hempty; simpl.
  { destruct (get_address_from_scriptpubkey script) as [address|]; simpl; [|done].
    destruct (json_ops.set jsonout0 "address" _) as [j1|]; simpl; [|done]. by intros [= ]. }
  destruct (json_update jsonout0 output_data) as [j1|]; simpl; [|done].
  destruct (get_address_from_utxo j1) as [address|]; simpl; [|done].
  destruct (json_ops.set j1 "address" _) as [j2|]; simpl; [|done].
  destruct (utxo_add_paths j2) as [j3|] eqn:Hpaths; simpl; [|done].
  destruct j3 as [| | | | |m]; simpl; try done.
  intros [= <- <-]. eauto.
Qed.

(** X24: on a singlesig (Electrum) Bitcoin session, a wallet output comes
    out with ["is_internal"] renamed to ["is_change"] ("outputs on the
    internal chain are change") and without ["branch"] and ["subtype"]. *)
Theorem output_to_json_singlesig (psbt : Psbt.t) (tx : Tx.t) (i : nat) (jsonout : json)
    (asset : string) :
  is_electrum get_network_parameters = true →
  Psbt.m_is_liquid psbt = false →
  Psbt.output_to_json psbt tx i = Ok (jsonout, Some (true, asset)) →
  json_ops.find jsonout "is_internal" = None
  ∧ json_ops.find jsonout "branch" = None
  ∧ json_ops.find jsonout "subtype" = None
  ∧ ∃ before m, utxo_add_paths before = Ok (JObj m)
      ∧ json_ops.find jsonout "is_change"
        = (if m !! "is_internal" is Some is_internal then Some is_internal
           else m !! "is_change")
      ∧ ∀ key, key ∉ ["is_internal"; "is_change"; "branch"; "subtype"] →
          json_ops.find jsonout key = m !! key.
Proof.
  intros Helectrum Hliquid. unfold Psbt.output_to_json.
  case_bind txout Hout. rewrite Hliquid. simpl.
  destruct (wally_psbt_output.has_amount txout); simpl; [|done].
  destruct (wally_psbt_output.script txout) as [script|]; simpl; [|done].
  destruct (negb (bool_decide (script = []))); simpl; [|done].
  intros Hc. apply classify_output_singlesig in Hc as (before & m & Hpaths & ->); [|done..].
  simpl. unfold j_rename.
  split_and!.
  - rewrite !lookup_delete_ne by done.
    destruct (m !! "is_internal") eqn:Hi; [|done].
    rewrite lookup_insert_ne by done. apply lookup_delete_eq.
  - rewrite lookup_delete_ne by done. apply lookup_delete_eq.
  - apply lookup_delete_eq.
  - exists before, m. split; [done|]. split.
    + rewrite !lookup_delete_ne by done.
      destruct (m !! "is_internal") eqn:Hi; [|done]. apply lookup_insert_eq.
    + intros key Hkey.
      rewrite !lookup_delete_ne by (intros <-; apply Hkey; set_solver).
      destruct (m !! "is_internal") eqn:Hi; [|done].
      rewrite lookup_insert_ne by (intros <-; apply Hkey; set_solver).
      apply lookup_delete_ne. intros <-; apply Hkey; set_solver.
Qed.

End singlesig_outputs.

(** ** Liquid outputs *)

Lemma set_pset_field_Ok (fields : gmap Z (list byte)) (j j' : json) (key : string) (k : Z)
    (do_reverse : bool) :
  Psbt.set_pset_field fields j key k do_reverse = Ok j' →
  ∃ val, fields !! k = Some val
    ∧ json_ops.set j key (JStr ((if do_reverse then b2h_rev else b2h) val)) = Ok j'.
Proof.
  unfold Psbt.set_pset_field, Psbt.get_field. destruct (fields !! k) as [val|]; [|done]. eauto.
Qed.

Lemma blinded_output_fields_Ok (fields : gmap Z (list byte)) (j j' : json) :
  Psbt.blinded_output_fields fields j = Ok j' →
  Forall (λ k, is_Some (fields !! k)) blinded_output_keys.
Proof.
  unfold Psbt.blinded_output_fields.
  case_bind j1 H1. case_bind j2 H2. case_bind j3 H3. case_bind j4 H4.
  case_bind j5 H5. case_bind j6 H6. case_bind j7 H7. intros H8.
  apply set_pset_field_Ok in H1 as (? & ? & _), H2 as (? & ? & _), H3 as (? & ? & _),
    H4 as (? & ? & _), H5 as (? & ? & _), H6 as (? & ? & _), H7 as (? & ? & _),
    H8 as (? & ? & _).
  repeat constructor; eauto.
Qed.

Section liquid_outputs.
Context `{WallyPsbt} `{Session}.

(** X25: what a Liquid output must be for [outputs_to_json] to get past
    it.  It has an explicit asset and amount, and it is either unblinded
    with no script (the fee: its JSON is the asset, the amount and an empty
    ["scriptpubkey"], and it takes no part in change detection), or fully
    blinded with a script and all eight blinding fields. *)
Theorem output_to_json_liquid (psbt : Psbt.t) (tx : Tx.t) (i : nat) (jsonout : json)
    (info : Psbt.change_info) :
  Psbt.m_is_liquid psbt = true →
  Psbt.output_to_json psbt tx i = Ok (jsonout, info) →
  ∃ txout asset_bytes blinding_status,
    Psbt.get_output psbt i = Ok txout
    ∧ wally_psbt_output.has_amount txout = true
    ∧ wally_psbt_output.pset_fields txout !! Psbt.out_asset = Some asset_bytes
    ∧ wally_psbt_get_output_blinding_status (Psbt.m_psbt psbt) i 0 = Some blinding_status
    ∧ ((blinding_status = WALLY_PSET_BLINDED_NONE
        ∧ wally_psbt_output.script txout = None
        ∧ info = None
        ∧ json_ops.find jsonout "asset_id" = Some (JStr (b2h_rev asset_bytes))
        ∧ json_ops.find jsonout "satoshi" = Some (JNum (wally_psbt_output.amount txout))
        ∧ json_ops.find jsonout "scriptpubkey" = Some (JStr ""))
       ∨ (blinding_status = WALLY_PSET_BLINDED_FULL
          ∧ is_Some (wally_psbt_output.script txout)
          ∧ Forall (λ k, is_Some (wally_psbt_output.pset_fields txout !! k))
              blinded_output_keys)).
Proof.
  intros Hliquid. unfold Psbt.output_to_json.
  case_bind txout Hout. rewrite Hliquid. simpl.
  case_bind j1 Hasset. apply set_pset_field_Ok in Hasset as (asset_bytes & Hasset & Hj1).
  destruct (wally_psbt_output.has_amount txout) eqn:Hamount; simpl; [|done].
  case_bind j2 Hj2.
  destruct (wally_psbt_get_output_blinding_status (Psbt.m_psbt psbt) i 0)
    as [blinding_status|] eqn:Hstatus; simpl; [|done].
  destruct (blinding_status =? WALLY_PSET_BLINDED_NONE) eqn:Hnone.
  - apply Z.eqb_eq in Hnone as ->.
    case_bool_decide as Hscript; simpl; [|done].
    case_bind j3 Hj3. intros [= <- <-].
    exists txout, asset_bytes, WALLY_PSET_BLINDED_NONE. split_and!; try done.
    left. split_and!; try done.
    + rewrite (set_find_ne _ _ _ _ _ Hj3), (set_find_ne _ _ _ _ _ Hj2) by done.
      by eapply set_find_eq.
    + rewrite (set_find_ne _ _ _ _ _ Hj3) by done. by eapply set_find_eq.
    + by eapply set_find_eq.
  - destruct (blinding_status =? WALLY_PSET_BLINDED_FULL) eqn:Hfull; simpl; [|done].
    apply Z.eqb_eq in Hfull as ->.
    case_bind j3 Hfields. apply blinded_output_fields_Ok in Hfields.
    destruct (wally_psbt_output.script txout) as [script|] eqn:Hscript; simpl; [|done].
    intros _. exists txout, asset_bytes, WALLY_PSET_BLINDED_FULL. split_and!; try done.
    right. split_and!; [done|by eauto|done].
Qed.

End liquid_outputs.

(** ** Wallet inputs *)

Section wallet_inputs.
Context `{WallyTxInputLaws} `{Session}.

(** X26: for a wallet input, [inputs_to_json] calls the setter of the
    script and the setter of the witness only where the transaction input
    has none.  So, the setters changing only their own member, a script or a
    witness that the input already had is the one it keeps, an input that
    had both comes out as it went in, and the outpoint and the sequence are
    untouched.  (Whether a missing script or witness is present afterwards
    is up to the dummy signatures and to libwally.) *)
Theorem wallet_input_keeps_signatures (psbt : Psbt.t) (tx : Tx.t) (i : nat)
    (psbt_input : wally_psbt_input.t) (txin txin' : wally_tx_input.t) (utxo utxo' : json)
    (asset : string) :
  Psbt.wallet_input_to_json psbt tx i psbt_input txin utxo = Ok (utxo', txin', asset) →
  (∀ script, wally_tx_input.script txin = Some script →
     wally_tx_input.script txin' = Some script)
  ∧ (∀ witness, wally_tx_input.witness txin = Some witness →
       wally_tx_input.witness txin' = Some witness)
  ∧ (is_Some (wally_tx_input.script txin) → is_Some (wally_tx_input.witness txin) →
     txin' = txin)
  ∧ wally_tx_input.txhash txin' = wally_tx_input.txhash txin
  ∧ wally_tx_input.index txin' = wally_tx_input.index txin
  ∧ wally_tx_input.sequence txin' = wally_tx_input.sequence txin
  ∧ j_assetref (Psbt.m_is_liquid psbt) utxo = Ok asset.
Proof.
  unfold Psbt.wallet_input_to_json.
  case_bind asset' Hasset. case_bind u1 Hsighash. case_bind u2 Herase. case_bind u3 Hpaths.
  destruct (wally_tx_input.script txin) as [script|] eqn:Hscript;
    destruct (wally_tx_input.witness txin) as [witness|] eqn:Hwitness; simpl.
  - intros [= <- <- <-]. split_and!; try done; congruence.
  - destruct (get_scriptsig_and_witness u3) as [[scriptsig w]|]; simpl; [|done].
    rewrite Hwitness. simpl.
    destruct (wally_tx_input_set_witness txin w) as [txin1|] eqn:Hset; simpl; [|done].
    intros [= <- <- <-].
    apply set_witness_others in Hset as (-> & -> & -> & Hkept).
    rewrite Hkept, Hscript. split_and!; done.
  - destruct (get_scriptsig_and_witness u3) as [[scriptsig w]|]; simpl; [|done].
    destruct (wally_tx_input_set_script txin scriptsig) as [txin1|] eqn:Hset; simpl; [|done].
    apply set_script_others in Hset as (Htxhash & Hindex & Hsequence & Hkept).
    rewrite Hkept, Hwitness. simpl. intros [= <- <- <-].
    rewrite Htxhash, Hindex, Hsequence, Hkept, Hwitness.
    split_and!; done.
  - destruct (get_scriptsig_and_witness u3) as [[scriptsig w]|]; simpl; [|done].
    destruct (wally_tx_input_set_script txin scriptsig) as [txin1|] eqn:Hset1; simpl; [|done].
    apply set_script_others in Hset1 as (Htxhash & Hindex & Hsequence & Hkept).
    rewrite Hkept, Hwitness. simpl.
    destruct (wally_tx_input_set_witness txin1 w) as [txin2|] eqn:Hset2; simpl; [|done].
    apply set_witness_others in Hset2 as (Htxhash2 & Hindex2 & Hsequence2 & _).
    intros [= <- <- <-].
    rewrite Htxhash2, Hindex2, Hsequence2, Htxhash, Hindex, Hsequence.
    split_and!; done.
Qed.

End wallet_inputs.

(** ** [to_json] *)

Lemma filter_length_forallb {A} (f : A → bool) (l : list A) :
  (length (List.filter f l) =? length l)%nat = forallb f l.
Proof.
  assert (length (List.filter f l) ≤ length l)%nat as Hle by apply List.filter_length_le.
  induction l as [|a l IH]; [done|]. simpl.
  pose proof (List.filter_length_le f l) as Hle'.
  destruct (f a); simpl.
  - apply IH. done.
  - apply Nat.eqb_neq. lia.
Qed.

Section psbt_to_json.
Context `{WallyPsbt} `{Session}.

(** X27: [to_json] is [get_details] of the UTXOs with ["is_partial"] added:
    true exactly when some entry of ["transaction_inputs"] is not a wallet
    UTXO; every other entry of the details is kept. *)
Theorem to_json_is_partial (psbt psbt' : Psbt.t) (utxos result : json) :
  Psbt.to_json psbt utxos = Ok (result, psbt') →
  ∃ details inputs,
    Psbt.get_details psbt (json_object [("utxos", utxos)]) = Ok (details, psbt')
    ∧ json_ops.find details "transaction_inputs" = Some (JArr inputs)
    ∧ json_ops.find result "is_partial" = Some (JBool (negb (forallb is_wallet_utxo inputs)))
    ∧ ∀ key, key ≠ "is_partial" → json_ops.find result key = json_ops.find details key.
Proof.
  unfold Psbt.to_json. case_bind [details p] Hdetails. case_bind inputs Hinputs.
  case_bind r Hset. intros [= <- <-].
  apply j_ref_Ok in Hinputs as (v & Hv & Harr).
  destruct v as [| | | |l|]; try done. injection Harr as ->.
  exists details, inputs. split_and!; [done|done| |].
  - rewrite (set_find_eq _ _ _ _ Hset). by rewrite filter_length_forallb.
  - intros key Hkey. by eapply set_find_ne.
Qed.

End psbt_to_json.

(** ** Parsing *)

Section psbt_parsing.
Context `{WallyPsbtLaws} `{Session}.

(** X28: whatever [Psbt(psbt_base64, is_liquid)] constructs holds a
    version-2 PSBT whose Elements flag is the [is_liquid] asked for, and
    remembers the version the PSBT came in; a PSBT for the other kind of
    network is refused with the user error "PSBT/PSET mismatch". *)
Theorem from_base64_normalises (psbt_base64 : string) (is_liquid : bool) (p : wally_psbt.t) :
  wally_psbt_from_base64 psbt_base64 0 = Some p →
  (wally_psbt.is_elements p ≠ is_liquid →
   Psbt.from_base64 psbt_base64 is_liquid = Throw (user_error "PSBT/PSET mismatch"))
  ∧ ∀ psbt, Psbt.from_base64 psbt_base64 is_liquid = Ok psbt →
      wally_psbt.is_elements p = is_liquid
      ∧ Psbt.m_is_liquid psbt = is_liquid
      ∧ Psbt.m_original_version psbt = wrap32 (wally_psbt.version p)
      ∧ wally_psbt.version (Psbt.m_psbt psbt) = WALLY_PSBT_VERSION_2
      ∧ wally_psbt.is_elements (Psbt.m_psbt psbt) = is_liquid.
Proof.
  intros Hdecode. unfold Psbt.from_base64. rewrite Hdecode. simpl. split.
  - intros Hne. rewrite bool_decide_eq_true_2; [done|]. congruence.
  - intros psbt. case_bool_decide as Hel; [done|].
    destruct (wally_psbt_set_version p 0 WALLY_PSBT_VERSION_2) as [q|] eqn:Hq; simpl; [|done].
    intros [= <-]. simpl. apply set_version_fields in Hq as [Hv He].
    split_and!; try done. by rewrite He.
Qed.

End psbt_parsing.

(** ** The fee off Liquid *)

Lemma json_emplace_find_ne (j j' : json) (key key' : string) (v : json) :
  Psbt.json_emplace j key v = Ok j' → key' ≠ key → json_ops.find j' key' = json_ops.find j key'.
Proof.
  destruct j as [| | | | |m]; try done; simpl.
  - intros [= <-] Hne. simpl. by rewrite lookup_singleton_ne.
  - destruct (m !! key); simpl; intros [= <-] Hne; [done|]. simpl. by rewrite lookup_insert_ne.
Qed.

Lemma Z_sum_ext {A} (f g : A → Z) (l : list A) : (∀ x, f x = g x) → Z_sum f l = Z_sum g l.
Proof. intros Hfg. induction l as [|x l IH]; [done|]. simpl. by rewrite Hfg, IH. Qed.

Section bitcoin_fee.
Context `{WallyPsbt} `{Session}.

(** The ["fee"] entry of the details, when [update_tx_info] leaves it as it
    found it. *)
Lemma details_json_fee (is_liquid : bool) (tx : Tx.t) (inputs outputs : list json)
    (st : Psbt.fee_state) (result : json) :
  (∀ r r', update_tx_info tx r = Ok r' → json_ops.find r' "fee" = json_ops.find r "fee") →
  Psbt.details_json is_liquid tx inputs outputs st = Ok result →
  json_ops.find result "fee"
  = Some (JNum (if is_liquid then Psbt.explicit_fee st else Psbt.sum st)).
Proof.
  intros Hinfo. unfold Psbt.details_json. simpl.
  destruct (update_tx_info tx _) as [r1|] eqn:H1; simpl; [|done].
  apply Hinfo in H1.
  destruct (json_ops.set r1 "txhash" _) as [r2|] eqn:H2; simpl; [|done].
  destruct (if Psbt.use_error st then _ else _) as [r3|] eqn:H3; simpl; [|done].
  destruct (j_uint32ref r3 "calculated_fee_rate") as [rate|]; simpl; [|done].
  destruct (json_ops.set r3 "fee_rate" _) as [r4|] eqn:H4; simpl; [|done].
  destruct (if is_liquid then json_ops.set _ _ _ else _) as [r5|] eqn:H5; simpl; [|done].
  intros H6. rewrite (set_find_ne _ _ _ _ _ H6) by done.
  assert (json_ops.find r5 "fee" = json_ops.find r4 "fee") as ->.
  { destruct is_liquid; [by rewrite (set_find_ne _ _ _ _ _ H5)|by injection H5 as <-]. }
  rewrite (set_find_ne _ _ _ _ _ H4) by done.
  assert (json_ops.find r3 "fee" = json_ops.find r2 "fee") as ->.
  { destruct (Psbt.use_error st); [by rewrite (json_emplace_find_ne _ _ _ _ _ H3)|
                                    by injection H3 as <-]. }
  rewrite (set_find_ne _ _ _ _ _ H2) by done. rewrite H1. simpl.
  rewrite lookup_insert_ne by done. by rewrite lookup_insert_eq.
Qed.

(** X29: off Liquid, [get_details] has no fee to check against: whatever
    the amounts, it goes on to build the details, and the fee it records is
    the satoshi of the inputs that carry no error less the satoshi of the
    outputs, in unsigned 64-bit arithmetic (outputs that exceed the inputs
    wrap around rather than fail). *)
Theorem get_details_bitcoin_fee (psbt : Psbt.t) (details utxos : json) (tx : Tx.t)
    (ins : Psbt.inputs_state) (outputs : list json) (st : Psbt.fee_state) :
  Psbt.m_is_liquid psbt = false →
  Psbt.extract psbt = Ok tx →
  json_ops.at_ details "utxos" = Ok utxos →
  Psbt.inputs_to_json psbt tx utxos = Ok ins →
  Psbt.outputs_to_json (Psbt.st_psbt ins) (Psbt.st_tx ins) (Psbt.st_wallet_assets ins)
  = Ok outputs →
  Psbt.tally false (get_policy_asset get_network_parameters) (Psbt.st_inputs ins) outputs
  = Ok st →
  let fee :=
    wrap64 (Z_sum (λ input, if bool_decide (error_of input = "") then satoshi_of input else 0)
              (Psbt.st_inputs ins)
            - Z_sum satoshi_of outputs) in
  Psbt.get_details psbt details
  = (result ← Psbt.details_json false (Psbt.st_tx ins) (Psbt.st_inputs ins) outputs st;
     Ok (result, Psbt.st_psbt ins))
  ∧ Psbt.sum st = fee
  ∧ ∀ result psbt',
      (∀ r r', update_tx_info (Psbt.st_tx ins) r = Ok r' →
               json_ops.find r' "fee" = json_ops.find r "fee") →
      Psbt.get_details psbt details = Ok (result, psbt') →
      json_ops.find result "fee" = Some (JNum fee).
Proof.
  intros Hliquid Htx Hutxos Hins Houts Hst fee.
  assert (Psbt.get_details psbt details
          = (result ← Psbt.details_json false (Psbt.st_tx ins) (Psbt.st_inputs ins) outputs st;
             Ok (result, Psbt.st_psbt ins))) as Hrun.
  { unfold Psbt.get_details. rewrite Htx. simpl. rewrite Hutxos. simpl.
    rewrite Hins. simpl. rewrite Houts. simpl. rewrite Hliquid, Hst. done. }
  assert (Psbt.sum st = fee) as Hfee.
  { apply tally_Ok in Hst as (-> & _). unfold fee. do 2 f_equal.
    apply Z_sum_ext. intros input. unfold counted_input, counted. simpl.
    by rewrite andb_true_r. }
  split_and!; [done|done|].
  intros result psbt' Hinfo. rewrite Hrun.
  destruct (Psbt.details_json false _ _ _ _) as [r|] eqn:Hr; simpl; [|done].
  intros [= <- <-]. rewrite (details_json_fee _ _ _ _ _ _ Hinfo Hr). by rewrite Hfee.
Qed.

End bitcoin_fee.

(** * The properties, run on the small instance *)

Module signer_runs.
#[local] Existing Instance toy.wally.
#[local] Existing Instance toy.mnemonic_encryption.

Lemma get_bip32_xpub_without_source_witness :
  signer.get_bip32_xpub [harden 44] toy.hardware_signer = Throw assertion_error.
Proof.
  apply (get_bip32_xpub_without_source (H := toy.wally)). vm_compute. reflexivity.
Defined.

Lemma get_bip32_xpub_cache_grows_witness :
  toy.software_signer_1
  = signer.with_cached_bip32_xpubs toy.software_signer
      (signer.m_cached_bip32_xpubs toy.software_signer_1)
  ∧ signer.m_cached_bip32_xpubs toy.software_signer
    ⊆ signer.m_cached_bip32_xpubs toy.software_signer_1
  ∧ ∀ p, p ∈ dom (signer.m_cached_bip32_xpubs toy.software_signer_1) →
      p ∈ dom (signer.m_cached_bip32_xpubs toy.software_signer) ∨ p `prefix_of` address_5_path.
Proof.
  apply (get_bip32_xpub_cache_grows (H := toy.wally) address_5_path toy.software_signer
           toy.software_signer_1 "m/2147483732/2147483648/2147483648/0/5").
  vm_compute. reflexivity.
Defined.

Lemma get_bip32_xpub_then_has_witness :
  signer.has_bip32_xpub (address_5_path ++ [7])
    (signer.with_master_key toy.software_signer_1 None) = true.
Proof.
  apply (get_bip32_xpub_then_has (H := toy.wally) address_5_path [7] toy.software_signer
           toy.software_signer_1 "m/2147483732/2147483648/2147483648/0/5" None).
  - vm_compute. reflexivity.
  - repeat constructor.
Defined.

Lemma get_bip32_xpub_from_cached_parent_witness :
  signer.get_bip32_xpub (account_path ++ [0; 6]) toy.watch_only_signer
  = Ok ("m/2147483732/2147483648/2147483648/0/6",
        signer.with_cached_bip32_xpubs toy.watch_only_signer
          (<[ account_path ++ [0; 6] := "m/2147483732/2147483648/2147483648/0/6" ]>
             (signer.m_cached_bip32_xpubs toy.watch_only_signer))).
Proof.
  apply (get_bip32_xpub_from_cached_parent (H := toy.wally) account_path [0; 6]
           toy.watch_only_signer "m/2147483732/2147483648/2147483648"
           "m/2147483732/2147483648/2147483648" "m/2147483732/2147483648/2147483648/0/6").
  - discriminate.
  - repeat constructor.
  - vm_compute. reflexivity.
  - intros [|[|[|k]]] Hk; try lia; vm_compute; reflexivity.
  - reflexivity.
  - reflexivity.
Defined.

Lemma master_blinding_key_exported_witness :
  ∃ s', signer.set_master_blinding_key toy.blinding_key_32_hex toy.liquid_signer = Ok s'
    ∧ signer.get_master_blinding_key s'
      = Ok (replicate (64 - length toy.blinding_key_32) x00 ++ toy.blinding_key_32)
    ∧ signer.get_credentials s'
      = if signer.m_is_liquid toy.liquid_signer
        then json_ops.set (signer.m_credentials toy.liquid_signer) "master_blinding_key"
               (JStr (b2h (drop (length toy.blinding_key_32 - 32) toy.blinding_key_32)))
        else Ok (signer.m_credentials toy.liquid_signer).
Proof.
  apply (master_blinding_key_exported (H := toy.wally)).
  - discriminate.
  - reflexivity.
  - left. reflexivity.
Defined.

Lemma is_compatible_with_ignores_blinding_key_witness :
  signer.is_compatible_with
    (signer.with_master_blinding_key toy.liquid_signer (Some toy.blinding_key_32))
    (signer.with_master_blinding_key toy.liquid_signer None)
  = signer.is_compatible_with toy.liquid_signer toy.liquid_signer.
Proof.
  apply (is_compatible_with_ignores_blinding_key (H := toy.wally) toy.liquid_signer
           toy.liquid_signer (Some toy.blinding_key_32) None
           (list_to_map [("mnemonic", JStr "abandon ability able");
                         ("seed", JStr "6162616e646f6e206162696c6974792061626c65")])
           (list_to_map [("mnemonic", JStr "abandon ability able");
                         ("seed", JStr "6162616e646f6e206162696c6974792061626c65")]));
    reflexivity.
Defined.

Lemma new_device_complete_witness :
  Forall (has_value (signer.get_device toy.hardware_signer)) device_keys.
Proof.
  apply (new_device_complete (H := toy.wally) toy.mainnet (toy.hardware_device 0) JNull).
  vm_compute. reflexivity.
Defined.

Lemma new_device_type_witness :
  ∃ device_type,
    device_type ∈ ["hardware"; "green-backend"; "software"; "watch-only"]
    ∧ signer.is_hardware toy.hardware_signer = Ok (bool_decide (device_type = "hardware"))
    ∧ signer.is_remote toy.hardware_signer = Ok (bool_decide (device_type = "green-backend"))
    ∧ signer.is_watch_only toy.hardware_signer = Ok (bool_decide (device_type = "watch-only"))
    ∧ (device_type = "hardware" →
       ∃ name, json_ops.find (signer.get_device toy.hardware_signer) "name" = Some (JStr name)
         ∧ name ≠ "")
    ∧ (device_type = "green-backend" →
       signer.get_device toy.hardware_signer = signer.GREEN_DEVICE_JSON).
Proof.
  apply (new_device_type (H := toy.wally) toy.mainnet (toy.hardware_device 0) JNull).
  vm_compute. reflexivity.
Defined.

Lemma new_signer_seed_witness :
  signer.m_cached_bip32_xpubs toy.software_signer = ∅
  ∧ (∀ path, signer.has_bip32_xpub path toy.software_signer = true
             ↔ is_Some (json_ops.find (signer.m_credentials toy.software_signer) "seed"))
  ∧ (signer.has_master_blinding_key toy.software_signer = true
     ↔ is_liquid toy.mainnet = true
       ∧ is_Some (json_ops.find (signer.m_credentials toy.software_signer) "seed")).
Proof.
  apply (new_signer_seed (H := toy.wally) toy.mainnet JNull toy.software_credentials).
  vm_compute. reflexivity.
Defined.

Lemma new_device_excludes_credentials_witness :
  signer.new toy.mainnet (toy.hardware_device 0) toy.software_credentials
  = (signer.get_credentials_json toy.software_credentials ≫= λ _,
     Throw (user_error "HWW/remote signer and login credentials cannot be used together")).
Proof.
  apply (new_device_excludes_credentials (H := toy.wally) toy.mainnet (toy.hardware_device 0)
           toy.software_credentials toy.jade); vm_compute; reflexivity.
Defined.

Lemma get_credentials_json_shapes_witness :
  ∃ m, signer.m_credentials toy.software_signer = JObj m ∧ dom m ∈ login_shapes.
Proof.
  exact (get_credentials_json_shapes (H := toy.wally) toy.software_credentials
           (signer.m_credentials toy.software_signer) ltac:(vm_compute; reflexivity)).
Defined.

Lemma hex_seed_round_trip_witness :
  signer.m_credentials toy.hex_seed_signer = json_object [("seed", JStr toy.seed_hex)]
  ∧ signer.get_device toy.hex_seed_signer = signer.SOFTWARE_DEVICE_JSON
  ∧ signer.get_mnemonic "password" toy.hex_seed_signer = Ok (toy.seed_hex +:+ "X").
Proof.
  apply (hex_seed_round_trip (H := toy.wally) toy.mainnet toy.seed_hex "password");
    vm_compute; reflexivity.
Defined.

End signer_runs.

Lemma toy_wally_tx_input_laws : @WallyTxInputLaws toy.wally_psbt.
Proof. split; intros txin ? txin' [= <-]; done. Qed.

Module bitcoin_runs.
#[local] Existing Instance toy.wally_psbt.
#[local] Existing Instance toy.bitcoin_session.

Lemma take_matching_utxo_first_witness :
  ∃ before after,
    json_elements (JArr [JNull; toy.wallet_utxo]) = before ++ toy.wallet_utxo :: after
    ∧ utxo_matches "0a" 1 toy.wallet_utxo
    ∧ Forall (λ u', ¬ utxo_matches "0a" 1 u') before.
Proof.
  apply (take_matching_utxo_first (JArr [JNull; toy.wallet_utxo]) "0a" 1 (Some toy.wallet_utxo)).
  vm_compute. reflexivity.
Defined.

Lemma ensure_input_utxo_idempotent_witness :
  Psbt.ensure_input_utxo (Psbt.m_psbt toy.wallet_psbt) 0 "ff"
  = Ok (Psbt.m_psbt toy.wallet_psbt,
        {| wally_tx_output.satoshi := 0; wally_tx_output.script := [x00; x14] |}).
Proof.
  apply (ensure_input_utxo_idempotent (Psbt.m_psbt toy.wallet_psbt) _ 0 "0a").
  vm_compute. reflexivity.
Defined.

Lemma inputs_to_json_frame_witness :
  length (Psbt.st_inputs toy.wallet_inputs) = Psbt.get_num_inputs toy.wallet_psbt
  ∧ Psbt.get_num_inputs (Psbt.st_psbt toy.wallet_inputs) = Psbt.get_num_inputs toy.wallet_psbt
  ∧ wally_psbt.outputs (Psbt.m_psbt (Psbt.st_psbt toy.wallet_inputs))
    = wally_psbt.outputs (Psbt.m_psbt toy.wallet_psbt)
  ∧ wally_psbt.version (Psbt.m_psbt (Psbt.st_psbt toy.wallet_inputs))
    = wally_psbt.version (Psbt.m_psbt toy.wallet_psbt)
  ∧ Psbt.m_is_liquid (Psbt.st_psbt toy.wallet_inputs) = Psbt.m_is_liquid toy.wallet_psbt
  ∧ Psbt.m_original_version (Psbt.st_psbt toy.wallet_inputs)
    = Psbt.m_original_version toy.wallet_psbt
  ∧ Tx.outputs (Psbt.st_tx toy.wallet_inputs) = Tx.outputs (toy.tx_of toy.wallet_psbt)
  ∧ length (Tx.inputs (Psbt.st_tx toy.wallet_inputs))
    = length (Tx.inputs (toy.tx_of toy.wallet_psbt)).
Proof.
  apply (inputs_to_json_frame toy.wallet_psbt (toy.tx_of toy.wallet_psbt) toy.wallet_utxos).
  vm_compute. reflexivity.
Defined.

Lemma inputs_to_json_no_wallet_utxos_witness :
  Psbt.st_wallet_assets toy.foreign_inputs = ∅
  ∧ Psbt.st_tx toy.foreign_inputs = toy.tx_of toy.wallet_psbt
  ∧ Forall (λ utxo, json_ops.find utxo "skip_signing" = Some (JBool true))
      (Psbt.st_inputs toy.foreign_inputs).
Proof.
  apply (inputs_to_json_no_wallet_utxos toy.wallet_psbt (toy.tx_of toy.wallet_psbt) (JObj ∅)).
  - reflexivity.
  - vm_compute. reflexivity.
Defined.

Lemma outputs_to_json_frame_witness :
  length toy.two_change_outputs = Psbt.get_num_outputs toy.two_change_psbt
  ∧ ∀ i, (i < Psbt.get_num_outputs toy.two_change_psbt)%nat →
      ∃ jsonout info marked,
        Psbt.output_to_json toy.two_change_psbt (toy.tx_of toy.two_change_psbt) i
        = Ok (jsonout, info)
        ∧ toy.two_change_outputs !! i = Some marked
        ∧ ∀ key, key ≠ "is_change" → json_ops.find marked key = json_ops.find jsonout key.
Proof.
  apply (outputs_to_json_frame toy.two_change_psbt (toy.tx_of toy.two_change_psbt) {[ "btc" ]}).
  vm_compute. reflexivity.
Defined.

Lemma outputs_to_json_unmarked_witness :
  length toy.unmarked_outputs = Psbt.get_num_outputs toy.two_change_psbt
  ∧ ∀ i, (i < Psbt.get_num_outputs toy.two_change_psbt)%nat →
      ∃ jsonout info,
        Psbt.output_to_json toy.two_change_psbt (toy.tx_of toy.two_change_psbt) i
        = Ok (jsonout, info)
        ∧ toy.unmarked_outputs !! i = Some jsonout.
Proof.
  apply (outputs_to_json_unmarked toy.two_change_psbt (toy.tx_of toy.two_change_psbt) ∅).
  - right. reflexivity.
  - vm_compute. reflexivity.
Defined.

Lemma wallet_input_keeps_signatures_witness :
  let txin := {| wally_tx_input.txhash := [x0a]; wally_tx_input.index := 1;
                 wally_tx_input.sequence := 0xffffffff;
                 wally_tx_input.script := Some [x16]; wally_tx_input.witness := None |} in
  let txin' := toy.signed_txin (Some [x16]) in
  (∀ script, wally_tx_input.script txin = Some script →
     wally_tx_input.script txin' = Some script)
  ∧ (∀ witness, wally_tx_input.witness txin = Some witness →
       wally_tx_input.witness txin' = Some witness)
  ∧ (is_Some (wally_tx_input.script txin) → is_Some (wally_tx_input.witness txin) →
     txin' = txin)
  ∧ wally_tx_input.txhash txin' = wally_tx_input.txhash txin
  ∧ wally_tx_input.index txin' = wally_tx_input.index txin
  ∧ wally_tx_input.sequence txin' = wally_tx_input.sequence txin
  ∧ j_assetref (Psbt.m_is_liquid toy.wallet_psbt) toy.wallet_utxo = Ok "btc".
Proof.
  intros txin txin'.
  apply (wallet_input_keeps_signatures (H0 := toy_wally_tx_input_laws) toy.wallet_psbt
           (toy.tx_of toy.wallet_psbt) 0 (toy.external_input false ∅) txin txin'
           toy.wallet_utxo toy.wallet_input_json "btc").
  vm_compute. reflexivity.
Defined.

Lemma to_json_is_partial_witness :
  ∃ details inputs,
    Psbt.get_details toy.wallet_psbt (json_object [("utxos", toy.wallet_utxos)])
    = Ok (details, toy.wallet_psbt)
    ∧ json_ops.find details "transaction_inputs" = Some (JArr inputs)
    ∧ json_ops.find toy.wallet_json "is_partial"
      = Some (JBool (negb (forallb is_wallet_utxo inputs)))
    ∧ ∀ key, key ≠ "is_partial" →
        json_ops.find toy.wallet_json key = json_ops.find details key.
Proof.
  apply (to_json_is_partial toy.wallet_psbt toy.wallet_psbt toy.wallet_utxos toy.wallet_json).
  vm_compute. reflexivity.
Defined.

Lemma get_details_bitcoin_fee_witness :
  let ins := {| Psbt.st_psbt := toy.two_change_psbt;
                Psbt.st_tx := toy.tx_of toy.two_change_psbt;
                Psbt.st_inputs := []; Psbt.st_wallet_assets := ∅ |} in
  let st := {| Psbt.sum := 2 ^ 64 - 155000; Psbt.explicit_fee := 0;
               Psbt.use_error := false; Psbt.error := "" |} in
  Psbt.get_details toy.two_change_psbt toy.details
  = (result ← Psbt.details_json false (Psbt.st_tx ins) (Psbt.st_inputs ins)
                 toy.unmarked_outputs st;
     Ok (result, Psbt.st_psbt ins))
  ∧ Psbt.sum st = wrap64 (0 - Z_sum satoshi_of toy.unmarked_outputs).
Proof.
  intros ins st.
  refine (let H := get_details_bitcoin_fee toy.two_change_psbt toy.details (JObj ∅)
                     (toy.tx_of toy.two_change_psbt) ins toy.unmarked_outputs st
                     eq_refl eq_refl eq_refl eq_refl _ _ in
          conj (proj1 H) (proj1 (proj2 H))); vm_compute; reflexivity.
Defined.

End bitcoin_runs.

Module singlesig_runs.
#[local] Existing Instance toy.wally_psbt.
#[local] Existing Instance toy.singlesig_session.

Lemma output_to_json_singlesig_witness :
  json_ops.find toy.singlesig_output_json "is_internal" = None
  ∧ json_ops.find toy.singlesig_output_json "branch" = None
  ∧ json_ops.find toy.singlesig_output_json "subtype" = None
  ∧ ∃ before m, utxo_add_paths before = Ok (JObj m)
      ∧ json_ops.find toy.singlesig_output_json "is_change"
        = (if m !! "is_internal" is Some is_internal then Some is_internal
           else m !! "is_change")
      ∧ ∀ key, key ∉ ["is_internal"; "is_change"; "branch"; "subtype"] →
          json_ops.find toy.singlesig_output_json key = m !! key.
Proof.
  apply (output_to_json_singlesig toy.two_change_psbt (toy.tx_of toy.two_change_psbt) 0
           toy.singlesig_output_json "btc").
  - reflexivity.
  - reflexivity.
  - vm_compute. reflexivity.
Defined.

End singlesig_runs.

Module liquid_runs.
#[local] Existing Instance toy.wally_psbt.
#[local] Existing Instance toy.liquid_session.

Lemma output_to_json_liquid_witness :
  ∃ txout asset_bytes blinding_status,
    Psbt.get_output toy.unblindable_pset 0 = Ok txout
    ∧ wally_psbt_output.has_amount txout = true
    ∧ wally_psbt_output.pset_fields txout !! Psbt.out_asset = Some asset_bytes
    ∧ wally_psbt_get_output_blinding_status (Psbt.m_psbt toy.unblindable_pset) 0 0
      = Some blinding_status
    ∧ ((blinding_status = WALLY_PSET_BLINDED_NONE
        ∧ wally_psbt_output.script txout = None
        ∧ (None : Psbt.change_info) = None
        ∧ json_ops.find toy.fee_output_json "asset_id" = Some (JStr (b2h_rev asset_bytes))
        ∧ json_ops.find toy.fee_output_json "satoshi"
          = Some (JNum (wally_psbt_output.amount txout))
        ∧ json_ops.find toy.fee_output_json "scriptpubkey" = Some (JStr ""))
       ∨ (blinding_status = WALLY_PSET_BLINDED_FULL
          ∧ is_Some (wally_psbt_output.script txout)
          ∧ Forall (λ k, is_Some (wally_psbt_output.pset_fields txout !! k))
              blinded_output_keys)).
Proof.
  apply (output_to_json_liquid toy.unblindable_pset (toy.tx_of toy.unblindable_pset) 0
           toy.fee_output_json None).
  - reflexivity.
  - vm_compute. reflexivity.
Defined.

End liquid_runs.

Module parsing_runs.
#[local] Existing Instance toy.wally_psbt.

Lemma from_base64_normalises_witness :
  (wally_psbt.is_elements (toy.empty_psbt 0) ≠ false →
   Psbt.from_base64 toy.empty_psbt_v0_base64 false = Throw (user_error "PSBT/PSET mismatch"))
  ∧ ∀ psbt, Psbt.from_base64 toy.empty_psbt_v0_base64 false = Ok psbt →
      wally_psbt.is_elements (toy.empty_psbt 0) = false
      ∧ Psbt.m_is_liquid psbt = false
      ∧ Psbt.m_original_version psbt = wrap32 (wally_psbt.version (toy.empty_psbt 0))
      ∧ wally_psbt.version (Psbt.m_psbt psbt) = WALLY_PSBT_VERSION_2
      ∧ wally_psbt.is_elements (Psbt.m_psbt psbt) = false.
Proof.
  apply (from_base64_normalises (H0 := toy_wally_psbt_laws) toy.empty_psbt_v0_base64 false
           (toy.empty_psbt 0)).
  reflexivity.
Defined.

End parsing_runs.
